(** * Perturbation-theory power spectra: [pyccl/nl_pt/power.py]

    A shallow embedding of [PTCalculator] and [get_pt_pk2d] and the
    properties of them that the specification states.

    Conventions of the embedding.
    - float64 numbers are idealised as exact rationals ([Qc]); a Python
      float literal [0.25] is the rational 1/4, [4./3.] is the quotient
      of the rationals 4 and 3.  Rounding, infinities and NaN are outside
      the model of the array formulas, which are continuous.  The one
      place where the code truncates a float, [int(...)] in [__init__],
      is modelled with float64 rounding ([round64]).
    - numpy arrays are kept as Python sees them: a shape and the data, for
      ranks 0, 1 and 2.  An operation whose result would have rank 3 or
      more returns the outcome [OutsideModel].
    - a Python call either returns or raises; effects on the calculator
      object and the externally visible events (warnings, calls into the
      cosmology, the tracers and FAST-PT, reads of the cached bundles) are
      threaded through a state-and-exception monad. *)

From Stdlib Require Import QArith Qcanon ZArith Lia.
From stdpp Require Import base option list strings numbers.

Set Default Proof Using "Type".

(* ================================================================== *)
(** * Part I: the embedding                                            *)
(* ================================================================== *)

(** ** Python outcomes *)

Inductive exn : Type :=
| ValueError (msg : string)
| TypeError (msg : string)
| IndexError (msg : string)
| AttributeError (msg : string)
| AssertionError (msg : string)
| NotImplementedError (msg : string)
| CCLError (status : Z)
| OutsideModel (msg : string).

Inductive result (A : Type) : Type :=
| Raise (e : exn)
| Return (a : A).
Arguments Raise {A} e.
Arguments Return {A} a.

(** ** Numbers *)

(** Python's [int(x)]: truncation towards zero. *)
Definition py_int (x : Qc) : Z := Z.quot (Qnum (this x)) (Zpos (Qden (this x))).

(** ** float64 rounding

    A finite float64 is [m * 2^e] for an integer [|m| < 2^53] and
    [-1074 <= e]; the result of an arithmetic operation is the exact result
    rounded to the nearest such number, ties to the even significand. *)

(** [num / den] rounded to the nearest integer, ties to even. *)
Definition round_half_even (num den : Z) : Z :=
  let m := (num / den)%Z in
  let r := (num mod den)%Z in
  if decide (2 * r < den)%Z then m
  else if decide (den < 2 * r)%Z then (m + 1)%Z
  else if Z.even m then m else (m + 1)%Z.

(** The exponent [e] of the last place of the float64 nearest to the
    positive [n / d]: [2^52 <= (n / d) / 2^e < 2^53], and [-1074] in the
    subnormal range. *)
Definition ulp_exp (n d : Z) : Z :=
  let e0 := (Z.log2 n - Z.log2 d - 52)%Z in
  let e := if decide (n * 2 ^ Z.max 0 (- e0) < 2 ^ 52 * (d * 2 ^ Z.max 0 e0))%Z
           then (e0 - 1)%Z else e0 in
  Z.max e (-1074).

(** Rounding to float64 precision, with the exponent unbounded above. *)
Definition round64 (x : Qc) : Qc :=
  let n := Qnum (this x) in
  let d := Zpos (Qden (this x)) in
  if decide (n = 0%Z) then 0%Qc
  else
    let e := ulp_exp (Z.abs n) d in
    let m := round_half_even (Z.abs n * 2 ^ Z.max 0 (- e)) (d * 2 ^ Z.max 0 e) in
    Q2Qc (Qmake (Z.sgn n * m * 2 ^ Z.max 0 e) (Z.to_pos (2 ^ Z.max 0 (- e)))).

(** The float64 of an exact result [x]; a result that rounds to an
    infinity is outside the model. *)
Definition float64 (x : Qc) : result Qc :=
  let r := round64 x in
  if decide (Z.abs (Qnum (this r)) < 2 ^ 1024 * Zpos (Qden (this r)))%Z
  then Return r
  else Raise (OutsideModel "float64 overflow").


(** The float64 that a decimal literal denotes: [f64 0.1] is the float
    nearest to 1/10. *)
Definition f64 (x : Q) : Qc := round64 (Q2Qc x).

(** ** numpy arrays of rank 0, 1 and 2 *)

Inductive ndarray : Type :=
| Scalar (x : Qc)
| Arr1 (v : list Qc)
| Arr2 (ncols : nat) (rows : list (list Qc)).

(** [a.shape] *)
Definition shape (a : ndarray) : list nat :=
  match a with
  | Scalar _ => []
  | Arr1 v => [length v]
  | Arr2 c rows => [length rows; c]
  end.

(** Every row of a rank-2 array has the declared number of columns. *)
Definition wf (a : ndarray) : Prop :=
  match a with
  | Arr2 c rows => Forall (λ r, length r = c) rows
  | _ => True
  end.

(** [a[i, j]], with numpy's alignment of lower ranks to the right:
    a scalar is read at any index, a vector at its column index. *)
Definition entry (a : ndarray) (i j : nat) : option Qc :=
  match a with
  | Scalar x => Some x
  | Arr1 v => v !! j
  | Arr2 _ rows => rows !! i ≫= λ r, r !! j
  end.

(** Broadcasting of one axis: equal lengths, or one of them is 1. *)
Definition bdim (m n : nat) : option nat :=
  if decide (m = n) then Some m
  else if decide (m = 1) then Some n
  else if decide (n = 1) then Some m
  else None.

(** An axis of length 1 is repeated [n] times; other axes are kept. *)
Definition stretch {A} (n : nat) (l : list A) : list A :=
  match l with
  | [x] => replicate n x
  | _ => l
  end.

Definition bcast1 (f : Qc → Qc → Qc) (u v : list Qc) : option (list Qc) :=
  n ← bdim (length u) (length v);
  Some (zip_with f (stretch n u) (stretch n v)).

Definition bcast2 (f : Qc → Qc → Qc) (c1 : nat) (r1 : list (list Qc))
    (c2 : nat) (r2 : list (list Qc)) : option ndarray :=
  c ← bdim c1 c2;
  r ← bdim (length r1) (length r2);
  Some (Arr2 c (zip_with (λ u v, zip_with f (stretch c u) (stretch c v))
                         (stretch r r1) (stretch r r2))).

Definition broadcast_error {A} : result A :=
  Raise (ValueError "operands could not be broadcast together").

Definition of_bcast (o : option ndarray) : result ndarray :=
  match o with
  | Some a => Return a
  | None => broadcast_error
  end.

(** An elementwise binary operator ([*], [+], [-], [/]) with broadcasting. *)
Definition binop (f : Qc → Qc → Qc) (a b : ndarray) : result ndarray :=
  match a, b with
  | Scalar x, Scalar y => Return (Scalar (f x y))
  | Scalar x, Arr1 v => Return (Arr1 (f x <$> v))
  | Scalar x, Arr2 c r => Return (Arr2 c ((λ row : list Qc, f x <$> row) <$> r))
  | Arr1 u, Scalar y => Return (Arr1 ((λ x, f x y) <$> u))
  | Arr2 c r, Scalar y => Return (Arr2 c ((λ row : list Qc, (λ x, f x y) <$> row) <$> r))
  | Arr1 u, Arr1 v => of_bcast (Arr1 <$> bcast1 f u v)
  | Arr1 u, Arr2 c r => of_bcast (bcast2 f (length u) [u] c r)
  | Arr2 c r, Arr1 v => of_bcast (bcast2 f c r (length v) [v])
  | Arr2 c1 r1, Arr2 c2 r2 => of_bcast (bcast2 f c1 r1 c2 r2)
  end.

(** [a ** n] for a literal exponent. *)
Definition np_power (a : ndarray) (n : nat) : ndarray :=
  match a with
  | Scalar x => Scalar (Qcpower x n)
  | Arr1 v => Arr1 ((λ x, Qcpower x n) <$> v)
  | Arr2 c r => Arr2 c ((λ row : list Qc, (λ x, Qcpower x n) <$> row) <$> r)
  end.

(** [a[None, :]] *)
Definition newaxis_row (a : ndarray) : result ndarray :=
  match a with
  | Scalar _ => Raise (IndexError "invalid index to scalar variable.")
  | Arr1 v => Return (Arr2 (length v) [v])
  | Arr2 _ _ => Raise (OutsideModel "rank 3")
  end.

(** [a[:, None]] *)
Definition newaxis_col (a : ndarray) : result ndarray :=
  match a with
  | Scalar _ => Raise (IndexError "invalid index to scalar variable.")
  | Arr1 v => Return (Arr2 1 ((λ x, [x]) <$> v))
  | Arr2 _ _ => Raise (OutsideModel "rank 3")
  end.

(** [a.T]: the axes are reversed; ranks 0 and 1 are unchanged. *)
Definition transpose (a : ndarray) : ndarray :=
  match a with
  | Arr2 c rows =>
      Arr2 (length rows)
           ((λ j, (λ r, default 0%Qc (r !! j)) <$> rows) <$> seq 0 c)
  | _ => a
  end.

(** [for x in a]: the items along the first axis. *)
Definition np_iter (a : ndarray) : result (list ndarray) :=
  match a with
  | Scalar _ => Raise (TypeError "iteration over a 0-d array")
  | Arr1 v => Return (Scalar <$> v)
  | Arr2 _ rows => Return (Arr1 <$> rows)
  end.

(** The rows of a list of arrays, when all of them are vectors of
    length [c]. *)
Fixpoint vector_rows (c : nat) (l : list ndarray) : option (list (list Qc)) :=
  match l with
  | [] => Some []
  | Arr1 v :: l' =>
      if decide (length v = c) then (v ::.) <$> vector_rows c l' else None
  | _ :: _ => None
  end.

Fixpoint scalar_items (l : list ndarray) : option (list Qc) :=
  match l with
  | [] => Some []
  | Scalar x :: l' => (x ::.) <$> scalar_items l'
  | _ :: _ => None
  end.

(** [np.array(l)] for a Python list [l] of arrays: the empty list gives
    the empty vector, scalars a vector, equally long vectors a grid with
    one row per item. *)
Definition np_array (l : list ndarray) : result ndarray :=
  match l with
  | [] => Return (Arr1 [])
  | Scalar _ :: _ =>
      match scalar_items l with
      | Some v => Return (Arr1 v)
      | None => Raise (ValueError "inhomogeneous shape")
      end
  | Arr1 v :: _ =>
      match vector_rows (length v) l with
      | Some rows => Return (Arr2 (length v) rows)
      | None => Raise (ValueError "inhomogeneous shape")
      end
  | Arr2 _ _ :: _ => Raise (OutsideModel "rank 3")
  end.

(** ** Events and the monad *)

(** What a call does that its caller, or the user, can observe. *)
Inductive event : Type :=
| EvWarn (msg : string)              (* warnings.warn(msg) *)
| EvCosmo (fn : string)              (* a call into the cosmology *)
| EvBias (slot : nat) (fn : string)  (* tracer<slot>.<fn>(z_arr) *)
| EvEngine (fn : string)             (* a call into FAST-PT *)
| EvRead (attr : string).            (* a read of self.<attr>, a cached bundle *)

(** A computation over an object state [S]: it returns or raises, and in
    both cases leaves a state and a trace behind. *)
Definition M (S A : Type) : Type := S → list event → S * list event * result A.

Definition ret {S A} (a : A) : M S A := λ s tr, (s, tr, Return a).

Definition raise {S A} (e : exn) : M S A := λ s tr, (s, tr, Raise e).

Definition bind {S A B} (m : M S A) (f : A → M S B) : M S B :=
  λ s tr,
    match m s tr with
    | (s', tr', Raise e) => (s', tr', Raise e)
    | (s', tr', Return a) => f a s' tr'
    end.

Definition lift {S A} (r : result A) : M S A := λ s tr, (s, tr, r).

Definition emit {S} (e : event) : M S unit := λ s tr, (s, tr ++ [e], Return tt).

Definition gets {S A} (f : S → A) : M S A := λ s tr, (s, tr, Return (f s)).

Definition modify {S} (f : S → S) : M S unit := λ s tr, (f s, tr, Return tt).

Declare Scope py_scope.
Delimit Scope py_scope with py.
Notation "x <- m ;; k" := (bind m (λ x, k))
  (at level 100, m at next level, right associativity) : py_scope.
Notation "m ;;; k" := (bind m (λ _, k))
  (at level 100, right associativity) : py_scope.
Local Open Scope py_scope.

(** Array expressions, evaluated left to right as Python does.  In the
    notations below [$a] is the value of the variable [a], [x *~ y],
    [x /~ y], [x +~ y] and [x -~ y] are the numpy operators with
    broadcasting, and [x[None,:]] and [x[:,None]] add an axis. *)
Definition arr_op {S} (f : Qc → Qc → Qc) (ma mb : M S ndarray) : M S ndarray :=
  a <- ma ;; b <- mb ;; lift (binop f a b).

Definition row {S} (ma : M S ndarray) : M S ndarray :=
  a <- ma ;; lift (newaxis_row a).

Definition col {S} (ma : M S ndarray) : M S ndarray :=
  a <- ma ;; lift (newaxis_col a).

(** A float literal, written in decimal: [lit 0.25]. *)
Definition lit {S} (x : Q) : M S ndarray := ret (Scalar (Q2Qc x)).

Notation "a *~ b" := (arr_op Qcmult a b) (at level 40, left associativity) : py_scope.
Notation "a /~ b" := (arr_op Qcdiv a b) (at level 40, left associativity) : py_scope.
Notation "a +~ b" := (arr_op Qcplus a b) (at level 50, left associativity) : py_scope.
Notation "a -~ b" := (arr_op Qcminus a b) (at level 50, left associativity) : py_scope.
Notation "a '[None,:]'" := (row a) (at level 1, left associativity, format "a [None,:]") : py_scope.
Notation "a '[:,None]'" := (col a) (at level 1, left associativity, format "a [:,None]") : py_scope.
Notation "$ a" := (ret a) (at level 1, a at level 0, format "$ a") : py_scope.

Fixpoint mapM {S A B} (f : A → M S B) (l : list A) : M S (list B) :=
  match l with
  | [] => ret []
  | x :: l' => y <- f x ;; ys <- mapM f l' ;; ret (y :: ys)
  end.

(** ** The collaborators

    FAST-PT, the cosmology, the tracers and the output container are not
    part of [power.py]; they are taken as the values the code receives. *)

(** A [fastpt.FASTPT] object: its four decompositions of a linear power
    spectrum, each called with [P_window] and [C_window], each returning a
    Python sequence of arrays or raising. *)
Record FASTPT : Type := {
  one_loop_dd_bias : ndarray → option ndarray → Qc → result (list ndarray);
  IA_ta : ndarray → option ndarray → Qc → result (list ndarray);
  IA_tt : ndarray → option ndarray → Qc → result (list ndarray);
  IA_mix : ndarray → option ndarray → Qc → result (list ndarray)
}.

(** What the module imports besides: whether [fastpt] could be imported,
    its constructor [fpt.FASTPT(ks, to_do, low_extrap, high_extrap, n_pad)],
    [np.logspace] and [np.log]. *)
Record Runtime : Type := {
  HAVE_FASTPT : bool;
  fpt_FASTPT : ndarray → list string → Qc → Qc → Qc → result FASTPT;
  np_logspace : Qc → Qc → Z → result ndarray;
  np_log : ndarray → ndarray
}.

(** Modelled from the spec: [ccllib], [power.py] and [background.py] of
    [pyccl] are not among the sources.  A cosmology is the evaluator of
    section 6: [lib.get_pk_spline_a], the default scale-factor samples, with
    the status it reports, [linear_matter_power] and [nonlin_matter_power]
    at wavenumbers [k] and scale factor [a], and [growth_factor]. *)
Record Cosmology : Type := {
  get_pk_spline_a : ndarray * Z;
  linear_matter_power : ndarray → ndarray → result ndarray;
  nonlin_matter_power : ndarray → ndarray → result ndarray;
  growth_factor : ndarray → result ndarray
}.

(** Modelled from the spec: [core.check(status)], not among the sources,
    raises when the status is not 0. *)
Definition check {S} (status : Z) : M S unit :=
  if decide (status = 0%Z) then ret tt else raise (CCLError status).

(** Modelled from the spec: [nl_pt/tracers.py] is not among the sources.
    Section 3 gives the tracer types [NC], [IA] and [M], with the
    redshift-indexed bias functions [(b1, b2, bs)] for [NC],
    [(c1, c2, cdelta)] for [IA] and none for [M].  [PTTracerOther] stands
    for an instance of the base class or of a subclass with another tag. *)
Inductive PTTracer : Type :=
| PTMatterTracer
| PTNumberCountsTracer (b1 b2 bs : ndarray → ndarray)
| PTIntrinsicAlignmentTracer (c1 c2 cdelta : ndarray → ndarray)
| PTTracerOther (tag : string).

(** [tracer.type] *)
Definition type (t : PTTracer) : string :=
  match t with
  | PTMatterTracer => "M"
  | PTNumberCountsTracer _ _ _ => "NC"
  | PTIntrinsicAlignmentTracer _ _ _ => "IA"
  | PTTracerOther tag => tag
  end.

(** Attribute lookup [tracer.<name>] for the bias functions. *)
Definition bias_fn (t : PTTracer) (name : string) : option (ndarray → ndarray) :=
  match t with
  | PTNumberCountsTracer b1 b2 bs =>
      if decide (name = "b1") then Some b1
      else if decide (name = "b2") then Some b2
      else if decide (name = "bs") then Some bs
      else None
  | PTIntrinsicAlignmentTracer c1 c2 cdelta =>
      if decide (name = "c1") then Some c1
      else if decide (name = "c2") then Some c2
      else if decide (name = "cdelta") then Some cdelta
      else None
  | _ => None
  end.

(** [tracer<slot>.<name>(z)] *)
Definition call_bias {S} (slot : nat) (t : PTTracer) (name : string)
    (z : ndarray) : M S ndarray :=
  match bias_fn t name with
  | None => raise (AttributeError name)
  | Some f => emit (EvBias slot name) ;;; ret (f z)
  end.

(** Modelled from the spec: [pk2d.py] is not among the sources.  Section 6
    gives the output container as constructed from the scale-factor axis,
    the log-k axis, the power grid, the log-storage flag and the
    extrapolation orders; a [Pk2D] here is the arguments it is constructed
    from.  An extrapolation order is [None] when the keyword is not passed;
    [Pk2D] then uses its own default. *)
Record Pk2D : Type := {
  pk2d_a_arr : ndarray;
  pk2d_lk_arr : ndarray;
  pk2d_pk_arr : ndarray;
  pk2d_is_logp : bool;
  pk2d_extrap_order_lok : option Z;
  pk2d_extrap_order_hik : option Z
}.

(** ** [PTCalculator] *)

Record PTCalculator : Type := {
  with_NC : bool;
  with_IA : bool;
  P_window : option ndarray;
  C_window : Qc;
  ks : ndarray;
  pt : FASTPT;
  dd_bias : option (list ndarray);
  ia_ta : option (list ndarray);
  ia_tt : option (list ndarray);
  ia_mix : option (list ndarray)
}.

(** [self.dd_bias = v], and likewise for the other three bundles. *)
Definition set_dd_bias (v : list ndarray) (self : PTCalculator) : PTCalculator :=
  {| with_NC := with_NC self; with_IA := with_IA self;
     P_window := P_window self; C_window := C_window self;
     ks := ks self; pt := pt self;
     dd_bias := Some v; ia_ta := ia_ta self;
     ia_tt := ia_tt self; ia_mix := ia_mix self |}.

Definition set_ia_ta (v : list ndarray) (self : PTCalculator) : PTCalculator :=
  {| with_NC := with_NC self; with_IA := with_IA self;
     P_window := P_window self; C_window := C_window self;
     ks := ks self; pt := pt self;
     dd_bias := dd_bias self; ia_ta := Some v;
     ia_tt := ia_tt self; ia_mix := ia_mix self |}.

Definition set_ia_tt (v : list ndarray) (self : PTCalculator) : PTCalculator :=
  {| with_NC := with_NC self; with_IA := with_IA self;
     P_window := P_window self; C_window := C_window self;
     ks := ks self; pt := pt self;
     dd_bias := dd_bias self; ia_ta := ia_ta self;
     ia_tt := Some v; ia_mix := ia_mix self |}.

Definition set_ia_mix (v : list ndarray) (self : PTCalculator) : PTCalculator :=
  {| with_NC := with_NC self; with_IA := with_IA self;
     P_window := P_window self; C_window := C_window self;
     ks := ks self; pt := pt self;
     dd_bias := dd_bias self; ia_ta := ia_ta self;
     ia_tt := ia_tt self; ia_mix := Some v |}.

(** [len(a)] *)
Definition len (a : ndarray) : result nat :=
  match a with
  | Scalar _ => Raise (TypeError "len() of unsized object")
  | Arr1 v => Return (length v)
  | Arr2 _ rows => Return (length rows)
  end.

(** [int((log10k_max - log10k_min) * nk_per_decade)] (line 85), for
    float64 arguments (or integers that float64 holds exactly): the
    difference and the product are rounded before the truncation. *)
Definition nk_total (log10k_min log10k_max nk_per_decade : Qc) : result Z :=
  match float64 (log10k_max - log10k_min) with
  | Raise e => Raise e
  | Return d =>
      match float64 (d * nk_per_decade) with
      | Raise e => Raise e
      | Return p => Return (py_int p)
      end
  end.

(** [PTCalculator.__init__] (lines 57-96). *)
Definition PTCalculator_init {S} (rt : Runtime) (with_NC with_IA : bool)
    (log10k_min log10k_max nk_per_decade pad_factor low_extrap high_extrap : Qc)
    (P_window : option ndarray) (C_window : Qc) : M S PTCalculator :=
  if negb (HAVE_FASTPT rt) then
    raise (AssertionError "You must have the `FASTPT` python package installed to use CCL to get PT observables!")
  else
    let to_do := ["one_loop_dd"]
                 ++ (if with_NC then ["dd_bias"] else [])
                 ++ (if with_IA then ["IA"] else []) in
    nk_total <- lift (nk_total log10k_min log10k_max nk_per_decade) ;;
    ks <- lift (np_logspace rt log10k_min log10k_max nk_total) ;;
    n <- lift (len ks) ;;
    let n_pad := (pad_factor * Qc_of_Z (Z.of_nat n))%Qc in
    emit (EvEngine "FASTPT") ;;;
    pt <- lift (fpt_FASTPT rt ks to_do low_extrap high_extrap n_pad) ;;
    ret {| with_NC := with_NC; with_IA := with_IA;
           P_window := P_window; C_window := C_window;
           ks := ks; pt := pt;
           dd_bias := None; ia_ta := None; ia_tt := None; ia_mix := None |}.

(** [_get_dd_bias] (lines 106-112). *)
Definition _get_dd_bias (pk : ndarray) : M PTCalculator unit :=
  self <- gets id ;;
  emit (EvEngine "one_loop_dd_bias") ;;;
  v <- lift (one_loop_dd_bias (pt self) pk (P_window self) (C_window self)) ;;
  modify (set_dd_bias v).

(** [_get_ia_bias] (lines 114-125). *)
Definition _get_ia_bias (pk : ndarray) : M PTCalculator unit :=
  self <- gets id ;;
  emit (EvEngine "IA_ta") ;;;
  v <- lift (IA_ta (pt self) pk (P_window self) (C_window self)) ;;
  modify (set_ia_ta v) ;;;
  emit (EvEngine "IA_tt") ;;;
  v <- lift (IA_tt (pt self) pk (P_window self) (C_window self)) ;;
  modify (set_ia_tt v) ;;;
  emit (EvEngine "IA_mix") ;;;
  v <- lift (IA_mix (pt self) pk (P_window self) (C_window self)) ;;
  modify (set_ia_mix v).

(** [update_pk] (lines 98-104). *)
Definition update_pk (pk : ndarray) : M PTCalculator unit :=
  self_ks <- gets ks ;;
  if decide (shape pk ≠ shape self_ks) then
    raise (ValueError "Input spectrum has wrong shape")
  else
    self_with_NC <- gets with_NC ;;
    (if self_with_NC then _get_dd_bias pk else ret tt) ;;;
    self_with_IA <- gets with_IA ;;
    (if self_with_IA then _get_ia_bias pk else ret tt).

(** A read of one of the cached bundles. *)
Definition read_bundle (attr : string)
    (f : PTCalculator → option (list ndarray)) : M PTCalculator (option (list ndarray)) :=
  emit (EvRead attr) ;;; gets f.

(** [bundle[i]] *)
Definition subscript (b : option (list ndarray)) (i : nat) : result ndarray :=
  match b with
  | None => Raise (TypeError "'NoneType' object is not subscriptable")
  | Some l =>
      match l !! i with
      | Some a => Return a
      | None => Raise (IndexError "index out of range")
      end
  end.

(** [self.dd_bias[i]] *)
Definition self_dd_bias (i : nat) : M PTCalculator ndarray :=
  b <- read_bundle "dd_bias" dd_bias ;; lift (subscript b i).

(** [w, x, y, z = bundle] *)
Definition unpack4 (b : option (list ndarray))
    : result (ndarray * ndarray * ndarray * ndarray) :=
  match b with
  | None => Raise (TypeError "cannot unpack non-iterable NoneType object")
  | Some [w; x; y; z] => Return (w, x, y, z)
  | Some _ => Raise (ValueError "wrong number of values to unpack")
  end.

(** [x, y = bundle] *)
Definition unpack2 (b : option (list ndarray)) : result (ndarray * ndarray) :=
  match b with
  | None => Raise (TypeError "cannot unpack non-iterable NoneType object")
  | Some [x; y] => Return (x, y)
  | Some _ => Raise (ValueError "wrong number of values to unpack")
  end.

(** [get_pgg] (lines 160-178). *)
Definition get_pgg (Pd1d1 g4 b11 b21 bs1 b12 b22 bs2 : ndarray)
    (sub_lowk : bool) : M PTCalculator ndarray :=
  Pd1d2 <- $g4[None,:] *~ (self_dd_bias 2)[:,None] ;;
  Pd2d2 <- $g4[None,:] *~ (self_dd_bias 3)[:,None] ;;
  Pd1s2 <- $g4[None,:] *~ (self_dd_bias 4)[:,None] ;;
  Pd2s2 <- $g4[None,:] *~ (self_dd_bias 5)[:,None] ;;
  Ps2s2 <- $g4[None,:] *~ (self_dd_bias 6)[:,None] ;;
  s4 <- (if sub_lowk then
           s4 <- $g4 *~ self_dd_bias 7 ;;
           $s4[None,:]
         else lit 0.0) ;;
  pgg <- (($b11 *~ $b12)[None,:] *~ $Pd1d1 +~
          lit 0.5 *~ ($b11 *~ $b22 +~ $b12 *~ $b21)[None,:] *~ $Pd1d2 +~
          lit 0.25 *~ ($b21 *~ $b22)[None,:] *~ ($Pd2d2 -~ lit 2.0 *~ $s4) +~
          lit 0.5 *~ ($b11 *~ $bs2 +~ $b12 *~ $bs1)[None,:] *~ $Pd1s2 +~
          lit 0.25 *~ ($b21 *~ $bs2 +~ $b22 *~ $bs1)[None,:] *~
            ($Pd2s2 -~ (lit 4.0 /~ lit 3.0) *~ $s4) +~
          lit 0.25 *~ ($bs1 *~ $bs2)[None,:] *~
            ($Ps2s2 -~ (lit 8.0 /~ lit 9.0) *~ $s4)) ;;
  ret pgg.

(** [get_pgm] (lines 206-213). *)
Definition get_pgm (Pd1d1 g4 b1 b2 bs : ndarray) : M PTCalculator ndarray :=
  Pd1d2 <- $g4[None,:] *~ (self_dd_bias 2)[:,None] ;;
  Pd1s2 <- $g4[None,:] *~ (self_dd_bias 4)[:,None] ;;
  pgm <- ($b1[None,:] *~ $Pd1d1 +~
          lit 0.5 *~ $b2[None,:] *~ $Pd1d2 +~
          lit 0.5 *~ $bs[None,:] *~ $Pd1s2) ;;
  ret pgm.

(** [get_pim] (lines 241-249). *)
Definition get_pim (Pd1d1 g4 c1 c2 cd : ndarray) : M PTCalculator ndarray :=
  ta <- read_bundle "ia_ta" ia_ta ;;
  u <- lift (unpack4 ta) ;; let '(a00e, c00e, a0e0e, a0b0b) := u in
  mix <- read_bundle "ia_mix" ia_mix ;;
  u <- lift (unpack4 mix) ;; let '(a0e2, b0e2, d0ee2, d0bb2) := u in
  pim <- ($c1[None,:] *~ $Pd1d1 +~
          ($g4 *~ $cd)[None,:] *~ ($a00e +~ $c00e)[:,None] +~
          ($g4 *~ $c2)[None,:] *~ ($a0e2 +~ $b0e2)[:,None]) ;;
  ret pim.

Definition pgi_warning : string :=
  "The full non-linear model for the cross-correlation between number counts and intrinsic alignments is still work in progress in FastPT. As a workaround CCL assumes a non-linear treatment of IAs, but only linearly biased number counts.".

(** [get_pgi] (lines 280-294). *)
Definition get_pgi (Pd1d1 g4 b1 b2 bs c1 c2 cd : ndarray) : M PTCalculator ndarray :=
  emit (EvWarn pgi_warning) ;;;
  ta <- read_bundle "ia_ta" ia_ta ;;
  u <- lift (unpack4 ta) ;; let '(a00e, c00e, a0e0e, a0b0b) := u in
  mix <- read_bundle "ia_mix" ia_mix ;;
  u <- lift (unpack4 mix) ;; let '(a0e2, b0e2, d0ee2, d0bb2) := u in
  pim <- $b1[None,:] *~ ($c1[None,:] *~ $Pd1d1 +~
                         ($g4 *~ $cd)[None,:] *~ ($a00e +~ $c00e)[:,None] +~
                         ($g4 *~ $c2)[None,:] *~ ($a0e2 +~ $b0e2)[:,None]) ;;
  ret pim.

(** [get_pii] (lines 326-341). *)
Definition get_pii (Pd1d1 g4 c11 c21 cd1 c12 c22 cd2 : ndarray)
    (return_bb : bool) : M PTCalculator ndarray :=
  ta <- read_bundle "ia_ta" ia_ta ;;
  u <- lift (unpack4 ta) ;; let '(a00e, c00e, a0e0e, a0b0b) := u in
  tt_ <- read_bundle "ia_tt" ia_tt ;;
  u <- lift (unpack2 tt_) ;; let '(ae2e2, ab2b2) := u in
  mix <- read_bundle "ia_mix" ia_mix ;;
  u <- lift (unpack4 mix) ;; let '(a0e2, b0e2, d0ee2, d0bb2) := u in
  pii <- (if return_bb then
            ($cd1 *~ $cd2)[None,:] *~ $a0b0b[:,None] +~
            ($cd1 *~ $c22 *~ $g4)[None,:] *~ $ab2b2[:,None] +~
            (($cd1 *~ $c22 +~ $cd1 *~ $c21) *~ $g4)[None,:] *~ $d0bb2[:,None]
          else
            ($c11 *~ $c12 *~ $g4)[None,:] *~ $Pd1d1 +~
            (($c11 *~ $cd2 +~ $c12 *~ $cd1) *~ $g4)[None,:] *~ ($a00e +~ $c00e)[:,None] +~
            ($cd1 *~ $cd2 *~ $g4)[None,:] *~ $a0e0e[:,None] +~
            ($c21 *~ $c22 *~ $g4)[None,:] *~ $ae2e2[:,None] +~
            (($c11 *~ $c22 +~ $c21 *~ $c12) *~ $g4)[None,:] *~ ($a0e2 +~ $b0e2)[:,None] +~
            (($cd1 *~ $c22 +~ $cd2 *~ $c21) *~ $g4)[None,:] *~ $d0ee2[:,None]) ;;
  ret pii.

(** ** [get_pt_pk2d] *)

(** The state of [get_pt_pk2d] is what the variable [ptc] is bound to:
    [None], or the calculator object, which the caller shares. *)
Definition on_ptc {A} (m : M PTCalculator A) : M (option PTCalculator) A :=
  λ s tr,
    match s with
    | Some c => let '(c', tr', r) := m c tr in (Some c', tr', r)
    | None => (None, tr, Raise (AttributeError "'NoneType' object has no attribute"))
    end.

(** [t.type == tag] *)
Definition type_is (t : PTTracer) (tag : string) : bool :=
  bool_decide (type t = tag).

Definition not_implemented {S A} (tracer1 tracer2 : PTTracer) : M S A :=
  raise (NotImplementedError
           ("Combination " ++ type tracer1 ++ "-" ++ type tracer2
            ++ " not implemented yet")).

(** [np.array([power(cosmo, ptc.ks, a) for a in a_arr]).T] (lines 446-451). *)
Definition power_grid (fn : string) (power : ndarray → ndarray → result ndarray)
    (a_arr : ndarray) : M (option PTCalculator) ndarray :=
  items <- lift (np_iter a_arr) ;;
  rows <- mapM (λ a, ptc_ks <- on_ptc (gets ks) ;;
                     emit (EvCosmo fn) ;;;
                     lift (power ptc_ks a)) items ;;
  grid <- lift (np_array rows) ;;
  ret (transpose grid).

(** [get_pt_pk2d] (lines 401-545).  The tracers are [PTTracer]s and [ptc],
    when given, is a [PTCalculator], so the three [isinstance] checks pass.
    The returned triple holds the calculator object after the call. *)
Definition get_pt_pk2d (rt : Runtime) (cosmo : Cosmology) (tracer1 : PTTracer)
    (ptc : option PTCalculator) (tracer2 : option PTTracer)
    (sub_lowk use_nonlin : bool) (a_arr : option ndarray)
    (extrap_order_lok extrap_order_hik : Z) (return_ia_bb : bool)
    : list event → option PTCalculator * list event * result Pk2D :=
  (a_arr <- match a_arr with
            | None =>
                let '(a_arr, status) := get_pk_spline_a cosmo in
                check status ;;; ret a_arr
            | Some a_arr => ret a_arr
            end ;;
   let tracer2 := default tracer1 tracer2 in
   ptc_ <- gets id ;;
   match ptc_ with
   | None =>
       c <- PTCalculator_init rt true true (Q2Qc (-4)) (Q2Qc 2) (Q2Qc 20)
              (Q2Qc 1) (Q2Qc (-5)) (Q2Qc 3) None (Q2Qc 0.75) ;;
       modify (λ _, Some c)
   | Some _ => ret tt
   end ;;;
   (if type_is tracer1 "NC" || type_is tracer2 "NC" then
      ptc_with_NC <- on_ptc (gets with_NC) ;;
      if negb ptc_with_NC then
        raise (ValueError "Need number counts bias, but workspace didn't compute it")
      else ret tt
    else ret tt) ;;;
   (if type_is tracer1 "IA" || type_is tracer2 "IA" then
      ptc_with_IA <- on_ptc (gets with_IA) ;;
      if negb ptc_with_IA then
        raise (ValueError "Need intrinsic alignment bias, but workspace didn't compute it")
      else ret tt
    else ret tt) ;;;
   z_arr <- lit 1.0 /~ $a_arr -~ lit 1 ;;
   ptc_ks <- on_ptc (gets ks) ;;
   emit (EvCosmo "linear_matter_power") ;;;
   pk_lin_z0 <- lift (linear_matter_power cosmo ptc_ks (Scalar (Q2Qc 1.0))) ;;
   on_ptc (update_pk pk_lin_z0) ;;;
   emit (EvCosmo "growth_factor") ;;;
   ga <- lift (growth_factor cosmo a_arr) ;;
   let ga2 := np_power ga 2 in
   let ga4 := np_power ga2 2 in
   Pd1d1 <- (if use_nonlin then
               power_grid "nonlin_matter_power" (nonlin_matter_power cosmo) a_arr
             else
               power_grid "linear_matter_power" (linear_matter_power cosmo) a_arr) ;;
   p_pt <-
     (if type_is tracer1 "NC" then
        b11 <- call_bias 1 tracer1 "b1" z_arr ;;
        b21 <- call_bias 1 tracer1 "b2" z_arr ;;
        bs1 <- call_bias 1 tracer1 "b2" z_arr ;;
        if type_is tracer2 "NC" then
          b12 <- call_bias 2 tracer2 "b1" z_arr ;;
          b22 <- call_bias 2 tracer2 "b2" z_arr ;;
          bs2 <- call_bias 2 tracer2 "b2" z_arr ;;
          on_ptc (get_pgg Pd1d1 ga4 b11 b21 bs1 b12 b22 bs2 sub_lowk)
        else if type_is tracer2 "IA" then
          c12 <- call_bias 2 tracer2 "c1" z_arr ;;
          c22 <- call_bias 2 tracer2 "c2" z_arr ;;
          cd2 <- call_bias 2 tracer2 "cdelta" z_arr ;;
          on_ptc (get_pgi Pd1d1 ga4 b11 b21 bs1 c12 c22 cd2)
        else if type_is tracer2 "M" then
          on_ptc (get_pgm Pd1d1 ga4 b11 b21 bs1)
        else not_implemented tracer1 tracer2
      else if type_is tracer1 "IA" then
        c11 <- call_bias 1 tracer1 "c1" z_arr ;;
        c21 <- call_bias 1 tracer1 "c2" z_arr ;;
        cd1 <- call_bias 1 tracer1 "cdelta" z_arr ;;
        if type_is tracer2 "IA" then
          c12 <- call_bias 2 tracer2 "c1" z_arr ;;
          c22 <- call_bias 2 tracer2 "c2" z_arr ;;
          cd2 <- call_bias 2 tracer2 "cdelta" z_arr ;;
          on_ptc (get_pii Pd1d1 ga4 c11 c21 cd1 c12 c22 cd2 return_ia_bb)
        else if type_is tracer2 "NC" then
          b12 <- call_bias 2 tracer2 "b1" z_arr ;;
          b22 <- call_bias 2 tracer2 "b2" z_arr ;;
          bs2 <- call_bias 2 tracer2 "b2" z_arr ;;
          on_ptc (get_pgi Pd1d1 ga4 b12 b22 bs2 c11 c21 cd1)
        else if type_is tracer2 "M" then
          on_ptc (get_pim Pd1d1 ga4 c11 c21 cd1)
        else not_implemented tracer1 tracer2
      else if type_is tracer1 "M" then
        if type_is tracer2 "NC" then
          b12 <- call_bias 2 tracer2 "b1" z_arr ;;
          b22 <- call_bias 2 tracer2 "b2" z_arr ;;
          bs2 <- call_bias 2 tracer2 "b2" z_arr ;;
          on_ptc (get_pgm Pd1d1 ga4 b12 b22 bs2)
        else if type_is tracer2 "IA" then
          c12 <- call_bias 2 tracer2 "c1" z_arr ;;
          c22 <- call_bias 2 tracer2 "c2" z_arr ;;
          cd2 <- call_bias 2 tracer2 "cdelta" z_arr ;;
          on_ptc (get_pim Pd1d1 ga4 c12 c22 cd2)
        else if type_is tracer2 "M" then
          ret Pd1d1
        else not_implemented tracer1 tracer2
      else not_implemented tracer1 tracer2) ;;
   ptc_ks <- on_ptc (gets ks) ;;
   ret {| pk2d_a_arr := a_arr;
          pk2d_lk_arr := np_log rt ptc_ks;
          pk2d_pk_arr := transpose p_pt;
          pk2d_is_logp := false;
          pk2d_extrap_order_lok := None;
          pk2d_extrap_order_hik := None |}) ptc.

(** ** Reading arrays *)

(** [a.ndim] *)
Definition ndim (a : ndarray) : nat := length (shape a).

(** Rows and columns once the shape is aligned to rank 2, as
    broadcasting does: a scalar is 1 x 1, a vector of length n is 1 x n. *)
Definition dims (a : ndarray) : nat * nat :=
  match a with
  | Scalar _ => (1, 1)
  | Arr1 v => (1, length v)
  | Arr2 c rows => (length rows, c)
  end.

(** [a[i, j]] as a number (0 outside the array). *)
Definition get (a : ndarray) (i j : nat) : Qc := default 0%Qc (entry a i j).

(** The index read along an axis of length [d] when it is broadcast. *)
Definition ix (d i : nat) : nat := if decide (d = 1) then 0 else i.

(** [a] has rank [k], aligned shape [r] x [c] and entries [F]. *)
Definition denotes (a : ndarray) (k r c : nat) (F : nat → nat → Qc) : Prop :=
  ndim a = k ∧ dims a = (r, c) ∧ wf a ∧
  ∀ i j, i < r → j < c → entry a i j = Some (F i j).

(** A method call that returns an array denoting [F], leaves the
    calculator as it was, and may add events to the trace. *)
Definition evals (self : PTCalculator) (m : M PTCalculator ndarray)
    (k r c : nat) (F : nat → nat → Qc) : Prop :=
  ∀ tr, ∃ tr' a, m self tr = (self, tr', Return a) ∧ denotes a k r c F.

(** ** The formulas of the specification, at one wavenumber and redshift *)

Local Open Scope Qc_scope.

(** NC x NC (section 4.2), from the values of the correlators and of the
    biases at that point. *)
Definition pgg_formula (Pd1d1 Pd1d2 Pd2d2 Pd1s2 Pd2s2 Ps2s2 s4
    b11 b21 bs1 b12 b22 bs2 : Qc) : Qc :=
  (b11 * b12) * Pd1d1
  + Q2Qc 0.5 * (b11 * b22 + b12 * b21) * Pd1d2
  + Q2Qc 0.25 * (b21 * b22) * (Pd2d2 - Q2Qc 2.0 * s4)
  + Q2Qc 0.5 * (b11 * bs2 + b12 * bs1) * Pd1s2
  + Q2Qc 0.25 * (b21 * bs2 + b22 * bs1) * (Pd2s2 - (Q2Qc 4.0 / Q2Qc 3.0) * s4)
  + Q2Qc 0.25 * (bs1 * bs2) * (Ps2s2 - (Q2Qc 8.0 / Q2Qc 9.0) * s4).

(** IA x Matter (section 4.2). *)
Definition pim_formula (Pd1d1 g4 c1 c2 cd a00e c00e a0e2 b0e2 : Qc) : Qc :=
  c1 * Pd1d1 + (g4 * cd) * (a00e + c00e) + (g4 * c2) * (a0e2 + b0e2).

Local Close Scope Qc_scope.

(** [pim_formula] at [(k, z)] of a grid [Pd1d1], vectors over the redshifts
    and correlators over the wavenumbers. *)
Definition pim_entry (Pd1d1 g4 c1 c2 cd a00e c00e a0e2 b0e2 : ndarray)
    (k z : nat) : Qc :=
  pim_formula (get Pd1d1 k z) (get g4 0 z) (get c1 0 z) (get c2 0 z) (get cd 0 z)
    (get a00e 0 k) (get c00e 0 k) (get a0e2 0 k) (get b0e2 0 k).

(** [self.dd_bias[i]], when the bundle is populated and has an item [i]. *)
Definition dd_bias_at (self : PTCalculator) (i : nat) : option ndarray :=
  dd_bias self ≫= λ l, l !! i.

(** [self.dd_bias[i][k]] as a number. *)
Definition dd_get (self : PTCalculator) (i k : nat) : Qc :=
  match dd_bias_at self i with
  | Some d => get d 0 k
  | None => 0%Qc
  end.

(** The [dd_bias] bundle is populated and its items 2 to 6 are vectors
    over the [Nk] wavenumbers. *)
Definition dd_bias_ready (self : PTCalculator) (Nk : nat) : Prop :=
  ∀ i, 2 ≤ i ≤ 6 → ∃ d, dd_bias_at self i = Some d ∧ shape d = [Nk].

(** The method call [m] on [self] returns an [Nk] x [Nz] grid with entries
    [F], and leaves the calculator as it was. *)
Definition returns_grid (m : M PTCalculator ndarray) (self : PTCalculator)
    (Nk Nz : nat) (F : nat → nat → Qc) : Prop :=
  ∀ tr, ∃ tr' p,
    m self tr = (self, tr', Return p) ∧ shape p = [Nk; Nz] ∧ wf p ∧
    ∀ k z, k < Nk → z < Nz → entry p k z = Some (F k z).

(** What [sub_lowk] removes from [pgg_formula]: the terms in [s4]. *)
Definition lowk_terms (b21 bs1 b22 bs2 s4 : Qc) : Qc :=
  (Q2Qc 0.25 * (b21 * b22) * (Q2Qc 2.0 * s4)
   + Q2Qc 0.25 * (b21 * bs2 + b22 * bs1) * ((Q2Qc 4.0 / Q2Qc 3.0) * s4)
   + Q2Qc 0.25 * (bs1 * bs2) * ((Q2Qc 8.0 / Q2Qc 9.0) * s4))%Qc.

(** The error of [update_pk]. *)
Definition wrong_shape : exn := ValueError "Input spectrum has wrong shape".

(** ** Traces *)

(** Whatever the state it starts from, [m] appends to the trace events
    that satisfy [P], and its outcome does not depend on the trace. *)
Definition emits {S A} (P : event → Prop) (m : M S A) : Prop :=
  ∀ s, ∃ s' ev r, Forall P ev ∧ ∀ tr, m s tr = (s', tr ++ ev, r).

(** An event that is neither a call of a tracer's bias function nor a
    read of a cached bundle. *)
Definition neither_bias_nor_read (e : event) : Prop :=
  match e with
  | EvBias _ _ | EvRead _ => False
  | _ => True
  end.

(** An event other than a warning. *)
Definition not_warning (e : event) : Prop :=
  match e with
  | EvWarn _ => False
  | _ => True
  end.

(** The predicate of a computation that adds nothing to the trace. *)
Definition no_event (e : event) : Prop := False.

(** Two runs end with the same object state and the same outcome (the
    same value returned or the same exception raised); their traces may
    differ. *)
Definition same_outcome {S A} (x y : S * list event * result A) : Prop :=
  x.1.1 = y.1.1 ∧ x.2 = y.2.

(** The power grid of a result, as fractions. *)
Definition rows_of (a : ndarray) : list (list Q) :=
  match a with
  | Scalar x => [[this x]]
  | Arr1 v => [this <$> v]
  | Arr2 _ rows => (λ row : list Qc, this <$> row) <$> rows
  end.

Definition rows_of_result (r : result ndarray) : option (list (list Q)) :=
  match r with
  | Return a => Some (rows_of a)
  | Raise _ => None
  end.

Definition grid_of (r : result Pk2D) : option (list (list Q)) :=
  match r with
  | Return out => Some (rows_of (pk2d_pk_arr out))
  | Raise _ => None
  end.

(** The bias functions called, in order: the tracer slot and the name. *)
Definition bias_calls (tr : list event) : list (nat * string) :=
  omap (λ e, match e with EvBias slot fn => Some (slot, fn) | _ => None end) tr.

(** ** Sample inputs

    A calculator over two wavenumbers, an engine that returns the
    spectrum it is given for every correlator and 1 for the low-k term, and
    a cosmology with unit power spectrum and unit growth. *)

Definition ones_like (a : ndarray) : ndarray :=
  match a with
  | Scalar _ => Scalar 1%Qc
  | Arr1 v => Arr1 ((λ _, 1%Qc) <$> v)
  | Arr2 c rows => Arr2 c ((λ row : list Qc, (λ _, 1%Qc) <$> row) <$> rows)
  end.

Definition sample_engine : FASTPT :=
  {| one_loop_dd_bias := λ pk _ _, Return [pk; pk; pk; pk; pk; pk; pk; Scalar 1%Qc];
     IA_ta := λ pk _ _, Return [pk; pk; pk; pk];
     IA_tt := λ pk _ _, Return [pk; pk];
     IA_mix := λ pk _ _, Return [pk; pk; pk; pk] |}.

Definition sample_ks : ndarray := Arr1 [Q2Qc 0.1; Q2Qc 1.0].

Definition sample_ptc (with_NC with_IA : bool) : PTCalculator :=
  {| with_NC := with_NC; with_IA := with_IA;
     P_window := None; C_window := Q2Qc 0.75;
     ks := sample_ks; pt := sample_engine;
     dd_bias := None; ia_ta := None; ia_tt := None; ia_mix := None |}.

Definition sample_rt : Runtime :=
  {| HAVE_FASTPT := true;
     fpt_FASTPT := λ _ _ _ _ _, Return sample_engine;
     np_logspace := λ _ _ n, Return (Arr1 (replicate (Z.to_nat n) 1%Qc));
     np_log := λ a, a |}.

Definition sample_cosmo : Cosmology :=
  {| get_pk_spline_a := (Arr1 [Q2Qc 1.0; Q2Qc 0.5], 0%Z);
     linear_matter_power := λ k _, Return (ones_like k);
     nonlin_matter_power := λ k _, Return (ones_like k);
     growth_factor := λ a, Return (ones_like a) |}.

(** A constant bias function [z ↦ b]. *)
Definition const_bias (b : Q) (z : ndarray) : ndarray :=
  match z with
  | Scalar _ => Scalar (Q2Qc b)
  | Arr1 v => Arr1 ((λ _, Q2Qc b) <$> v)
  | Arr2 c rows => Arr2 c ((λ row : list Qc, (λ _, Q2Qc b) <$> row) <$> rows)
  end.

(** Vectors over two redshifts (or two wavenumbers). *)
Definition zeros2 : ndarray := Arr1 [0%Qc; 0%Qc].
Definition ones2 : ndarray := Arr1 [1%Qc; 1%Qc].

(** A calculator whose [dd_bias] was set by hand to stale values, not by
    [update_pk]. *)
Definition vector_s4_ptc : PTCalculator :=
  set_dd_bias [zeros2; zeros2; zeros2; zeros2; zeros2; zeros2; zeros2;
               Arr1 [Q2Qc 1.0; Q2Qc 2.0]]
    (sample_ptc true false).

(** The calculator after [update_pk] with the flat spectrum [P(k) = 1],
    and a unit one-redshift matter power grid. *)
Definition flat_ptc : PTCalculator :=
  set_dd_bias [ones2; ones2; ones2; ones2; ones2; ones2; ones2; Scalar 1%Qc]
    (sample_ptc true false).

Definition unit_grid : ndarray := Arr2 1 [[1%Qc]; [1%Qc]].

(** One-redshift vectors: [b1 = 2], [b2 = bs = 0], [g4 = 1]. *)
Definition two1 : ndarray := Arr1 [Q2Qc 2.0].
Definition zero1 : ndarray := Arr1 [0%Qc].
Definition one1 : ndarray := Arr1 [1%Qc].

(** A calculator with populated intrinsic-alignment bundles. *)
Definition ia_ptc : PTCalculator :=
  set_ia_mix [ones2; ones2; ones2; ones2]
    (set_ia_ta [ones2; ones2; ones2; ones2] (sample_ptc false true)).

(** A number-counts tracer with [b1 = 2], [b2 = 0], [bs = 1], and an
    intrinsic-alignment tracer with unit biases. *)
Definition sample_nc : PTTracer :=
  PTNumberCountsTracer (const_bias 2.0) (const_bias 0.0) (const_bias 1.0).

Definition sample_ia : PTTracer :=
  PTIntrinsicAlignmentTracer (const_bias 1.0) (const_bias 1.0) (const_bias 1.0).

(** The matter power grid of [sample_cosmo] on [sample_ks] at two scale
    factors, and two-redshift bias vectors. *)
Definition ones_grid : ndarray := Arr2 2 [[1%Qc; 1%Qc]; [1%Qc; 1%Qc]].
Definition twos2 : ndarray := Arr1 [Q2Qc 2.0; Q2Qc 2.0].

(** ** The other formulas of the code, at one wavenumber and redshift *)

(** NC x Matter (lines 210-212). *)
Definition pgm_formula (Pd1d1 Pd1d2 Pd1s2 b1 b2 bs : Qc) : Qc :=
  (b1 * Pd1d1 + Q2Qc 0.5 * b2 * Pd1d2 + Q2Qc 0.5 * bs * Pd1s2)%Qc.

(** IA x IA, E mode (lines 335-340). *)
Definition pii_ee_formula (Pd1d1 g4 c11 c21 cd1 c12 c22 cd2
    a00e c00e a0e0e ae2e2 a0e2 b0e2 d0ee2 : Qc) : Qc :=
  ((c11 * c12 * g4) * Pd1d1
   + ((c11 * cd2 + c12 * cd1) * g4) * (a00e + c00e)
   + (cd1 * cd2 * g4) * a0e0e
   + (c21 * c22 * g4) * ae2e2
   + ((c11 * c22 + c21 * c12) * g4) * (a0e2 + b0e2)
   + ((cd1 * c22 + cd2 * c21) * g4) * d0ee2)%Qc.

(** IA x IA, B mode (lines 331-333). *)
Definition pii_bb_formula (g4 c21 cd1 c22 cd2 a0b0b ab2b2 d0bb2 : Qc) : Qc :=
  ((cd1 * cd2) * a0b0b
   + (cd1 * c22 * g4) * ab2b2
   + ((cd1 * c22 + cd1 * c21) * g4) * d0bb2)%Qc.

(** ** Read-only computations *)

(** Whatever the state it starts from, [m] leaves it as it was, appends to
    the trace events that satisfy [P], and its outcome does not depend on
    the trace. *)
Definition observes {S A} (P : event → Prop) (m : M S A) : Prop :=
  ∀ s, ∃ ev r, Forall P ev ∧ ∀ tr, m s tr = (s, tr ++ ev, r).

(** A read of the bundle [attr]. *)
Definition reads (attrs : list string) (e : event) : Prop :=
  ∃ attr, e = EvRead attr ∧ attr ∈ attrs.

(** A read of one of [attrs], or the warning of [get_pgi]. *)
Definition reads_or_warns (attrs : list string) (e : event) : Prop :=
  reads attrs e ∨ e = EvWarn pgi_warning.

(** A calculator with all three intrinsic-alignment bundles populated,
    and two-redshift vectors. *)
Definition threes2 : ndarray := Arr1 [Q2Qc 3.0; Q2Qc 3.0].

Definition ia_full_ptc : PTCalculator :=
  set_ia_mix [ones2; twos2; ones2; twos2]
    (set_ia_tt [twos2; ones2]
       (set_ia_ta [ones2; twos2; threes2; ones2] (sample_ptc false true))).

(** The three reads with which [get_pii] starts. *)
Definition ia_reads : list event :=
  [EvRead "ia_ta"; EvRead "ia_tt"; EvRead "ia_mix"].

(** The errors of a method called on a bundle that is still [None]. *)
Definition not_subscriptable : exn :=
  TypeError "'NoneType' object is not subscriptable".

Definition not_unpackable : exn :=
  TypeError "cannot unpack non-iterable NoneType object".

(** The list [to_do] that [__init__] hands to FAST-PT. *)
Definition to_do_list (with_NC with_IA : bool) : list string :=
  ["one_loop_dd"] ++ (if with_NC then ["dd_bias"] else [])
                  ++ (if with_IA then ["IA"] else []).

(** The calculator after a refresh in which FAST-PT returned [dd], [ta],
    [tq] and [mix]: a bundle is replaced when its flag is set. *)
Definition refreshed (self : PTCalculator) (dd ta tq mix : list ndarray)
    : PTCalculator :=
  {| with_NC := with_NC self; with_IA := with_IA self;
     P_window := P_window self; C_window := C_window self;
     ks := ks self; pt := pt self;
     dd_bias := if with_NC self then Some dd else dd_bias self;
     ia_ta := if with_IA self then Some ta else ia_ta self;
     ia_tt := if with_IA self then Some tq else ia_tt self;
     ia_mix := if with_IA self then Some mix else ia_mix self |}.

(** The FAST-PT calls of a refresh, in order. *)
Definition refresh_events (self : PTCalculator) : list event :=
  (if with_NC self then [EvEngine "one_loop_dd_bias"] else [])
  ++ (if with_IA self
      then [EvEngine "IA_ta"; EvEngine "IA_tt"; EvEngine "IA_mix"] else []).

(** What a refresh never touches: the flags, the windows, the grid and
    the FAST-PT object. *)
Definition same_setup (a b : PTCalculator) : Prop :=
  with_NC a = with_NC b ∧ with_IA a = with_IA b ∧
  P_window a = P_window b ∧ C_window a = C_window b ∧
  ks a = ks b ∧ pt a = pt b.

(** An engine whose tidal-torquing decomposition fails. *)
Definition failing_tt_engine : FASTPT :=
  {| one_loop_dd_bias := λ pk _ _, Return [pk; pk; pk; pk; pk; pk; pk; Scalar 1%Qc];
     IA_ta := λ pk _ _, Return [pk; pk; pk; pk];
     IA_tt := λ _ _ _, Raise (ValueError "IA_tt failed");
     IA_mix := λ pk _ _, Return [pk; pk; pk; pk] |}.

Definition failing_tt_ptc : PTCalculator :=
  {| with_NC := true; with_IA := true;
     P_window := None; C_window := Q2Qc 0.75;
     ks := sample_ks; pt := failing_tt_engine;
     dd_bias := None; ia_ta := None; ia_tt := None; ia_mix := None |}.

(** ** Inputs outside the table of combinations *)

(** A computation that leaves the state as it was, in every outcome. *)
Definition keeps {S A} (m : M S A) : Prop :=
  ∀ s tr, (m s tr).1.1 = s.

(** The three tracer types of the dispatch table. *)
Definition known_types : list string := ["NC"; "IA"; "M"].

(** Lines 401-451 of [get_pt_pk2d], up to the matter power grid: what is
    done before the dispatch on the tracer types, which starts from the
    scale factors, the redshifts, [ga4] and [Pd1d1] returned here. *)
Definition pt_setup (rt : Runtime) (cosmo : Cosmology) (tracer1 : PTTracer)
    (tracer2 : option PTTracer) (use_nonlin : bool) (a_arr : option ndarray)
    : M (option PTCalculator) (ndarray * ndarray * ndarray * ndarray) :=
  a_arr <- match a_arr with
           | None =>
               let '(a_arr, status) := get_pk_spline_a cosmo in
               check status ;;; ret a_arr
           | Some a_arr => ret a_arr
           end ;;
  let tracer2 := default tracer1 tracer2 in
  ptc_ <- gets id ;;
  match ptc_ with
  | None =>
      c <- PTCalculator_init rt true true (Q2Qc (-4)) (Q2Qc 2) (Q2Qc 20)
             (Q2Qc 1) (Q2Qc (-5)) (Q2Qc 3) None (Q2Qc 0.75) ;;
      modify (λ _, Some c)
  | Some _ => ret tt
  end ;;;
  (if type_is tracer1 "NC" || type_is tracer2 "NC" then
     ptc_with_NC <- on_ptc (gets with_NC) ;;
     if negb ptc_with_NC then
       raise (ValueError "Need number counts bias, but workspace didn't compute it")
     else ret tt
   else ret tt) ;;;
  (if type_is tracer1 "IA" || type_is tracer2 "IA" then
     ptc_with_IA <- on_ptc (gets with_IA) ;;
     if negb ptc_with_IA then
       raise (ValueError "Need intrinsic alignment bias, but workspace didn't compute it")
     else ret tt
   else ret tt) ;;;
  z_arr <- lit 1.0 /~ $a_arr -~ lit 1 ;;
  ptc_ks <- on_ptc (gets ks) ;;
  emit (EvCosmo "linear_matter_power") ;;;
  pk_lin_z0 <- lift (linear_matter_power cosmo ptc_ks (Scalar (Q2Qc 1.0))) ;;
  on_ptc (update_pk pk_lin_z0) ;;;
  emit (EvCosmo "growth_factor") ;;;
  ga <- lift (growth_factor cosmo a_arr) ;;
  let ga2 := np_power ga 2 in
  let ga4 := np_power ga2 2 in
  Pd1d1 <- (if use_nonlin then
              power_grid "nonlin_matter_power" (nonlin_matter_power cosmo) a_arr
            else
              power_grid "linear_matter_power" (linear_matter_power cosmo) a_arr) ;;
  ret (a_arr, z_arr, ga4, Pd1d1).

(** The exception of the [else] branches of the dispatch (lines 477-478,
    500-501, 518-519 and 521-523). *)
Definition combination_error (tracer1 tracer2 : PTTracer) : exn :=
  NotImplementedError
    ("Combination " ++ type tracer1 ++ "-" ++ type tracer2
     ++ " not implemented yet").

(** A tracer with one of the three types is an instance of the class of
    that type, with its bias functions. *)
Definition plain_tracer (t : PTTracer) : Prop :=
  match t with
  | PTTracerOther tag => tag ∉ known_types
  | _ => True
  end.

(** The bias calls on the first tracer with which the dispatch starts
    (lines 454-456 and 480-482). *)
Definition first_bias_calls (t : PTTracer) : list event :=
  match t with
  | PTNumberCountsTracer _ _ _ => [EvBias 1 "b1"; EvBias 1 "b2"; EvBias 1 "b2"]
  | PTIntrinsicAlignmentTracer _ _ _ =>
      [EvBias 1 "c1"; EvBias 1 "c2"; EvBias 1 "cdelta"]
  | _ => []
  end.

(** A tracer of another type, and a cosmology whose default scale-factor
    samples come with a non-zero status. *)
Definition other_tracer : PTTracer := PTTracerOther "X".

Definition bad_cosmo : Cosmology :=
  {| get_pk_spline_a := (Arr1 [Q2Qc 1.0; Q2Qc 0.5], 1%Z);
     linear_matter_power := λ k _, Return (ones_like k);
     nonlin_matter_power := λ k _, Return (ones_like k);
     growth_factor := λ a, Return (ones_like a) |}.

(** An event other than a call of [nonlin_matter_power]. *)
Definition not_nonlin (e : event) : Prop := e ≠ EvCosmo "nonlin_matter_power".

(** The matter power that [get_pt_pk2d] tabulates. *)
Definition matter_power (cosmo : Cosmology) (use_nonlin : bool)
    : ndarray → ndarray → result ndarray :=
  if use_nonlin then nonlin_matter_power cosmo else linear_matter_power cosmo.

(* ================================================================== *)
(** * Part II: properties                                              *)
(* ================================================================== *)

(** ** Broadcasting *)

Lemma bdim_spec m n r :
  bdim m n = Some r → (m = r ∨ m = 1) ∧ (n = r ∨ n = 1).
Proof.
  unfold bdim. repeat case_decide; intros [= <-]; subst; auto.
Qed.

Lemma bdim_same n : bdim n n = Some n.
Proof. unfold bdim. by rewrite decide_True. Qed.

Lemma bdim_1_l n : bdim 1 n = Some n.
Proof. unfold bdim. repeat case_decide; congruence. Qed.

Lemma bdim_1_r n : bdim n 1 = Some n.
Proof. unfold bdim. repeat case_decide; congruence. Qed.

Lemma ix_1 i : ix 1 i = 0.
Proof. reflexivity. Qed.

Lemma ix_lt d i : i < d → ix d i = i.
Proof. unfold ix. case_decide; lia. Qed.

Lemma ix_bound d r i : d = r ∨ d = 1 → i < r → ix d i < d.
Proof. unfold ix. case_decide; lia. Qed.

Lemma stretch_length {A} n (l : list A) :
  length l = n ∨ length l = 1 → length (stretch n l) = n.
Proof.
  destruct l as [|x [|y l]]; simpl; intros [H|H]; try lia.
  - by rewrite length_replicate.
  - by rewrite length_replicate.
Qed.

Lemma stretch_lookup {A} n (l : list A) i :
  length l = n ∨ length l = 1 → i < n →
  stretch n l !! i = l !! ix (length l) i.
Proof.
  destruct l as [|x [|y l]]; simpl; intros [H|H] Hi; try lia.
  - unfold ix; simpl. by apply lookup_replicate_2.
  - unfold ix; simpl. by apply lookup_replicate_2.
  - unfold ix. by rewrite decide_False by lia.
Qed.

Lemma bcast_row_spec (f : Qc → Qc → Qc) (c1 c2 c : nat) (u v : list Qc) :
  length u = c1 → length v = c2 → bdim c1 c2 = Some c →
  length (zip_with f (stretch c u) (stretch c v)) = c ∧
  ∀ j, j < c →
    zip_with f (stretch c u) (stretch c v) !! j
    = (x ← u !! ix c1 j; y ← v !! ix c2 j; Some (f x y)).
Proof.
  intros Hu Hv [H1 H2]%bdim_spec. split.
  - rewrite length_zip_with, !stretch_length by lia. lia.
  - intros j Hj. rewrite lookup_zip_with, !stretch_lookup by lia.
    by rewrite Hu, Hv.
Qed.

Lemma bcast2_spec (f : Qc → Qc → Qc) c1 r1 c2 r2 r c F1 F2 :
  denotes (Arr2 c1 r1) 2 (length r1) c1 F1 →
  denotes (Arr2 c2 r2) 2 (length r2) c2 F2 →
  bdim (length r1) (length r2) = Some r → bdim c1 c2 = Some c →
  ∃ x, bcast2 f c1 r1 c2 r2 = Some x ∧
       denotes x 2 r c
         (λ i j, f (F1 (ix (length r1) i) (ix c1 j))
                   (F2 (ix (length r2) i) (ix c2 j))).
Proof.
  intros (_ & _ & W1 & E1) (_ & _ & W2 & E2) Hr Hc.
  unfold bcast2. rewrite Hc, Hr. simpl. eexists; split; [done|].
  pose proof (bdim_spec _ _ _ Hr) as [Hr1 Hr2].
  pose proof (bdim_spec _ _ _ Hc) as [Hc1 Hc2].
  simpl in W1, W2.
  assert (L : ∀ i, i < r → ∃ u v,
             stretch r r1 !! i = Some u ∧ stretch r r2 !! i = Some v ∧
             r1 !! ix (length r1) i = Some u ∧ r2 !! ix (length r2) i = Some v ∧
             length u = c1 ∧ length v = c2).
  { intros i Hi.
    destruct (lookup_lt_is_Some_2 r1 (ix (length r1) i)) as [u Hu];
      [by eapply ix_bound|].
    destruct (lookup_lt_is_Some_2 r2 (ix (length r2) i)) as [v Hv];
      [by eapply ix_bound|].
    exists u, v. rewrite !stretch_lookup by (done || lia).
    repeat split; try done.
    - by eapply (Forall_lookup_1 _ _ _ _ W1).
    - by eapply (Forall_lookup_1 _ _ _ _ W2). }
  repeat split.
  - simpl. rewrite length_zip_with, !stretch_length by lia. f_equal; lia.
  - simpl. apply Forall_lookup_2. intros i row Hrow.
    assert (Hi : i < r).
    { apply lookup_lt_Some in Hrow.
      rewrite length_zip_with, !stretch_length in Hrow by lia. lia. }
    destruct (L i Hi) as (u & v & Su & Sv & _ & _ & Lu & Lv).
    rewrite lookup_zip_with, Su, Sv in Hrow. simpl in Hrow.
    injection Hrow as <-. by apply (bcast_row_spec f c1 c2 c u v).
  - intros i j Hi Hj. simpl.
    destruct (L i Hi) as (u & v & Su & Sv & Hu & Hv & Lu & Lv).
    rewrite lookup_zip_with, Su, Sv. simpl.
    destruct (bcast_row_spec f c1 c2 c u v Lu Lv Hc) as [_ ->]; [|done].
    specialize (E1 (ix (length r1) i) (ix c1 j)).
    specialize (E2 (ix (length r2) i) (ix c2 j)).
    simpl in E1, E2. rewrite Hu in E1. rewrite Hv in E2. simpl in E1, E2.
    rewrite E1, E2; try done; by eapply ix_bound.
Qed.

Lemma denotes_row_of_vector (u : list Qc) F :
  denotes (Arr1 u) 1 1 (length u) F →
  denotes (Arr2 (length u) [u]) 2 (length [u]) (length u) F.
Proof.
  intros (_ & _ & _ & E). repeat split.
  - simpl. by repeat constructor.
  - intros i j Hi Hj. simpl in Hi.
    assert (i = 0) as -> by lia. simpl. by apply (E 0 j).
Qed.

Lemma fmap_entry (g : Qc → Qc) (rows : list (list Qc)) i j :
  ((λ row : list Qc, g <$> row) <$> rows) !! i ≫= (λ r, r !! j)
  = g <$> (rows !! i ≫= λ r, r !! j).
Proof.
  rewrite list_lookup_fmap. destruct (rows !! i) as [row|]; simpl; [|done].
  by rewrite list_lookup_fmap.
Qed.

(** What an elementwise operator returns on two arrays whose aligned
    shapes broadcast to [r] x [c]. *)
Lemma binop_denotes (f : Qc → Qc → Qc) a b k1 r1 c1 F1 k2 r2 c2 F2 r c :
  denotes a k1 r1 c1 F1 → denotes b k2 r2 c2 F2 →
  bdim r1 r2 = Some r → bdim c1 c2 = Some c →
  ∃ x, binop f a b = Return x ∧
       denotes x (k1 `max` k2) r c
         (λ i j, f (F1 (ix r1 i) (ix c1 j)) (F2 (ix r2 i) (ix c2 j))).
Proof.
  intros D1 D2 Hr Hc.
  pose proof D1 as (K1 & S1 & W1 & E1). pose proof D2 as (K2 & S2 & W2 & E2).
  destruct a as [x|u|ca ra], b as [y|v|cb rb]; simpl in S1, S2, K1, K2;
    injection S1 as <- <-; injection S2 as <- <-; subst k1 k2; simpl.
  - (* scalar, scalar *)
    injection Hr as <-; injection Hc as <-.
    eexists; split; [done|]. repeat split. intros i j _ _. simpl.
    specialize (E1 0 0). specialize (E2 0 0). simpl in E1, E2.
    injection (E1 ltac:(lia) ltac:(lia)) as ->.
    injection (E2 ltac:(lia) ltac:(lia)) as ->. done.
  - (* scalar, vector *)
    injection Hr as <-. rewrite bdim_1_l in Hc. injection Hc as <-.
    eexists; split; [done|]. repeat split.
    + simpl. by rewrite length_fmap.
    + intros i j Hi Hj. simpl. rewrite list_lookup_fmap.
      rewrite (ix_lt _ j Hj). simpl in E2. rewrite (E2 0 j) by lia.
      specialize (E1 0 0). simpl in E1.
      injection (E1 ltac:(lia) ltac:(lia)) as ->. done.
  - (* scalar, grid *)
    rewrite bdim_1_l in Hr, Hc. injection Hr as <-; injection Hc as <-.
    eexists; split; [done|]. repeat split.
    + simpl. by rewrite length_fmap.
    + simpl in *. apply Forall_fmap. eapply Forall_impl; [|exact W2].
      intros row Hrow. simpl. by rewrite length_fmap.
    + intros i j Hi Hj. simpl. rewrite fmap_entry.
      rewrite (ix_lt _ i Hi), (ix_lt _ j Hj).
      simpl in E2. rewrite (E2 i j) by lia.
      specialize (E1 0 0). simpl in E1.
      injection (E1 ltac:(lia) ltac:(lia)) as ->. done.
  - (* vector, scalar *)
    injection Hr as <-. rewrite bdim_1_r in Hc. injection Hc as <-.
    eexists; split; [done|]. repeat split.
    + simpl. by rewrite length_fmap.
    + intros i j Hi Hj. simpl. rewrite list_lookup_fmap.
      rewrite (ix_lt _ j Hj). simpl in E1. rewrite (E1 0 j) by lia.
      specialize (E2 0 0). simpl in E2.
      injection (E2 ltac:(lia) ltac:(lia)) as ->. done.
  - (* vector, vector *)
    injection Hr as <-.
    destruct (bcast_row_spec f _ _ _ u v eq_refl eq_refl Hc) as [L E].
    unfold bcast1. rewrite Hc. simpl.
    eexists; split; [done|]. repeat split.
    + simpl. by rewrite L.
    + intros i j Hi Hj. simpl. rewrite E by done.
      pose proof (bdim_spec _ _ _ Hc) as [Hc1 Hc2].
      simpl in E1, E2.
      rewrite (E1 0 (ix (length u) j)), (E2 0 (ix (length v) j));
        try lia; try by eapply ix_bound.
      done.
  - (* vector, grid *)
    apply denotes_row_of_vector in D1.
    destruct (bcast2_spec f _ _ _ _ _ _ _ _ D1 D2 Hr Hc) as (x & -> & Dx).
    exists x. split; [done|]. exact Dx.
  - (* grid, scalar *)
    rewrite bdim_1_r in Hr, Hc. injection Hr as <-; injection Hc as <-.
    eexists; split; [done|]. repeat split.
    + simpl. by rewrite length_fmap.
    + simpl in *. apply Forall_fmap. eapply Forall_impl; [|exact W1].
      intros row Hrow. simpl. by rewrite length_fmap.
    + intros i j Hi Hj. simpl. rewrite fmap_entry.
      rewrite (ix_lt _ i Hi), (ix_lt _ j Hj).
      simpl in E1. rewrite (E1 i j) by lia.
      specialize (E2 0 0). simpl in E2.
      injection (E2 ltac:(lia) ltac:(lia)) as ->. done.
  - (* grid, vector *)
    apply denotes_row_of_vector in D2.
    destruct (bcast2_spec f _ _ _ _ _ _ _ _ D1 D2 Hr Hc) as (x & -> & Dx).
    exists x. split; [done|]. exact Dx.
  - (* grid, grid *)
    destruct (bcast2_spec f _ _ _ _ _ _ _ _ D1 D2 Hr Hc) as (x & -> & Dx).
    exists x. split; [done|]. exact Dx.
Qed.

(** A row times a column is their outer product; vectors of lengths 3 and
    2 do not broadcast. *)
Example binop_outer_product :
  rows_of_result
    (binop Qcmult (Arr2 2 [[Q2Qc 1.0; Q2Qc 2.0]]) (Arr2 1 [[Q2Qc 3.0]; [Q2Qc 5.0]]))
  = Some [[3; 6]; [5; 10]]%Q.
Proof. vm_compute. reflexivity. Qed.

Example binop_shape_mismatch :
  binop Qcmult (Arr1 [1%Qc; 1%Qc; 1%Qc]) (Arr1 [1%Qc; 1%Qc]) = broadcast_error.
Proof. reflexivity. Qed.

Example transpose_grid :
  rows_of (transpose (Arr2 2 [[Q2Qc 1.0; Q2Qc 2.0]; [Q2Qc 3.0; Q2Qc 4.0];
                              [Q2Qc 5.0; Q2Qc 6.0]]))
  = [[1; 3; 5]; [2; 4; 6]]%Q.
Proof. vm_compute. reflexivity. Qed.

(** ** Denotations of arrays and of array expressions *)

Lemma denotes_ext a k r c F G :
  denotes a k r c F → (∀ i j, i < r → j < c → F i j = G i j) →
  denotes a k r c G.
Proof.
  intros (K & S & W & E) H. repeat split; try done.
  intros i j Hi Hj. rewrite E by done. f_equal. by apply H.
Qed.

Lemma denotes_scalar x : denotes (Scalar x) 0 1 1 (λ _ _, x).
Proof. by repeat split. Qed.

Lemma denotes_vector a n : shape a = [n] → denotes a 1 1 n (get a).
Proof.
  destruct a as [x|v|c rows]; intros [= <-]. repeat split.
  intros i j _ Hj. unfold get. simpl.
  destruct (lookup_lt_is_Some_2 v j Hj) as [y ->]. done.
Qed.

Lemma denotes_grid a r c : shape a = [r; c] → wf a → denotes a 2 r c (get a).
Proof.
  destruct a as [x|v|c' rows]; intros [= <- <-] W. repeat split; [done|].
  intros i j Hi Hj. unfold get. simpl. simpl in W.
  destruct (lookup_lt_is_Some_2 rows i Hi) as [row Hrow]. rewrite Hrow. simpl.
  pose proof (Forall_lookup_1 _ _ _ _ W Hrow) as L. simpl in L.
  destruct (lookup_lt_is_Some_2 row j) as [y ->]; [lia|]. done.
Qed.

Lemma denotes_shape2 a r c F : denotes a 2 r c F → shape a = [r; c] ∧ wf a.
Proof.
  intros (K & S & W & _). destruct a as [x|v|c' rows]; try discriminate.
  simpl in S. injection S as <- <-. done.
Qed.

Lemma evals_ext self m k r c F G :
  evals self m k r c F → (∀ i j, i < r → j < c → F i j = G i j) →
  evals self m k r c G.
Proof.
  intros E H tr. destruct (E tr) as (tr' & a & Hm & D).
  exists tr', a. split; [done|]. by eapply denotes_ext.
Qed.

Lemma evals_ret self a k r c F : denotes a k r c F → evals self ($a) k r c F.
Proof. intros D tr. by exists tr, a. Qed.

Lemma evals_lit self q : evals self (lit q) 0 1 1 (λ _ _, Q2Qc q).
Proof. intros tr. exists tr, (Scalar (Q2Qc q)). split; [done|]. apply denotes_scalar. Qed.

Lemma evals_bind self m (f : ndarray → M PTCalculator ndarray) k r c F k' r' c' G :
  evals self m k r c F →
  (∀ a, denotes a k r c F → evals self (f a) k' r' c' G) →
  evals self (bind m f) k' r' c' G.
Proof.
  intros E H tr. destruct (E tr) as (tr1 & a & Hm & D).
  destruct (H a D tr1) as (tr2 & b & Hf & Db).
  exists tr2, b. split; [|done]. unfold bind. by rewrite Hm.
Qed.

Lemma evals_op self f ma mb k1 r1 c1 F1 k2 r2 c2 F2 k r c :
  evals self ma k1 r1 c1 F1 → evals self mb k2 r2 c2 F2 →
  bdim r1 r2 = Some r → bdim c1 c2 = Some c → k = k1 `max` k2 →
  evals self (arr_op f ma mb) k r c
    (λ i j, f (F1 (ix r1 i) (ix c1 j)) (F2 (ix r2 i) (ix c2 j))).
Proof.
  intros Ea Eb Hr Hc -> tr.
  destruct (Ea tr) as (tr1 & a & Ha & Da).
  destruct (Eb tr1) as (tr2 & b & Hb & Db).
  destruct (binop_denotes f a b _ _ _ _ _ _ _ _ _ _ Da Db Hr Hc) as (x & Hx & Dx).
  exists tr2, x. split; [|done].
  unfold arr_op, bind, lift. by rewrite Ha, Hb, Hx.
Qed.

Lemma evals_row self ma k r c F :
  evals self ma k r c F → k = 1 → evals self (row ma) 2 1 c F.
Proof.
  intros E -> tr. destruct (E tr) as (tr1 & a & Ha & (K & S & W & En)).
  destruct a as [x|v|c' rows]; try discriminate.
  simpl in S. injection S as <- <-.
  exists tr1, (Arr2 (length v) [v]). split.
  - unfold row, bind, lift. by rewrite Ha.
  - repeat split.
    + simpl. by repeat constructor.
    + intros i j Hi Hj. assert (i = 0) as -> by lia. simpl. by apply (En 0 j).
Qed.

Lemma evals_col self ma k r c F :
  evals self ma k r c F → k = 1 → evals self (col ma) 2 c 1 (λ i _, F 0 i).
Proof.
  intros E -> tr. destruct (E tr) as (tr1 & a & Ha & (K & S & W & En)).
  destruct a as [x|v|c' rows]; try discriminate.
  simpl in S. injection S as <- <-.
  exists tr1, (Arr2 1 ((λ x, [x]) <$> v)). split.
  - unfold col, bind, lift. by rewrite Ha.
  - repeat split.
    + simpl. by rewrite length_fmap.
    + simpl. apply Forall_fmap. by apply Forall_true.
    + intros i j Hi Hj. assert (j = 0) as -> by lia. simpl.
      rewrite list_lookup_fmap. specialize (En 0 i). simpl in En.
      rewrite En by lia. done.
Qed.

Lemma evals_dd_bias self i l a k r c F :
  dd_bias self = Some l → l !! i = Some a → denotes a k r c F →
  evals self (self_dd_bias i) k r c F.
Proof.
  intros Hl Hi D tr. exists (tr ++ [EvRead "dd_bias"]), a. split; [|done].
  unfold self_dd_bias, read_bundle, bind, emit, gets, lift, subscript.
  by rewrite Hl, Hi.
Qed.

Ltac bd := first [apply bdim_same | apply bdim_1_l | apply bdim_1_r].

Ltac ev :=
  lazymatch goal with
  | |- evals _ (ret _) _ _ _ _ => eapply evals_ret; eassumption
  | |- evals _ (lit _) _ _ _ _ => apply evals_lit
  | |- evals _ (row _) _ _ _ _ => eapply evals_row; [ev | reflexivity]
  | |- evals _ (col _) _ _ _ _ => eapply evals_col; [ev | reflexivity]
  | |- evals _ (arr_op _ _ _) _ _ _ _ =>
      eapply evals_op; [ev | ev | bd | bd | reflexivity]
  | |- evals _ (self_dd_bias _) _ _ _ _ =>
      eapply evals_dd_bias; [eassumption | eassumption | eassumption]
  | |- evals _ (bind _ _) _ _ _ _ =>
      eapply evals_bind; [ev | intros ? ?; ev]
  end.

(** ** Traces are only appended to *)

Section Emits.
Context {S : Type} (P : event → Prop).

Lemma emits_ret {A} (a : A) : emits (S:=S) P (ret a).
Proof. intros s. exists s, [], (Return a). split; [done|]. intros tr. by rewrite app_nil_r. Qed.

Lemma emits_raise {A} e : emits (S:=S) (A:=A) P (raise e).
Proof. intros s. exists s, [], (Raise e). split; [done|]. intros tr. by rewrite app_nil_r. Qed.

Lemma emits_lift {A} (r : result A) : emits (S:=S) P (lift r).
Proof. intros s. exists s, [], r. split; [done|]. intros tr. by rewrite app_nil_r. Qed.

Lemma emits_gets {A} (f : S → A) : emits P (gets f).
Proof. intros s. exists s, [], (Return (f s)). split; [done|]. intros tr. by rewrite app_nil_r. Qed.

Lemma emits_modify (f : S → S) : emits P (modify f).
Proof. intros s. exists (f s), [], (Return tt). split; [done|]. intros tr. by rewrite app_nil_r. Qed.

Lemma emits_emit e : P e → emits (S:=S) P (emit e).
Proof. intros He s. exists s, [e], (Return tt). split; [by repeat constructor|done]. Qed.

Lemma emits_bind {A B} (m : M S A) (f : A → M S B) :
  emits P m → (∀ a, emits P (f a)) → emits P (bind m f).
Proof.
  intros Hm Hf s. destruct (Hm s) as (s1 & ev1 & r1 & P1 & E1).
  destruct r1 as [e|a].
  - exists s1, ev1, (Raise e). split; [done|]. intros tr. unfold bind. by rewrite E1.
  - destruct (Hf a s1) as (s2 & ev2 & r2 & P2 & E2).
    exists s2, (ev1 ++ ev2), r2. split; [by apply Forall_app|].
    intros tr. unfold bind. by rewrite E1, E2, app_assoc.
Qed.

Lemma emits_mapM {A B} (f : A → M S B) l :
  (∀ x, emits P (f x)) → emits P (mapM f l).
Proof.
  intros Hf. induction l as [|x l IH]; simpl.
  - apply emits_ret.
  - apply emits_bind; [done|]. intros y.
    apply emits_bind; [done|]. intros ys. apply emits_ret.
Qed.

Lemma emits_arr_op f (ma mb : M S ndarray) :
  emits P ma → emits P mb → emits P (arr_op f ma mb).
Proof.
  intros Ha Hb. unfold arr_op. apply emits_bind; [done|]. intros a.
  apply emits_bind; [done|]. intros b. apply emits_lift.
Qed.

Lemma emits_row (ma : M S ndarray) : emits P ma → emits P (row ma).
Proof. intros Ha. unfold row. apply emits_bind; [done|]. intros a. apply emits_lift. Qed.

Lemma emits_col (ma : M S ndarray) : emits P ma → emits P (col ma).
Proof. intros Ha. unfold col. apply emits_bind; [done|]. intros a. apply emits_lift. Qed.

Lemma emits_check status : emits (S:=S) P (check status).
Proof. unfold check. case_decide; [apply emits_ret|apply emits_raise]. Qed.

Lemma emits_call_bias slot t name z :
  P (EvBias slot name) → emits (S:=S) P (call_bias slot t name z).
Proof.
  intros HP. unfold call_bias. destruct (bias_fn t name); [|apply emits_raise].
  apply emits_bind; [by apply emits_emit|]. intros _. apply emits_ret.
Qed.
End Emits.

Lemma emits_mono {S A} (P Q : event → Prop) (m : M S A) :
  (∀ e, P e → Q e) → emits P m → emits Q m.
Proof.
  intros H Hm s. destruct (Hm s) as (s' & ev & r & HP & E).
  exists s', ev, r. split; [|done]. eapply Forall_impl; [|done]. done.
Qed.

Lemma emits_on_ptc {A} P (m : M PTCalculator A) : emits P m → emits P (on_ptc m).
Proof.
  intros Hm [c|].
  - destruct (Hm c) as (c' & ev & r & HP & E).
    exists (Some c'), ev, r. split; [done|]. intros tr. unfold on_ptc. by rewrite E.
  - eexists None, [], _. split; [done|]. intros tr. unfold on_ptc. by rewrite app_nil_r.
Qed.

Ltac em_step :=
  lazymatch goal with
  | |- emits _ (ret _) => apply emits_ret
  | |- emits _ (raise _) => apply emits_raise
  | |- emits _ (not_implemented _ _) => apply emits_raise
  | |- emits _ (lift _) => apply emits_lift
  | |- emits _ (lit _) => apply emits_ret
  | |- emits _ (gets _) => apply emits_gets
  | |- emits _ (modify _) => apply emits_modify
  | |- emits _ (emit _) => apply emits_emit; first [exact I | auto]
  | |- emits _ (bind _ _) => apply emits_bind; [|intros ?]
  | |- emits _ (mapM _ _) => apply emits_mapM; intros ?
  | |- emits _ (arr_op _ _ _) => apply emits_arr_op
  | |- emits _ (row _) => apply emits_row
  | |- emits _ (col _) => apply emits_col
  | |- emits _ (check _) => apply emits_check
  | |- emits _ (call_bias _ _ _ _) => apply emits_call_bias; first [exact I | auto]
  | |- emits _ (on_ptc _) => apply emits_on_ptc
  | |- emits _ (if ?b then _ else _) => destruct b
  | |- emits _ (let '(_, _) := ?x in _) => destruct x
  | |- emits _ (match ?x with None => _ | Some _ => _ end) => destruct x
  end.

Ltac em := repeat em_step.

Section EmitsMethods.
Context (P : event → Prop).

Lemma emits_update_pk pk : (∀ fn, P (EvEngine fn)) → emits P (update_pk pk).
Proof. intros HP. unfold update_pk, _get_dd_bias, _get_ia_bias. em. Qed.

Lemma emits_init {S} rt nc ia lmin lmax nk pad lo hi pw cw :
  (∀ fn, P (EvEngine fn)) →
  emits (S:=S) P (PTCalculator_init rt nc ia lmin lmax nk pad lo hi pw cw).
Proof. intros HP. unfold PTCalculator_init. em. Qed.

Lemma emits_power_grid fn power a_arr :
  (∀ fn, P (EvCosmo fn)) → emits P (power_grid fn power a_arr).
Proof. intros HP. unfold power_grid. em. Qed.

Lemma emits_self_dd_bias i : (∀ a, P (EvRead a)) → emits P (self_dd_bias i).
Proof. intros HP. unfold self_dd_bias, read_bundle. em. Qed.

Lemma emits_get_pgg Pd1d1 g4 b11 b21 bs1 b12 b22 bs2 sub_lowk :
  (∀ a, P (EvRead a)) →
  emits P (get_pgg Pd1d1 g4 b11 b21 bs1 b12 b22 bs2 sub_lowk).
Proof.
  intros HP. pose proof (emits_self_dd_bias) as Hdd. unfold get_pgg.
  repeat first [apply Hdd; exact HP | em_step].
Qed.

Lemma emits_get_pgm Pd1d1 g4 b1 b2 bs :
  (∀ a, P (EvRead a)) → emits P (get_pgm Pd1d1 g4 b1 b2 bs).
Proof.
  intros HP. pose proof (emits_self_dd_bias) as Hdd. unfold get_pgm.
  repeat first [apply Hdd; exact HP | em_step].
Qed.

Lemma emits_get_pim Pd1d1 g4 c1 c2 cd :
  (∀ a, P (EvRead a)) → emits P (get_pim Pd1d1 g4 c1 c2 cd).
Proof.
  intros HP. unfold get_pim, read_bundle.
  repeat first [em_step | match goal with u : (_ * _)%type |- _ => destruct u end].
Qed.

Lemma emits_get_pgi Pd1d1 g4 b1 b2 bs c1 c2 cd :
  (∀ a, P (EvRead a)) → (∀ w, P (EvWarn w)) →
  emits P (get_pgi Pd1d1 g4 b1 b2 bs c1 c2 cd).
Proof.
  intros HP HW. unfold get_pgi, read_bundle.
  repeat first [em_step | match goal with u : (_ * _)%type |- _ => destruct u end].
Qed.

Lemma emits_get_pii Pd1d1 g4 c11 c21 cd1 c12 c22 cd2 bb :
  (∀ a, P (EvRead a)) → emits P (get_pii Pd1d1 g4 c11 c21 cd1 c12 c22 cd2 bb).
Proof.
  intros HP. unfold get_pii, read_bundle.
  repeat first [em_step | match goal with u : (_ * _)%type |- _ => destruct u end].
Qed.
End EmitsMethods.

(** ** [update_pk] *)

(** C3.  When the shape of [pk] differs from the shape of [self.ks],
    [update_pk] raises the shape error, and the calculator it leaves behind
    is the one it was given: [dd_bias], [ia_ta], [ia_tt] and [ia_mix] are
    unchanged, and nothing was asked of FAST-PT. *)
Theorem update_pk_wrong_shape (self : PTCalculator) (pk : ndarray) (tr : list event) :
  shape pk ≠ shape (ks self) →
  ∃ self',
    update_pk pk self tr = (self', tr, Raise wrong_shape) ∧
    self' = self ∧
    dd_bias self' = dd_bias self ∧ ia_ta self' = ia_ta self ∧
    ia_tt self' = ia_tt self ∧ ia_mix self' = ia_mix self.
Proof.
  intros H. exists self. split; [|done].
  unfold update_pk, bind, gets. by rewrite decide_True.
Qed.

Lemma update_pk_wrong_shape_witness :
  ∃ self',
    update_pk (Arr1 [1%Qc]) (set_dd_bias [sample_ks] (sample_ptc true true)) []
    = (self', [], Raise wrong_shape) ∧
    self' = set_dd_bias [sample_ks] (sample_ptc true true) ∧
    dd_bias self' = Some [sample_ks] ∧ ia_ta self' = None ∧
    ia_tt self' = None ∧ ia_mix self' = None.
Proof.
  apply (update_pk_wrong_shape
           (set_dd_bias [sample_ks] (sample_ptc true true)) (Arr1 [1%Qc]) []).
  simpl. discriminate.
Defined.

(** C10.  The shape check does not depend on the flags: with [with_NC] and
    [with_IA] both false a spectrum of the wrong shape is still refused;
    and one of the right shape is accepted without touching the calculator
    or calling FAST-PT. *)
Theorem update_pk_no_flags (self : PTCalculator) (pk : ndarray) (tr : list event) :
  with_NC self = false → with_IA self = false →
  (shape pk ≠ shape (ks self) →
     update_pk pk self tr = (self, tr, Raise wrong_shape)) ∧
  (shape pk = shape (ks self) →
     update_pk pk self tr = (self, tr, Return tt)).
Proof.
  intros HNC HIA. unfold update_pk, bind, gets, ret. split; intros H.
  - by rewrite decide_True.
  - rewrite decide_False by (by intros ?). by rewrite HNC, HIA.
Qed.

Lemma update_pk_no_flags_witness :
  update_pk (Arr1 [1%Qc]) (sample_ptc false false) []
  = (sample_ptc false false, [], Raise wrong_shape) ∧
  update_pk (Arr1 [1%Qc; 1%Qc]) (sample_ptc false false) []
  = (sample_ptc false false, [], Return tt).
Proof.
  split.
  - apply (update_pk_no_flags (sample_ptc false false) (Arr1 [1%Qc]) []);
      [reflexivity | reflexivity | simpl; discriminate].
  - apply (update_pk_no_flags (sample_ptc false false) (Arr1 [1%Qc; 1%Qc]) []);
      reflexivity.
Defined.

(** ** [get_pgg] *)

Lemma Q2Qc_zero : Q2Qc 0.0 = 0%Qc.
Proof. apply Qc_is_canon. reflexivity. Qed.

Lemma evals_returns_grid self m Nk Nz F :
  evals self m 2 Nk Nz F → returns_grid m self Nk Nz F.
Proof.
  intros E tr. destruct (E tr) as (tr' & p & Hm & D).
  exists tr', p. split; [done|].
  destruct (denotes_shape2 _ _ _ _ D) as [Hs Hw].
  destruct D as (_ & _ & _ & He). done.
Qed.

Lemma dd_bias_at_inv self i d :
  dd_bias_at self i = Some d → ∃ l, dd_bias self = Some l ∧ l !! i = Some d.
Proof.
  unfold dd_bias_at. destruct (dd_bias self) as [l|]; simpl; [|done]. eauto.
Qed.

Ltac ix_norm Hk Hz :=
  rewrite ?ix_1; repeat rewrite (ix_lt _ _ Hk); repeat rewrite (ix_lt _ _ Hz).

(** The grid that [get_pgg] returns, as a denotation. *)
Lemma get_pgg_evals self Pd1d1 g4 b11 b21 bs1 b12 b22 bs2 sub_lowk Nk Nz sigma4 :
  shape Pd1d1 = [Nk; Nz] → wf Pd1d1 → shape g4 = [Nz] →
  shape b11 = [Nz] → shape b21 = [Nz] → shape bs1 = [Nz] →
  shape b12 = [Nz] → shape b22 = [Nz] → shape bs2 = [Nz] →
  dd_bias_ready self Nk →
  (sub_lowk = true → dd_bias_at self 7 = Some (Scalar sigma4)) →
  evals self (get_pgg Pd1d1 g4 b11 b21 bs1 b12 b22 bs2 sub_lowk) 2 Nk Nz
    (λ k z, pgg_formula (get Pd1d1 k z)
              (get g4 0 z * dd_get self 2 k) (get g4 0 z * dd_get self 3 k)
              (get g4 0 z * dd_get self 4 k) (get g4 0 z * dd_get self 5 k)
              (get g4 0 z * dd_get self 6 k)
              (if sub_lowk then get g4 0 z * sigma4 else 0)
              (get b11 0 z) (get b21 0 z) (get bs1 0 z)
              (get b12 0 z) (get b22 0 z) (get bs2 0 z))%Qc.
Proof.
  intros HP WP Hg H11 H21 Hs1 H12 H22 Hs2 Hdd H7.
  apply denotes_grid in HP; [|done].
  apply denotes_vector in Hg, H11, H21, Hs1, H12, H22, Hs2.
  destruct (Hdd 2 ltac:(lia)) as (d2 & A2 & S2).
  destruct (Hdd 3 ltac:(lia)) as (d3 & A3 & S3).
  destruct (Hdd 4 ltac:(lia)) as (d4 & A4 & S4).
  destruct (Hdd 5 ltac:(lia)) as (d5 & A5 & S5).
  destruct (Hdd 6 ltac:(lia)) as (d6 & A6 & S6).
  apply denotes_vector in S2, S3, S4, S5, S6.
  unfold dd_get. rewrite A2, A3, A4, A5, A6.
  destruct (dd_bias_at_inv _ _ _ A2) as (l & Hl & L2).
  unfold dd_bias_at in A3, A4, A5, A6, H7. rewrite Hl in A3, A4, A5, A6, H7.
  simpl in A3, A4, A5, A6, H7.
  unfold get_pgg. destruct sub_lowk.
  - specialize (H7 eq_refl). pose proof (denotes_scalar sigma4) as D7.
    eapply evals_ext; [ev|].
    intros k z Hk Hz. cbv beta. ix_norm Hk Hz. unfold pgg_formula. ring.
  - eapply evals_ext; [ev|].
    intros k z Hk Hz. cbv beta. ix_norm Hk Hz. unfold pgg_formula.
    rewrite Q2Qc_zero. ring.
Qed.

(** C2.  On an [Nk] x [Nz] grid [Pd1d1], vectors [g4] and biases of
    length [Nz] and a populated [dd_bias] as FAST-PT returns it, with items
    2 to 6 vectors of length [Nk] and item 7 a number, [get_pgg] returns the
    [Nk] x [Nz] grid of [pgg_formula], where [Pd1d2] to [Ps2s2] are the
    outer products of [g4] with [dd_bias[2]] to [dd_bias[6]], and where [s4]
    is the outer broadcast of [g4] with [dd_bias[7]] when [sub_lowk] is
    true, [g4[z] * dd_bias[7]] at every [(k, z)], and 0 otherwise. *)
Theorem get_pgg_grid self Pd1d1 g4 b11 b21 bs1 b12 b22 bs2 sub_lowk Nk Nz :
  shape Pd1d1 = [Nk; Nz] → wf Pd1d1 → shape g4 = [Nz] →
  shape b11 = [Nz] → shape b21 = [Nz] → shape bs1 = [Nz] →
  shape b12 = [Nz] → shape b22 = [Nz] → shape bs2 = [Nz] →
  dd_bias_ready self Nk →
  (sub_lowk = true → ∃ sigma4, dd_bias_at self 7 = Some (Scalar sigma4)) →
  returns_grid (get_pgg Pd1d1 g4 b11 b21 bs1 b12 b22 bs2 sub_lowk) self Nk Nz
    (λ k z, pgg_formula (get Pd1d1 k z)
              (get g4 0 z * dd_get self 2 k) (get g4 0 z * dd_get self 3 k)
              (get g4 0 z * dd_get self 4 k) (get g4 0 z * dd_get self 5 k)
              (get g4 0 z * dd_get self 6 k)
              (if sub_lowk then get g4 0 z * dd_get self 7 k else 0)
              (get b11 0 z) (get b21 0 z) (get bs1 0 z)
              (get b12 0 z) (get b22 0 z) (get bs2 0 z))%Qc.
Proof.
  intros HP WP Hg H11 H21 Hs1 H12 H22 Hs2 Hready H7.
  assert (S7 : ∃ sigma4, sub_lowk = true → dd_bias_at self 7 = Some (Scalar sigma4)).
  { destruct sub_lowk; [|by exists 0%Qc].
    destruct (H7 eq_refl) as [sigma4 E]. by exists sigma4. }
  destruct S7 as [sigma4 S7].
  pose proof (evals_returns_grid _ _ _ _ _
                (get_pgg_evals self Pd1d1 g4 b11 b21 bs1 b12 b22 bs2 sub_lowk
                   Nk Nz sigma4 HP WP Hg H11 H21 Hs1 H12 H22 Hs2 Hready S7)) as R.
  intros tr. destruct (R tr) as (tr' & p & Hrun & Hsh & Hwf & He).
  exists tr', p. split; [done|]. split; [done|]. split; [done|].
  intros k z Hk Hz. rewrite (He k z Hk Hz). do 2 f_equal.
  destruct sub_lowk; [|done].
  unfold dd_get. by rewrite (S7 eq_refl).
Qed.

Lemma flat_ptc_ready : dd_bias_ready flat_ptc 2.
Proof.
  intros i Hi.
  assert (i = 2 ∨ i = 3 ∨ i = 4 ∨ i = 5 ∨ i = 6) as [-> | [-> | [-> | [-> | ->]]]] by lia;
    by exists ones2.
Qed.

Lemma get_pgg_grid_witness :
  returns_grid (get_pgg unit_grid one1 two1 zero1 zero1 two1 zero1 zero1 true)
    flat_ptc 2 1
    (λ k z, pgg_formula (get unit_grid k z)
              (get one1 0 z * dd_get flat_ptc 2 k) (get one1 0 z * dd_get flat_ptc 3 k)
              (get one1 0 z * dd_get flat_ptc 4 k) (get one1 0 z * dd_get flat_ptc 5 k)
              (get one1 0 z * dd_get flat_ptc 6 k)
              (get one1 0 z * dd_get flat_ptc 7 k)
              (get two1 0 z) (get zero1 0 z) (get zero1 0 z)
              (get two1 0 z) (get zero1 0 z) (get zero1 0 z))%Qc.
Proof.
  apply (get_pgg_grid flat_ptc unit_grid one1 two1 zero1 zero1 two1 zero1 zero1
           true 2 1); try reflexivity.
  - simpl. by repeat constructor.
  - apply flat_ptc_ready.
  - intros _. by exists 1%Qc.
Defined.

(** C6.  On a grid [Pd1d1], vectors [g4] and biases over its redshifts and
    a populated [dd_bias] over its wavenumbers, with [dd_bias[7]] the number
    [sigma4]: the grids returned with and without [sub_lowk] differ at
    [(k, z)] by [lowk_terms], the terms in [s4 = g4[z] * sigma4]; where the
    second-order and tidal biases vanish both are [b11 * b12 * Pd1d1]; and
    where moreover [b11 = b12 = 2] and [Pd1d1 = 1] both are 4. *)
Theorem get_pgg_lowk self Pd1d1 g4 b11 b21 bs1 b12 b22 bs2 Nk Nz sigma4 :
  shape Pd1d1 = [Nk; Nz] → wf Pd1d1 → shape g4 = [Nz] →
  shape b11 = [Nz] → shape b21 = [Nz] → shape bs1 = [Nz] →
  shape b12 = [Nz] → shape b22 = [Nz] → shape bs2 = [Nz] →
  dd_bias_ready self Nk →
  dd_bias_at self 7 = Some (Scalar sigma4) →
  ∀ tr, ∃ tr1 p1 tr0 p0,
    get_pgg Pd1d1 g4 b11 b21 bs1 b12 b22 bs2 true self tr = (self, tr1, Return p1) ∧
    get_pgg Pd1d1 g4 b11 b21 bs1 b12 b22 bs2 false self tr = (self, tr0, Return p0) ∧
    shape p1 = [Nk; Nz] ∧ shape p0 = [Nk; Nz] ∧
    ∀ k z, k < Nk → z < Nz →
      ∃ v1 v0,
        entry p1 k z = Some v1 ∧ entry p0 k z = Some v0 ∧
        (v1 = v0 - lowk_terms (get b21 0 z) (get bs1 0 z) (get b22 0 z)
                     (get bs2 0 z) (get g4 0 z * sigma4))%Qc ∧
        (get b21 0 z = 0%Qc → get bs1 0 z = 0%Qc →
         get b22 0 z = 0%Qc → get bs2 0 z = 0%Qc →
         (v1 = get b11 0 z * get b12 0 z * get Pd1d1 k z ∧
          v0 = get b11 0 z * get b12 0 z * get Pd1d1 k z ∧
          (get b11 0 z = Q2Qc 2.0 → get b12 0 z = Q2Qc 2.0 →
           get Pd1d1 k z = 1 → v1 = Q2Qc 4.0 ∧ v0 = Q2Qc 4.0))%Qc).
Proof.
  intros HP WP Hg H11 H21 Hs1 H12 H22 Hs2 Hdd H7 tr.
  destruct (evals_returns_grid _ _ _ _ _
              (get_pgg_evals self Pd1d1 g4 b11 b21 bs1 b12 b22 bs2 true Nk Nz sigma4
                 HP WP Hg H11 H21 Hs1 H12 H22 Hs2 Hdd (λ _, H7)) tr)
    as (tr1 & p1 & R1 & S1 & _ & E1).
  destruct (evals_returns_grid _ _ _ _ _
              (get_pgg_evals self Pd1d1 g4 b11 b21 bs1 b12 b22 bs2 false Nk Nz sigma4
                 HP WP Hg H11 H21 Hs1 H12 H22 Hs2 Hdd ltac:(discriminate)) tr)
    as (tr0 & p0 & R0 & S0 & _ & E0).
  exists tr1, p1, tr0, p0. repeat split; try done.
  intros k z Hk Hz. eexists _, _.
  split; [by apply E1|]. split; [by apply E0|]. split.
  - unfold pgg_formula, lowk_terms. ring.
  - intros -> -> -> ->.
    assert (F : ∀ s4 : Qc,
      (pgg_formula (get Pd1d1 k z)
         (get g4 0 z * dd_get self 2 k) (get g4 0 z * dd_get self 3 k)
         (get g4 0 z * dd_get self 4 k) (get g4 0 z * dd_get self 5 k)
         (get g4 0 z * dd_get self 6 k) s4
         (get b11 0 z) 0 0 (get b12 0 z) 0 0
       = get b11 0 z * get b12 0 z * get Pd1d1 k z)%Qc).
    { intros s4. unfold pgg_formula. ring. }
    rewrite !F. split; [done|]. split; [done|].
    intros -> -> ->. split; apply Qc_is_canon; reflexivity.
Qed.

Lemma get_pgg_lowk_witness :
  ∃ tr1 p1 tr0 p0,
    get_pgg unit_grid one1 two1 zero1 zero1 two1 zero1 zero1 true flat_ptc []
    = (flat_ptc, tr1, Return p1) ∧
    get_pgg unit_grid one1 two1 zero1 zero1 two1 zero1 zero1 false flat_ptc []
    = (flat_ptc, tr0, Return p0) ∧
    shape p1 = [2; 1] ∧ shape p0 = [2; 1] ∧
    (∀ k, k < 2 → entry p1 k 0 = Some (Q2Qc 4.0) ∧ entry p0 k 0 = Some (Q2Qc 4.0)).
Proof.
  assert (W : wf unit_grid) by (simpl; by repeat constructor).
  destruct (get_pgg_lowk flat_ptc unit_grid one1 two1 zero1 zero1 two1 zero1 zero1
              2 1 1%Qc eq_refl W eq_refl eq_refl eq_refl eq_refl eq_refl eq_refl
              eq_refl flat_ptc_ready eq_refl [])
    as (tr1 & p1 & tr0 & p0 & R1 & R0 & S1 & S0 & E).
  exists tr1, p1, tr0, p0.
  split; [exact R1|]. split; [exact R0|]. split; [exact S1|]. split; [exact S0|].
  intros k Hk.
  destruct (E k 0 Hk ltac:(lia)) as (v1 & v0 & E1 & E0 & _ & V).
  destruct V as (_ & _ & V4); try reflexivity.
  destruct V4 as [-> ->]; try reflexivity.
  - destruct k as [|[|k]]; [reflexivity | reflexivity | lia].
  - split; assumption.
Defined.

(** ** [get_pim] and [get_pgi] *)

Lemma emits_nothing {S A} (m : M S A) s tr :
  emits no_event m → ∃ s' r, m s tr = (s', tr, r).
Proof.
  intros Hm. destruct (Hm s) as (s' & ev & r & HP & E).
  destruct ev as [|e ev].
  - exists s', r. by rewrite E, app_nil_r.
  - inversion HP as [|x l Hx Hl]. destruct Hx.
Qed.

Lemma evals_silent self m k r c F tr :
  evals self m k r c F → emits no_event m →
  ∃ a, m self tr = (self, tr, Return a) ∧ denotes a k r c F.
Proof.
  intros E Hm. destruct (E tr) as (tr' & a & Hrun & D).
  destruct (emits_nothing m self tr Hm) as (s' & r' & Hrun').
  rewrite Hrun in Hrun'. injection Hrun' as _ <- _.
  by exists a.
Qed.

Lemma run_bind {S A B} (m : M S A) (f : A → M S B) s tr s1 tr1 a :
  m s tr = (s1, tr1, Return a) → bind m f s tr = f a s1 tr1.
Proof. intros H. unfold bind. by rewrite H. Qed.

Lemma emit_run {S} e (s : S) tr : emit e s tr = (s, tr ++ [e], Return tt).
Proof. reflexivity. Qed.

Lemma lift_run {S A} (a : A) (s : S) tr : lift (Return a) s tr = (s, tr, Return a).
Proof. reflexivity. Qed.

Lemma read_bundle_run attr f self tr :
  read_bundle attr f self tr = (self, tr ++ [EvRead attr], Return (f self)).
Proof. reflexivity. Qed.

Section IA.
Context (self : PTCalculator) (Pd1d1 g4 c1 c2 cd : ndarray) (Nk Nz : nat).
Context (a00e c00e a0e0e a0b0b a0e2 b0e2 d0ee2 d0bb2 : ndarray).
Hypothesis HP : shape Pd1d1 = [Nk; Nz].
Hypothesis WP : wf Pd1d1.
Hypothesis Hg : shape g4 = [Nz].
Hypothesis H1 : shape c1 = [Nz].
Hypothesis H2 : shape c2 = [Nz].
Hypothesis Hd : shape cd = [Nz].
Hypothesis Hta : ia_ta self = Some [a00e; c00e; a0e0e; a0b0b].
Hypothesis Hmix : ia_mix self = Some [a0e2; b0e2; d0ee2; d0bb2].
Hypothesis Sa : shape a00e = [Nk].
Hypothesis Sc : shape c00e = [Nk].
Hypothesis Se : shape a0e2 = [Nk].
Hypothesis Sb : shape b0e2 = [Nk].

Lemma get_pim_run tr :
  ∃ q, get_pim Pd1d1 g4 c1 c2 cd self tr
       = (self, tr ++ [EvRead "ia_ta"; EvRead "ia_mix"], Return q) ∧
       denotes q 2 Nk Nz (pim_entry Pd1d1 g4 c1 c2 cd a00e c00e a0e2 b0e2).
Proof using All.
  pose proof (denotes_grid _ _ _ HP WP) as DP.
  pose proof (denotes_vector _ _ Hg) as Dg.
  pose proof (denotes_vector _ _ H1) as D1.
  pose proof (denotes_vector _ _ H2) as D2.
  pose proof (denotes_vector _ _ Hd) as Dd.
  pose proof (denotes_vector _ _ Sa) as Da.
  pose proof (denotes_vector _ _ Sc) as Dc.
  pose proof (denotes_vector _ _ Se) as De.
  pose proof (denotes_vector _ _ Sb) as Db.
  unfold get_pim.
  rewrite (run_bind _ _ _ _ _ _ _ (read_bundle_run "ia_ta" ia_ta self tr)), Hta.
  cbv beta. change (unpack4 (Some ?l)) with (Return (a00e, c00e, a0e0e, a0b0b)).
  rewrite (run_bind _ _ _ _ _ _ (_, _, _, _) (lift_run _ _ _)). cbv beta iota.
  rewrite (run_bind _ _ _ _ _ _ _ (read_bundle_run "ia_mix" ia_mix self _)), Hmix.
  cbv beta. change (unpack4 (Some ?l)) with (Return (a0e2, b0e2, d0ee2, d0bb2)).
  rewrite (run_bind _ _ _ _ _ _ (_, _, _, _) (lift_run _ _ _)). cbv beta iota.
  rewrite <- app_assoc. simpl app.
  match goal with |- ∃ q, ?m _ _ = _ ∧ _ =>
    destruct (evals_silent self m 2 Nk Nz (pim_entry Pd1d1 g4 c1 c2 cd a00e c00e a0e2 b0e2)
                (tr ++ [EvRead "ia_ta"; EvRead "ia_mix"])) as (x & Hx & Dx)
  end.
  - eapply evals_ext; [ev|].
    intros k z Hk Hz. cbv beta. ix_norm Hk Hz. unfold pim_entry, pim_formula. ring.
  - em.
  - eexists; split; eassumption.
Qed.

Lemma get_pgi_run b1 b2 bs tr :
  shape b1 = [Nz] →
  ∃ p, get_pgi Pd1d1 g4 b1 b2 bs c1 c2 cd self tr
       = (self, tr ++ [EvWarn pgi_warning; EvRead "ia_ta"; EvRead "ia_mix"],
          Return p) ∧
       denotes p 2 Nk Nz (λ k z, get b1 0 z * (pim_entry Pd1d1 g4 c1 c2 cd a00e c00e a0e2 b0e2) k z)%Qc.
Proof using All.
  intros Hb.
  pose proof (denotes_grid _ _ _ HP WP) as DP.
  pose proof (denotes_vector _ _ Hg) as Dg.
  pose proof (denotes_vector _ _ H1) as D1.
  pose proof (denotes_vector _ _ H2) as D2.
  pose proof (denotes_vector _ _ Hd) as Dd.
  pose proof (denotes_vector _ _ Sa) as Da.
  pose proof (denotes_vector _ _ Sc) as Dc.
  pose proof (denotes_vector _ _ Se) as De.
  pose proof (denotes_vector _ _ Sb) as Db.
  pose proof (denotes_vector _ _ Hb) as Db1.
  unfold get_pgi.
  rewrite (run_bind _ _ _ _ _ _ _ (emit_run (EvWarn pgi_warning) self tr)).
  rewrite (run_bind _ _ _ _ _ _ _ (read_bundle_run "ia_ta" ia_ta self _)), Hta.
  cbv beta. change (unpack4 (Some ?l)) with (Return (a00e, c00e, a0e0e, a0b0b)).
  rewrite (run_bind _ _ _ _ _ _ (_, _, _, _) (lift_run _ _ _)). cbv beta iota.
  rewrite (run_bind _ _ _ _ _ _ _ (read_bundle_run "ia_mix" ia_mix self _)), Hmix.
  cbv beta. change (unpack4 (Some ?l)) with (Return (a0e2, b0e2, d0ee2, d0bb2)).
  rewrite (run_bind _ _ _ _ _ _ (_, _, _, _) (lift_run _ _ _)). cbv beta iota.
  rewrite <- !app_assoc. simpl app.
  match goal with |- ∃ q, ?m _ _ = _ ∧ _ =>
    destruct (evals_silent self m 2 Nk Nz (λ k z, get b1 0 z * (pim_entry Pd1d1 g4 c1 c2 cd a00e c00e a0e2 b0e2) k z)%Qc
                (tr ++ [EvWarn pgi_warning; EvRead "ia_ta"; EvRead "ia_mix"]))
      as (x & Hx & Dx)
  end.
  - eapply evals_ext; [ev|].
    intros k z Hk Hz. cbv beta. ix_norm Hk Hz. unfold pim_entry, pim_formula. ring.
  - em.
  - eexists; split; eassumption.
Qed.
End IA.

(** C9.  On a grid [Pd1d1], vectors over its redshifts and populated
    [ia_ta] and [ia_mix] bundles over its wavenumbers, [get_pgi] returns
    [b1[z]] times the value [pim_formula] of IA x Matter, which is what
    [get_pim] returns on the same inputs.  Whatever its arguments,
    [get_pgi] does not depend on [b2] and [bs], and every call of it, on any
    calculator, emits [pgi_warning] exactly once, before anything else. *)
Theorem get_pgi_linear self Pd1d1 g4 b1 b2 bs c1 c2 cd Nk Nz
    a00e c00e a0e0e a0b0b a0e2 b0e2 d0ee2 d0bb2 :
  (shape Pd1d1 = [Nk; Nz] → wf Pd1d1 → shape g4 = [Nz] → shape b1 = [Nz] →
   shape c1 = [Nz] → shape c2 = [Nz] → shape cd = [Nz] →
   ia_ta self = Some [a00e; c00e; a0e0e; a0b0b] →
   ia_mix self = Some [a0e2; b0e2; d0ee2; d0bb2] →
   shape a00e = [Nk] → shape c00e = [Nk] → shape a0e2 = [Nk] → shape b0e2 = [Nk] →
   ∀ tr, ∃ p q,
     get_pgi Pd1d1 g4 b1 b2 bs c1 c2 cd self tr
     = (self, tr ++ [EvWarn pgi_warning; EvRead "ia_ta"; EvRead "ia_mix"], Return p) ∧
     get_pim Pd1d1 g4 c1 c2 cd self tr
     = (self, tr ++ [EvRead "ia_ta"; EvRead "ia_mix"], Return q) ∧
     shape p = [Nk; Nz] ∧ shape q = [Nk; Nz] ∧
     ∀ k z, k < Nk → z < Nz →
       let pim := pim_formula (get Pd1d1 k z) (get g4 0 z)
                    (get c1 0 z) (get c2 0 z) (get cd 0 z)
                    (get a00e 0 k) (get c00e 0 k) (get a0e2 0 k) (get b0e2 0 k) in
       entry q k z = Some pim ∧ entry p k z = Some (get b1 0 z * pim)%Qc) ∧
  (∀ b2' bs',
     get_pgi Pd1d1 g4 b1 b2' bs' c1 c2 cd = get_pgi Pd1d1 g4 b1 b2 bs c1 c2 cd) ∧
  (∀ tr, ∃ self' ev r,
     get_pgi Pd1d1 g4 b1 b2 bs c1 c2 cd self tr
     = (self', tr ++ EvWarn pgi_warning :: ev, r) ∧
     Forall not_warning ev).
Proof.
  split; [|split].
  - intros HP WP Hg Hb H1 H2 Hd Hta Hmix Sa Sc Se Sb tr.
    destruct (get_pgi_run self Pd1d1 g4 c1 c2 cd Nk Nz _ _ _ _ _ _ _ _
                HP WP Hg H1 H2 Hd Hta Hmix Sa Sc Se Sb b1 b2 bs tr Hb)
      as (p & Rp & Dp).
    destruct (get_pim_run self Pd1d1 g4 c1 c2 cd Nk Nz _ _ _ _ _ _ _ _
                HP WP Hg H1 H2 Hd Hta Hmix Sa Sc Se Sb tr)
      as (q & Rq & Dq).
    exists p, q. split; [done|]. split; [done|].
    destruct (denotes_shape2 _ _ _ _ Dp) as [Sp _].
    destruct (denotes_shape2 _ _ _ _ Dq) as [Sq _].
    split; [done|]. split; [done|].
    intros k z Hk Hz. simpl.
    destruct Dp as (_ & _ & _ & Ep). destruct Dq as (_ & _ & _ & Eq).
    split; [by apply Eq | by apply Ep].
  - reflexivity.
  - intros tr. unfold get_pgi.
    rewrite (run_bind _ _ _ _ _ _ _ (emit_run (EvWarn pgi_warning) self tr)).
    cbv beta.
    match goal with |- ∃ _ _ _, ?m _ _ = _ ∧ _ =>
      assert (R : emits not_warning m)
    end.
    { unfold read_bundle.
      repeat first [em_step | match goal with u : (_ * _)%type |- _ => destruct u end]. }
    destruct (R self) as (self' & ev & r & Hev & E).
    exists self', ev, r. split; [|done].
    rewrite E. by rewrite <- app_assoc.
Qed.

Lemma get_pgi_linear_witness :
  ∃ p q,
    get_pgi unit_grid one1 two1 zero1 zero1 two1 one1 one1 ia_ptc []
    = (ia_ptc, [EvWarn pgi_warning; EvRead "ia_ta"; EvRead "ia_mix"], Return p) ∧
    get_pim unit_grid one1 two1 one1 one1 ia_ptc []
    = (ia_ptc, [EvRead "ia_ta"; EvRead "ia_mix"], Return q) ∧
    shape p = [2; 1] ∧ shape q = [2; 1] ∧
    ∀ k z, k < 2 → z < 1 →
      let pim := pim_formula (get unit_grid k z) (get one1 0 z)
                   (get two1 0 z) (get one1 0 z) (get one1 0 z)
                   (get ones2 0 k) (get ones2 0 k) (get ones2 0 k) (get ones2 0 k) in
      entry q k z = Some pim ∧ entry p k z = Some (get two1 0 z * pim)%Qc.
Proof.
  apply (proj1 (get_pgi_linear ia_ptc unit_grid one1 two1 zero1 zero1 two1 one1 one1
                  2 1 ones2 ones2 ones2 ones2 ones2 ones2 ones2 ones2));
    try reflexivity.
  simpl. by repeat constructor.
Defined.

(** ** [get_pt_pk2d] *)

Lemma run_bind_raise {S A B} (m : M S A) (f : A → M S B) s tr s1 tr1 e :
  m s tr = (s1, tr1, Raise e) → bind m f s tr = (s1, tr1, Raise e).
Proof. intros H. unfold bind. by rewrite H. Qed.

Lemma flag_check_run (needed : bool) (flag : PTCalculator → bool) msg c tr :
  (if needed then
     w <- on_ptc (gets flag) ;;
     if negb w then raise (ValueError msg) else ret tt
   else ret tt) (Some c) tr
  = (Some c, tr, if needed && negb (flag c) then Raise (ValueError msg) else Return tt).
Proof. destruct needed; [|done]. unfold bind, on_ptc, gets. simpl. by destruct (flag c). Qed.

Lemma type_is_true t tag : type t = tag → type_is t tag = true.
Proof. intros H. by apply bool_decide_eq_true_2. Qed.

(** C7.  With a calculator whose flags do not cover the type of one of
    the tracers ([NC] without [with_NC], or [IA] without [with_IA]),
    [get_pt_pk2d] raises a [ValueError], leaves the calculator as it was
    and the trace as it was: FAST-PT, the cosmology's power spectra and
    growth factor and the tracers' bias functions are not called.  The
    scale factors are given, or the cosmology's own samples are obtained
    with status 0. *)
Theorem get_pt_pk2d_flag_mismatch rt cosmo tracer1 c tracer2
    sub_lowk use_nonlin a_arr lok hik bb tr :
  (a_arr = None → (get_pk_spline_a cosmo).2 = 0%Z) →
  ((type tracer1 = "NC" ∨ type (default tracer1 tracer2) = "NC") ∧ with_NC c = false) ∨
  ((type tracer1 = "IA" ∨ type (default tracer1 tracer2) = "IA") ∧ with_IA c = false) →
  ∃ msg,
    get_pt_pk2d rt cosmo tracer1 (Some c) tracer2 sub_lowk use_nonlin a_arr
      lok hik bb tr
    = (Some c, tr, Raise (ValueError msg)).
Proof.
  intros Ha Hflag. unfold get_pt_pk2d. unfold id in Hflag.
  destruct a_arr as [a|];
    [|destruct (get_pk_spline_a cosmo) as [a st]; simpl in Ha; rewrite (Ha eq_refl)].
  all: erewrite run_bind by reflexivity; cbv beta.
  all: erewrite run_bind by reflexivity; cbv beta iota delta [id].
  all: erewrite run_bind by reflexivity; cbv beta.
  all: unfold bind at 1; rewrite flag_check_run.
  all: destruct Hflag as [[HNC Hw] | [HIA Hw]].
  all: try (rewrite Hw; simpl negb; rewrite andb_true_r;
            destruct HNC as [H|H]; rewrite (type_is_true _ _ H), ?orb_true_r;
            simpl; by eexists).
  all: match goal with |- context [if ?b then Raise _ else Return _] =>
         destruct b; [by eexists|] end.
  all: unfold bind at 1; rewrite flag_check_run, Hw; simpl negb;
       rewrite andb_true_r.
  all: destruct HIA as [H|H]; rewrite (type_is_true _ _ H), ?orb_true_r;
       simpl; by eexists.
Qed.

Lemma get_pt_pk2d_flag_mismatch_witness :
  ∃ msg,
    get_pt_pk2d sample_rt sample_cosmo sample_ia (Some (sample_ptc true false))
      (Some sample_nc) false true None 1 2 false []
    = (Some (sample_ptc true false), [], Raise (ValueError msg)).
Proof.
  apply (get_pt_pk2d_flag_mismatch sample_rt sample_cosmo sample_ia
           (sample_ptc true false) (Some sample_nc) false true None 1 2 false []).
  - reflexivity.
  - right. split; [left|]; reflexivity.
Defined.

Lemma bind_Return_inv {S A B} (m : M S A) (f : A → M S B) s tr s' tr' b :
  bind m f s tr = (s', tr', Return b) →
  ∃ a s1 tr1, m s tr = (s1, tr1, Return a) ∧ f a s1 tr1 = (s', tr', Return b).
Proof.
  unfold bind. destruct (m s tr) as [[s1 tr1] [e|a]]; [done|].
  intros H. by exists a, s1, tr1.
Qed.

Lemma bind_assoc_run {S A B C} (m : M S A) (f : A → M S B) (g : B → M S C) s tr :
  bind (bind m f) g s tr = bind m (λ a, bind (f a) g) s tr.
Proof. unfold bind. by destruct (m s tr) as [[s1 tr1] [e|a]]. Qed.

Lemma call_bias_run {S} slot t name z f (s : S) tr :
  bias_fn t name = Some f →
  call_bias slot t name z s tr = (s, tr ++ [EvBias slot name], Return (f z)).
Proof. intros H. unfold call_bias. by rewrite H. Qed.

Lemma same_outcome_refl {S A} (x : S * list event * result A) : same_outcome x x.
Proof. done. Qed.

Lemma bind_same_prefix {S A B} (m : M S A) (f g : A → M S B) s tr :
  (∀ a s1 tr1, same_outcome (f a s1 tr1) (g a s1 tr1)) →
  same_outcome (bind m f s tr) (bind m g s tr).
Proof.
  intros H. unfold bind. destruct (m s tr) as [[s1 tr1] [e|a]]; [done|]. apply H.
Qed.

Lemma emits_same_outcome {S A} (m : M S A) s tr tr' :
  emits (λ _, True) m → same_outcome (m s tr) (m s tr').
Proof.
  intros Hm. destruct (Hm s) as (s' & ev & r & _ & E). by rewrite !E.
Qed.

(** C5.  For a number-counts tracer and an intrinsic-alignment tracer, and
    the same remaining arguments, [get_pt_pk2d] ends in the same way in
    both orders: it returns the same [Pk2D], with the same power grid, or
    raises the same exception, and leaves the same calculator.  Only the
    order of the bias calls in the trace differs. *)
Theorem get_pt_pk2d_nc_ia_swap rt cosmo b1 b2 bs c1 c2 cd ptc
    sub_lowk use_nonlin a_arr lok hik bb tr :
  same_outcome
    (get_pt_pk2d rt cosmo (PTNumberCountsTracer b1 b2 bs) ptc
       (Some (PTIntrinsicAlignmentTracer c1 c2 cd))
       sub_lowk use_nonlin a_arr lok hik bb tr)
    (get_pt_pk2d rt cosmo (PTIntrinsicAlignmentTracer c1 c2 cd) ptc
       (Some (PTNumberCountsTracer b1 b2 bs))
       sub_lowk use_nonlin a_arr lok hik bb tr).
Proof.
  unfold get_pt_pk2d.
  cbv beta iota zeta delta [default from_option id].
  change (type_is (PTNumberCountsTracer b1 b2 bs) "NC") with true.
  change (type_is (PTNumberCountsTracer b1 b2 bs) "IA") with false.
  change (type_is (PTIntrinsicAlignmentTracer c1 c2 cd) "NC") with false.
  change (type_is (PTIntrinsicAlignmentTracer c1 c2 cd) "IA") with true.
  cbv beta iota delta [orb].
  repeat (apply bind_same_prefix; intros ? ? ?).
  repeat (rewrite bind_assoc_run;
          erewrite (run_bind (call_bias _ _ _ _))
            by (apply call_bias_run; reflexivity);
          cbv beta).
  apply emits_same_outcome.
  apply emits_bind; [apply emits_on_ptc; by apply emits_get_pgi|].
  intros p. em.
Qed.

Lemma on_ptc_gets_inv {A} (f : PTCalculator → A) s tr s' tr' a :
  on_ptc (gets f) s tr = (s', tr', Return a) →
  ∃ c, s = Some c ∧ s' = Some c ∧ tr' = tr ∧ a = f c.
Proof.
  unfold on_ptc, gets. destruct s as [c|]; [|done].
  intros [= <- <- <-]. by exists c.
Qed.

Ltac invert_binds H :=
  repeat (let R := fresh "R" in
          apply bind_Return_inv in H;
          destruct H as (? & ? & ? & R & H);
          cbv beta zeta in H).

Ltac eval_type_tests :=
  repeat match goal with
         | |- context [type_is ?t ?tag] =>
             let b := eval vm_compute in (type_is t tag) in
             change (type_is t tag) with b
         end.

Ltac em_quiet :=
  repeat first
    [ apply emits_update_pk; intros ?; exact I
    | apply emits_init; intros ?; exact I
    | apply emits_power_grid; intros ?; exact I
    | em_step ].

(** C4.  When both tracers have type [M], with [tracer2] given or left to
    default to [tracer1], every event that [get_pt_pk2d] adds to the trace
    is neither a call of a bias function nor a read of a cached bundle, and
    the power grid of the [Pk2D] it returns is the transpose of the grid
    [Pd1d1] that [power_grid] returned for the scale factors of that
    [Pk2D], with nothing done to it in between. *)
Theorem get_pt_pk2d_matter rt cosmo tracer1 ptc tracer2
    sub_lowk use_nonlin a_arr lok hik bb tr :
  type tracer1 = "M" → type (default tracer1 tracer2) = "M" →
  ∃ s' ev r,
    get_pt_pk2d rt cosmo tracer1 ptc tracer2 sub_lowk use_nonlin a_arr lok hik bb tr
    = (s', tr ++ ev, r) ∧
    Forall neither_bias_nor_read ev ∧
    ∀ out, r = Return out →
      ∃ s1 tr1 s2 tr2 Pd1d1,
        (if use_nonlin
         then power_grid "nonlin_matter_power" (nonlin_matter_power cosmo)
         else power_grid "linear_matter_power" (linear_matter_power cosmo))
          (pk2d_a_arr out) s1 tr1
        = (s2, tr2, Return Pd1d1) ∧
        pk2d_pk_arr out = transpose Pd1d1.
Proof.
  intros H1 H2.
  assert (T : tracer1 = PTMatterTracer ∨ tracer1 = PTTracerOther "M").
  { destruct tracer1; try discriminate; [by left|]. simpl in H1. subst. by right. }
  assert (T2 : default tracer1 tracer2 = PTMatterTracer
               ∨ default tracer1 tracer2 = PTTracerOther "M").
  { destruct (default tracer1 tracer2); try discriminate; [by left|].
    simpl in H2. subst. by right. }
  unfold get_pt_pk2d. cbv zeta.
  set (t2 := default tracer1 tracer2) in *. clearbody t2.
  destruct T as [-> | ->], T2 as [-> | ->].
  all: eval_type_tests; cbv beta iota delta [orb].
  all: match goal with |- ∃ _ _ _, ?m ?s ?t = _ ∧ _ =>
         assert (E : emits neither_bias_nor_read m) by em_quiet;
         destruct (E s) as (s' & ev & r & HP & Hrun)
       end.
  all: exists s', ev, r; split; [apply Hrun|]; split; [done|].
  all: intros out ->; specialize (Hrun tr); invert_binds Hrun.
  all: injection Hrun as _ _ <-; simpl.
  all: match goal with R : ret _ _ _ = (_, _, Return _) |- _ =>
         injection R as _ _ <- end.
  all: destruct use_nonlin; eauto 10.
Qed.

Lemma get_pt_pk2d_matter_witness :
  ∃ s' ev out,
    get_pt_pk2d sample_rt sample_cosmo PTMatterTracer (Some (sample_ptc true false))
      None false true None 1 2 false []
    = (s', ev, Return out) ∧
    Forall neither_bias_nor_read ev ∧
    rows_of (pk2d_pk_arr out) = [[1; 1]; [1; 1]]%Q ∧
    ∃ s1 tr1 s2 tr2 Pd1d1,
      power_grid "nonlin_matter_power" (nonlin_matter_power sample_cosmo)
        (pk2d_a_arr out) s1 tr1
      = (s2, tr2, Return Pd1d1) ∧
      pk2d_pk_arr out = transpose Pd1d1.
Proof.
  destruct (get_pt_pk2d_matter sample_rt sample_cosmo PTMatterTracer
              (Some (sample_ptc true false)) None false true None 1 2 false []
              eq_refl eq_refl)
    as (s' & ev & r & Hrun & Hev & Hout).
  vm_compute in Hrun.
  injection Hrun as Hs Hev' Hr. subst s' ev r.
  eexists _, _, _. split; [vm_compute; reflexivity|].
  split; [exact Hev|]. split; [reflexivity|].
  exact (Hout _ eq_refl).
Defined.

(** C8, where the code departs from it.  [get_pt_pk2d] does not use
    [extrap_order_lok] and [extrap_order_hik]: its outcome is the same for
    all values of them, and the [Pk2D] it returns is constructed without
    extrapolation orders, in linear space, on the axis [np.log(ptc.ks)];
    so for the requested orders 0 and 0 on the sample inputs. *)
Theorem get_pt_pk2d_extrap_orders :
  (∀ rt cosmo tracer1 ptc tracer2 sub_lowk use_nonlin a_arr bb tr lok hik lok' hik',
     get_pt_pk2d rt cosmo tracer1 ptc tracer2 sub_lowk use_nonlin a_arr lok hik bb tr
     = get_pt_pk2d rt cosmo tracer1 ptc tracer2 sub_lowk use_nonlin a_arr lok' hik' bb tr) ∧
  (∀ rt cosmo tracer1 ptc tracer2 sub_lowk use_nonlin a_arr bb tr lok hik s' tr' out,
     get_pt_pk2d rt cosmo tracer1 ptc tracer2 sub_lowk use_nonlin a_arr lok hik bb tr
     = (s', tr', Return out) →
     pk2d_extrap_order_lok out = None ∧ pk2d_extrap_order_hik out = None ∧
     pk2d_is_logp out = false ∧
     ∃ c', s' = Some c' ∧ pk2d_lk_arr out = np_log rt (ks c')) ∧
  (∃ s' tr' out,
     get_pt_pk2d sample_rt sample_cosmo PTMatterTracer (Some (sample_ptc true false))
       None false true None 0 0 false []
     = (s', tr', Return out) ∧
     pk2d_extrap_order_lok out = None ∧ pk2d_extrap_order_hik out = None).
Proof.
  split; [|split].
  - reflexivity.
  - intros rt cosmo tracer1 ptc tracer2 sub_lowk use_nonlin a_arr bb tr lok hik
      s' tr' out H.
    unfold get_pt_pk2d in H. invert_binds H.
    injection H as <- <- <-. simpl.
    match goal with R : on_ptc (gets ks) _ _ = _ |- _ =>
      apply on_ptc_gets_inv in R; destruct R as (c' & _ & -> & _ & ->)
    end.
    repeat split. by exists c'.
  - eexists _, _, _. split; [vm_compute; reflexivity|]. done.
Qed.

(** C1, where the code departs from it.  [get_pt_pk2d] never calls the
    tidal bias function [bs] of a number-counts tracer: its outcome and its
    trace are the same whatever [bs] is, for the tracer in either position
    and for the auto-correlation.  On the sample tracer ([b1 = 2], [b2 = 0],
    [bs = 1]) against matter it calls [b1], [b2] and [b2] again and returns
    the grid 2, where [get_pgm] with the tidal bias 1 returns 5/2. *)
Theorem get_pt_pk2d_tidal_bias :
  (∀ rt cosmo b1 b2 bs bs' ptc t sub_lowk use_nonlin a_arr lok hik bb tr,
     get_pt_pk2d rt cosmo (PTNumberCountsTracer b1 b2 bs) ptc (Some t)
       sub_lowk use_nonlin a_arr lok hik bb tr
     = get_pt_pk2d rt cosmo (PTNumberCountsTracer b1 b2 bs') ptc (Some t)
         sub_lowk use_nonlin a_arr lok hik bb tr) ∧
  (∀ rt cosmo b1 b2 bs bs' ptc t sub_lowk use_nonlin a_arr lok hik bb tr,
     get_pt_pk2d rt cosmo t ptc (Some (PTNumberCountsTracer b1 b2 bs))
       sub_lowk use_nonlin a_arr lok hik bb tr
     = get_pt_pk2d rt cosmo t ptc (Some (PTNumberCountsTracer b1 b2 bs'))
         sub_lowk use_nonlin a_arr lok hik bb tr) ∧
  (∀ rt cosmo b1 b2 bs bs' ptc sub_lowk use_nonlin a_arr lok hik bb tr,
     get_pt_pk2d rt cosmo (PTNumberCountsTracer b1 b2 bs) ptc None
       sub_lowk use_nonlin a_arr lok hik bb tr
     = get_pt_pk2d rt cosmo (PTNumberCountsTracer b1 b2 bs') ptc None
         sub_lowk use_nonlin a_arr lok hik bb tr) ∧
  (let run := get_pt_pk2d sample_rt sample_cosmo sample_nc
                (Some (sample_ptc true false)) (Some PTMatterTracer)
                false true None 1 2 false [] in
   run.1.1 = Some flat_ptc ∧
   bias_calls run.1.2 = [(1, "b1"); (1, "b2"); (1, "b2")] ∧
   grid_of run.2 = Some [[2; 2]; [2; 2]]%Q) ∧
  rows_of_result (get_pgm ones_grid ones2 twos2 zeros2 ones2 flat_ptc []).2
  = Some [[5 # 2; 5 # 2]; [5 # 2; 5 # 2]]%Q.
Proof.
  split; [|split; [|split; [|split]]].
  - reflexivity.
  - reflexivity.
  - reflexivity.
  - cbv zeta. split; [|split]; vm_compute; reflexivity.
  - vm_compute. reflexivity.
Qed.

(** Both orders of number counts and intrinsic alignments on the sample
    inputs: the grid is [b1 * (c1 + 2 cd + 2 c2) = 10] either way. *)
Example nc_ia_orders_sample :
  grid_of (get_pt_pk2d sample_rt sample_cosmo sample_nc (Some (sample_ptc true true))
             (Some sample_ia) false true None 1 2 false []).2
  = Some [[10; 10]; [10; 10]]%Q ∧
  grid_of (get_pt_pk2d sample_rt sample_cosmo sample_ia (Some (sample_ptc true true))
             (Some sample_nc) false true None 1 2 false []).2
  = Some [[10; 10]; [10; 10]]%Q.
Proof. split; vm_compute; reflexivity. Qed.

(** The end-to-end auto-correlation of the sample number-counts tracer
    ([b1 = 2], second-order bias 0) on the flat spectrum: the grid 4. *)
Example nc_auto_sample :
  grid_of (get_pt_pk2d sample_rt sample_cosmo sample_nc (Some (sample_ptc true false))
             None true true None 1 2 false []).2
  = Some [[4; 4]; [4; 4]]%Q.
Proof. vm_compute. reflexivity. Qed.

(* ================================================================== *)
(** * Part III: the rest of the module                                 *)
(* ================================================================== *)

(** ** Grids are determined by their entries *)

Lemma grid_ext a b r c :
  shape a = [r; c] → shape b = [r; c] → wf a → wf b →
  (∀ i j, i < r → j < c → entry a i j = entry b i j) → a = b.
Proof.
  destruct a as [|?|ca ra], b as [|?|cb rb]; try discriminate.
  intros [= La Ca] [= Lb Cb] Wa Wb H. simpl in Wa, Wb. subst ca cb. f_equal.
  apply list_eq. intros i.
  destruct (decide (i < r)) as [Hi|Hi].
  - destruct (lookup_lt_is_Some_2 ra i) as [u Hu]; [lia|].
    destruct (lookup_lt_is_Some_2 rb i) as [v Hv]; [lia|].
    rewrite Hu, Hv. f_equal.
    pose proof (Forall_lookup_1 _ _ _ _ Wa Hu) as Lu.
    pose proof (Forall_lookup_1 _ _ _ _ Wb Hv) as Lv. simpl in Lu, Lv.
    apply list_eq. intros j.
    destruct (decide (j < c)) as [Hj|Hj].
    + specialize (H i j Hi Hj). simpl in H. by rewrite Hu, Hv in H.
    + rewrite !lookup_ge_None_2 by lia. done.
  - rewrite !lookup_ge_None_2 by lia. done.
Qed.

(** ** [get_pgm] *)

Lemma get_pgm_evals self Pd1d1 g4 b1 b2 bs Nk Nz d2 d4 :
  shape Pd1d1 = [Nk; Nz] → wf Pd1d1 → shape g4 = [Nz] →
  shape b1 = [Nz] → shape b2 = [Nz] → shape bs = [Nz] →
  dd_bias_at self 2 = Some d2 → shape d2 = [Nk] →
  dd_bias_at self 4 = Some d4 → shape d4 = [Nk] →
  evals self (get_pgm Pd1d1 g4 b1 b2 bs) 2 Nk Nz
    (λ k z, pgm_formula (get Pd1d1 k z)
              (get g4 0 z * get d2 0 k) (get g4 0 z * get d4 0 k)
              (get b1 0 z) (get b2 0 z) (get bs 0 z))%Qc.
Proof.
  intros HP WP Hg H1 H2 Hs A2 S2 A4 S4.
  apply denotes_grid in HP; [|done].
  apply denotes_vector in Hg, H1, H2, Hs, S2, S4.
  destruct (dd_bias_at_inv _ _ _ A2) as (l & Hl & L2).
  unfold dd_bias_at in A4. rewrite Hl in A4. simpl in A4.
  unfold get_pgm. eapply evals_ext; [ev|].
  intros k z Hk Hz. cbv beta. ix_norm Hk Hz. unfold pgm_formula. ring.
Qed.

(** X1.  On an [Nk] x [Nz] grid [Pd1d1], vectors [g4], [b1], [b2], [bs] of
    length [Nz] and a [dd_bias] whose items 2 and 4 are vectors of length
    [Nk], [get_pgm] returns the [Nk] x [Nz] grid
    [b1 * Pd1d1 + 0.5 * b2 * (g4 x dd_bias[2]) + 0.5 * bs * (g4 x dd_bias[4])],
    which is [b1 * Pd1d1] where [b2] and [bs] vanish; the other items of
    [dd_bias] are not needed. *)
Theorem get_pgm_grid self Pd1d1 g4 b1 b2 bs Nk Nz d2 d4 :
  shape Pd1d1 = [Nk; Nz] → wf Pd1d1 → shape g4 = [Nz] →
  shape b1 = [Nz] → shape b2 = [Nz] → shape bs = [Nz] →
  dd_bias_at self 2 = Some d2 → shape d2 = [Nk] →
  dd_bias_at self 4 = Some d4 → shape d4 = [Nk] →
  ∀ tr, ∃ tr' p,
    get_pgm Pd1d1 g4 b1 b2 bs self tr = (self, tr', Return p) ∧
    shape p = [Nk; Nz] ∧
    ∀ k z, k < Nk → z < Nz →
      ∃ v, entry p k z = Some v ∧
           v = pgm_formula (get Pd1d1 k z)
                 (get g4 0 z * get d2 0 k)%Qc (get g4 0 z * get d4 0 k)%Qc
                 (get b1 0 z) (get b2 0 z) (get bs 0 z) ∧
           (get b2 0 z = 0%Qc → get bs 0 z = 0%Qc →
            v = (get b1 0 z * get Pd1d1 k z)%Qc).
Proof.
  intros HP WP Hg H1 H2 Hs A2 S2 A4 S4 tr.
  destruct (evals_returns_grid _ _ _ _ _
              (get_pgm_evals self Pd1d1 g4 b1 b2 bs Nk Nz d2 d4
                 HP WP Hg H1 H2 Hs A2 S2 A4 S4) tr)
    as (tr' & p & R & Sp & _ & E).
  exists tr', p. split; [done|]. split; [done|].
  intros k z Hk Hz. eexists. split; [by apply E|]. split; [done|].
  intros -> ->. unfold pgm_formula. ring.
Qed.

Lemma get_pgm_grid_witness :
  ∃ tr' p,
    get_pgm unit_grid one1 two1 zero1 zero1 flat_ptc [] = (flat_ptc, tr', Return p) ∧
    shape p = [2; 1] ∧
    ∀ k, k < 2 → entry p k 0 = Some (Q2Qc 2.0 * get unit_grid k 0)%Qc.
Proof.
  assert (W : wf unit_grid) by (simpl; by repeat constructor).
  destruct (get_pgm_grid flat_ptc unit_grid one1 two1 zero1 zero1 2 1 ones2 ones2
              eq_refl W eq_refl eq_refl eq_refl eq_refl eq_refl eq_refl
              eq_refl eq_refl [])
    as (tr' & p & R & Sp & E).
  exists tr', p. split; [exact R|]. split; [exact Sp|].
  intros k Hk. destruct (E k 0 Hk ltac:(lia)) as (v & Ev & _ & V).
  rewrite Ev. f_equal. apply V; reflexivity.
Defined.

(** ** Exchanging the two tracers *)

(** X2.  [get_pgg] is symmetric in its two tracers: on the inputs it
    accepts, exchanging [(b11, b21, bs1)] with [(b12, b22, bs2)] returns the
    same grid. *)
Theorem get_pgg_exchange self Pd1d1 g4 b11 b21 bs1 b12 b22 bs2 sub_lowk Nk Nz sigma4 :
  shape Pd1d1 = [Nk; Nz] → wf Pd1d1 → shape g4 = [Nz] →
  shape b11 = [Nz] → shape b21 = [Nz] → shape bs1 = [Nz] →
  shape b12 = [Nz] → shape b22 = [Nz] → shape bs2 = [Nz] →
  dd_bias_ready self Nk →
  (sub_lowk = true → dd_bias_at self 7 = Some (Scalar sigma4)) →
  ∀ tr, ∃ tr1 tr2 p,
    get_pgg Pd1d1 g4 b11 b21 bs1 b12 b22 bs2 sub_lowk self tr
    = (self, tr1, Return p) ∧
    get_pgg Pd1d1 g4 b12 b22 bs2 b11 b21 bs1 sub_lowk self tr
    = (self, tr2, Return p) ∧
    shape p = [Nk; Nz].
Proof.
  intros HP WP Hg H11 H21 Hs1 H12 H22 Hs2 Hdd H7 tr.
  destruct (evals_returns_grid _ _ _ _ _
              (get_pgg_evals self Pd1d1 g4 b11 b21 bs1 b12 b22 bs2 sub_lowk Nk Nz
                 sigma4 HP WP Hg H11 H21 Hs1 H12 H22 Hs2 Hdd H7) tr)
    as (tr1 & p & R1 & S1 & W1 & E1).
  destruct (evals_returns_grid _ _ _ _ _
              (get_pgg_evals self Pd1d1 g4 b12 b22 bs2 b11 b21 bs1 sub_lowk Nk Nz
                 sigma4 HP WP Hg H12 H22 Hs2 H11 H21 Hs1 Hdd H7) tr)
    as (tr2 & q & R2 & S2 & W2 & E2).
  assert (q = p) as ->.
  { apply (grid_ext q p Nk Nz); try done.
    intros k z Hk Hz. rewrite E1, E2 by done. f_equal.
    unfold pgg_formula. ring. }
  by exists tr1, tr2, p.
Qed.

Lemma get_pgg_exchange_witness :
  ∃ tr1 tr2 p,
    get_pgg ones_grid ones2 twos2 zeros2 ones2 ones2 twos2 zeros2 true flat_ptc []
    = (flat_ptc, tr1, Return p) ∧
    get_pgg ones_grid ones2 ones2 twos2 zeros2 twos2 zeros2 ones2 true flat_ptc []
    = (flat_ptc, tr2, Return p) ∧
    shape p = [2; 2].
Proof.
  apply (get_pgg_exchange flat_ptc ones_grid ones2 twos2 zeros2 ones2
           ones2 twos2 zeros2 true 2 2 1%Qc); try reflexivity.
  - simpl. by repeat constructor.
  - apply flat_ptc_ready.
Defined.

(** ** [get_pii] *)

Lemma unpack2_run {S} (x y : ndarray) (s : S) tr :
  lift (unpack2 (Some [x; y])) s tr = (s, tr, Return (x, y)).
Proof. reflexivity. Qed.

Lemma unpack4_run {S} (w x y z : ndarray) (s : S) tr :
  lift (unpack4 (Some [w; x; y; z])) s tr = (s, tr, Return (w, x, y, z)).
Proof. reflexivity. Qed.

Section PII.
Context (self : PTCalculator) (Pd1d1 g4 c11 c21 cd1 c12 c22 cd2 : ndarray).
Context (Nk Nz : nat).
Context (a00e c00e a0e0e a0b0b ae2e2 ab2b2 a0e2 b0e2 d0ee2 d0bb2 : ndarray).
Hypothesis Hg : shape g4 = [Nz].
Hypothesis H21 : shape c21 = [Nz].
Hypothesis Hd1 : shape cd1 = [Nz].
Hypothesis H22 : shape c22 = [Nz].
Hypothesis Hd2 : shape cd2 = [Nz].
Hypothesis Hta : ia_ta self = Some [a00e; c00e; a0e0e; a0b0b].
Hypothesis Htt : ia_tt self = Some [ae2e2; ab2b2].
Hypothesis Hmix : ia_mix self = Some [a0e2; b0e2; d0ee2; d0bb2].

Lemma get_pii_bb_run tr :
  shape a0b0b = [Nk] → shape ab2b2 = [Nk] → shape d0bb2 = [Nk] →
  ∃ p, get_pii Pd1d1 g4 c11 c21 cd1 c12 c22 cd2 true self tr
       = (self, tr ++ [EvRead "ia_ta"; EvRead "ia_tt"; EvRead "ia_mix"], Return p) ∧
       denotes p 2 Nk Nz
         (λ k z, pii_bb_formula (get g4 0 z) (get c21 0 z) (get cd1 0 z)
                   (get c22 0 z) (get cd2 0 z)
                   (get a0b0b 0 k) (get ab2b2 0 k) (get d0bb2 0 k)).
Proof using Hg H21 Hd1 H22 Hd2 Hta Htt Hmix.
  intros S1 S2 S3.
  pose proof (denotes_vector _ _ Hg) as Dg.
  pose proof (denotes_vector _ _ H21) as D21.
  pose proof (denotes_vector _ _ Hd1) as Dd1.
  pose proof (denotes_vector _ _ H22) as D22.
  pose proof (denotes_vector _ _ Hd2) as Dd2.
  pose proof (denotes_vector _ _ S1) as Da.
  pose proof (denotes_vector _ _ S2) as Db.
  pose proof (denotes_vector _ _ S3) as Dc.
  unfold get_pii.
  rewrite (run_bind _ _ _ _ _ _ _ (read_bundle_run "ia_ta" ia_ta self tr)), Hta.
  cbv beta. rewrite (run_bind _ _ _ _ _ _ _ (unpack4_run _ _ _ _ _ _)). cbv beta iota.
  rewrite (run_bind _ _ _ _ _ _ _ (read_bundle_run "ia_tt" ia_tt self _)), Htt.
  cbv beta. rewrite (run_bind _ _ _ _ _ _ _ (unpack2_run _ _ _ _)). cbv beta iota.
  rewrite (run_bind _ _ _ _ _ _ _ (read_bundle_run "ia_mix" ia_mix self _)), Hmix.
  cbv beta. rewrite (run_bind _ _ _ _ _ _ _ (unpack4_run _ _ _ _ _ _)). cbv beta iota.
  rewrite <- !app_assoc. simpl app.
  match goal with |- ∃ _, ?m _ ?t = _ ∧ denotes _ _ _ _ ?F =>
    destruct (evals_silent self m 2 Nk Nz F t) as (x & Hx & Dx)
  end.
  - eapply evals_ext; [ev|].
    intros k z Hk Hz. cbv beta. ix_norm Hk Hz. unfold pii_bb_formula. ring.
  - em.
  - eexists; split; eassumption.
Qed.

Lemma get_pii_ee_run tr :
  shape Pd1d1 = [Nk; Nz] → wf Pd1d1 → shape c11 = [Nz] → shape c12 = [Nz] →
  shape a00e = [Nk] → shape c00e = [Nk] → shape a0e0e = [Nk] →
  shape ae2e2 = [Nk] → shape a0e2 = [Nk] → shape b0e2 = [Nk] →
  shape d0ee2 = [Nk] →
  ∃ p, get_pii Pd1d1 g4 c11 c21 cd1 c12 c22 cd2 false self tr
       = (self, tr ++ [EvRead "ia_ta"; EvRead "ia_tt"; EvRead "ia_mix"], Return p) ∧
       denotes p 2 Nk Nz
         (λ k z, pii_ee_formula (get Pd1d1 k z) (get g4 0 z)
                   (get c11 0 z) (get c21 0 z) (get cd1 0 z)
                   (get c12 0 z) (get c22 0 z) (get cd2 0 z)
                   (get a00e 0 k) (get c00e 0 k) (get a0e0e 0 k) (get ae2e2 0 k)
                   (get a0e2 0 k) (get b0e2 0 k) (get d0ee2 0 k)).
Proof using Hg H21 Hd1 H22 Hd2 Hta Htt Hmix.
  intros HP WP H11 H12 S1 S2 S3 S4 S5 S6 S7.
  pose proof (denotes_grid _ _ _ HP WP) as DP.
  pose proof (denotes_vector _ _ Hg) as Dg.
  pose proof (denotes_vector _ _ H11) as D11.
  pose proof (denotes_vector _ _ H12) as D12.
  pose proof (denotes_vector _ _ H21) as D21.
  pose proof (denotes_vector _ _ Hd1) as Dd1.
  pose proof (denotes_vector _ _ H22) as D22.
  pose proof (denotes_vector _ _ Hd2) as Dd2.
  pose proof (denotes_vector _ _ S1) as Da1.
  pose proof (denotes_vector _ _ S2) as Da2.
  pose proof (denotes_vector _ _ S3) as Da3.
  pose proof (denotes_vector _ _ S4) as Da4.
  pose proof (denotes_vector _ _ S5) as Da5.
  pose proof (denotes_vector _ _ S6) as Da6.
  pose proof (denotes_vector _ _ S7) as Da7.
  unfold get_pii.
  rewrite (run_bind _ _ _ _ _ _ _ (read_bundle_run "ia_ta" ia_ta self tr)), Hta.
  cbv beta. rewrite (run_bind _ _ _ _ _ _ _ (unpack4_run _ _ _ _ _ _)). cbv beta iota.
  rewrite (run_bind _ _ _ _ _ _ _ (read_bundle_run "ia_tt" ia_tt self _)), Htt.
  cbv beta. rewrite (run_bind _ _ _ _ _ _ _ (unpack2_run _ _ _ _)). cbv beta iota.
  rewrite (run_bind _ _ _ _ _ _ _ (read_bundle_run "ia_mix" ia_mix self _)), Hmix.
  cbv beta. rewrite (run_bind _ _ _ _ _ _ _ (unpack4_run _ _ _ _ _ _)). cbv beta iota.
  rewrite <- !app_assoc. simpl app.
  match goal with |- ∃ _, ?m _ ?t = _ ∧ denotes _ _ _ _ ?F =>
    destruct (evals_silent self m 2 Nk Nz F t) as (x & Hx & Dx)
  end.
  - eapply evals_ext; [ev|].
    intros k z Hk Hz. cbv beta. ix_norm Hk Hz. unfold pii_ee_formula. ring.
  - em.
  - eexists; split; eassumption.
Qed.
End PII.

(** X3.  With the three intrinsic-alignment bundles populated by vectors
    over [Nk] wavenumbers, a grid [Pd1d1] and vectors over [Nz] redshifts,
    [get_pii] with [return_bb] false reads the three bundles and returns the
    [Nk] x [Nz] grid of the E-mode formula of lines 335-340. *)
Theorem get_pii_ee_grid self Pd1d1 g4 c11 c21 cd1 c12 c22 cd2 Nk Nz
    a00e c00e a0e0e a0b0b ae2e2 ab2b2 a0e2 b0e2 d0ee2 d0bb2 :
  shape Pd1d1 = [Nk; Nz] → wf Pd1d1 → shape g4 = [Nz] →
  shape c11 = [Nz] → shape c21 = [Nz] → shape cd1 = [Nz] →
  shape c12 = [Nz] → shape c22 = [Nz] → shape cd2 = [Nz] →
  ia_ta self = Some [a00e; c00e; a0e0e; a0b0b] →
  ia_tt self = Some [ae2e2; ab2b2] →
  ia_mix self = Some [a0e2; b0e2; d0ee2; d0bb2] →
  shape a00e = [Nk] → shape c00e = [Nk] → shape a0e0e = [Nk] →
  shape ae2e2 = [Nk] → shape a0e2 = [Nk] → shape b0e2 = [Nk] →
  shape d0ee2 = [Nk] →
  ∀ tr, ∃ p,
    get_pii Pd1d1 g4 c11 c21 cd1 c12 c22 cd2 false self tr
    = (self, tr ++ ia_reads, Return p) ∧
    shape p = [Nk; Nz] ∧
    ∀ k z, k < Nk → z < Nz →
      entry p k z
      = Some (pii_ee_formula (get Pd1d1 k z) (get g4 0 z)
                (get c11 0 z) (get c21 0 z) (get cd1 0 z)
                (get c12 0 z) (get c22 0 z) (get cd2 0 z)
                (get a00e 0 k) (get c00e 0 k) (get a0e0e 0 k) (get ae2e2 0 k)
                (get a0e2 0 k) (get b0e2 0 k) (get d0ee2 0 k)).
Proof.
  intros HP WP Hg H11 H21 Hd1 H12 H22 Hd2 Hta Htt Hmix S1 S2 S3 S4 S5 S6 S7 tr.
  destruct (get_pii_ee_run self Pd1d1 g4 c11 c21 cd1 c12 c22 cd2 Nk Nz
              a00e c00e a0e0e a0b0b ae2e2 ab2b2 a0e2 b0e2 d0ee2 d0bb2
              Hg H21 Hd1 H22 Hd2 Hta Htt Hmix tr
              HP WP H11 H12 S1 S2 S3 S4 S5 S6 S7)
    as (p & R & D).
  exists p. split; [exact R|].
  destruct (denotes_shape2 _ _ _ _ D) as [Sp _]. split; [exact Sp|].
  destruct D as (_ & _ & _ & E). exact E.
Qed.

Lemma get_pii_ee_grid_witness :
  ∃ p,
    get_pii ones_grid ones2 ones2 twos2 ones2 twos2 ones2 threes2 false
      ia_full_ptc []
    = (ia_full_ptc, ia_reads, Return p) ∧
    shape p = [2; 2] ∧
    ∀ k z, k < 2 → z < 2 →
      entry p k z
      = Some (pii_ee_formula (get ones_grid k z) (get ones2 0 z)
                (get ones2 0 z) (get twos2 0 z) (get ones2 0 z)
                (get twos2 0 z) (get ones2 0 z) (get threes2 0 z)
                (get ones2 0 k) (get twos2 0 k) (get threes2 0 k) (get twos2 0 k)
                (get ones2 0 k) (get twos2 0 k) (get ones2 0 k)).
Proof.
  apply (get_pii_ee_grid ia_full_ptc ones_grid ones2 ones2 twos2 ones2
           twos2 ones2 threes2 2 2
           ones2 twos2 threes2 ones2 twos2 ones2 ones2 twos2 ones2 twos2);
    try reflexivity.
  simpl. by repeat constructor.
Defined.

(** X4.  The E mode of [get_pii] is symmetric in its two tracers:
    exchanging [(c11, c21, cd1)] with [(c12, c22, cd2)] returns the same
    grid. *)
Theorem get_pii_ee_exchange self Pd1d1 g4 c11 c21 cd1 c12 c22 cd2 Nk Nz
    a00e c00e a0e0e a0b0b ae2e2 ab2b2 a0e2 b0e2 d0ee2 d0bb2 :
  shape Pd1d1 = [Nk; Nz] → wf Pd1d1 → shape g4 = [Nz] →
  shape c11 = [Nz] → shape c21 = [Nz] → shape cd1 = [Nz] →
  shape c12 = [Nz] → shape c22 = [Nz] → shape cd2 = [Nz] →
  ia_ta self = Some [a00e; c00e; a0e0e; a0b0b] →
  ia_tt self = Some [ae2e2; ab2b2] →
  ia_mix self = Some [a0e2; b0e2; d0ee2; d0bb2] →
  shape a00e = [Nk] → shape c00e = [Nk] → shape a0e0e = [Nk] →
  shape ae2e2 = [Nk] → shape a0e2 = [Nk] → shape b0e2 = [Nk] →
  shape d0ee2 = [Nk] →
  ∀ tr, ∃ p,
    get_pii Pd1d1 g4 c11 c21 cd1 c12 c22 cd2 false self tr
    = (self, tr ++ ia_reads, Return p) ∧
    get_pii Pd1d1 g4 c12 c22 cd2 c11 c21 cd1 false self tr
    = (self, tr ++ ia_reads, Return p).
Proof.
  intros HP WP Hg H11 H21 Hd1 H12 H22 Hd2 Hta Htt Hmix S1 S2 S3 S4 S5 S6 S7 tr.
  destruct (get_pii_ee_run self Pd1d1 g4 c11 c21 cd1 c12 c22 cd2 Nk Nz
              a00e c00e a0e0e a0b0b ae2e2 ab2b2 a0e2 b0e2 d0ee2 d0bb2
              Hg H21 Hd1 H22 Hd2 Hta Htt Hmix tr
              HP WP H11 H12 S1 S2 S3 S4 S5 S6 S7)
    as (p & Rp & Dp).
  destruct (get_pii_ee_run self Pd1d1 g4 c12 c22 cd2 c11 c21 cd1 Nk Nz
              a00e c00e a0e0e a0b0b ae2e2 ab2b2 a0e2 b0e2 d0ee2 d0bb2
              Hg H22 Hd2 H21 Hd1 Hta Htt Hmix tr
              HP WP H12 H11 S1 S2 S3 S4 S5 S6 S7)
    as (q & Rq & Dq).
  assert (q = p) as ->.
  { destruct (denotes_shape2 _ _ _ _ Dp) as [Sp Wp].
    destruct (denotes_shape2 _ _ _ _ Dq) as [Sq Wq].
    destruct Dp as (_ & _ & _ & Ep). destruct Dq as (_ & _ & _ & Eq).
    apply (grid_ext q p Nk Nz); try done.
    intros k z Hk Hz. rewrite Ep, Eq by done. f_equal.
    unfold pii_ee_formula. ring. }
  by exists p.
Qed.

Lemma get_pii_ee_exchange_witness :
  ∃ p,
    get_pii ones_grid ones2 ones2 twos2 ones2 twos2 ones2 threes2 false
      ia_full_ptc []
    = (ia_full_ptc, ia_reads, Return p) ∧
    get_pii ones_grid ones2 twos2 ones2 threes2 ones2 twos2 ones2 false
      ia_full_ptc []
    = (ia_full_ptc, ia_reads, Return p).
Proof.
  apply (get_pii_ee_exchange ia_full_ptc ones_grid ones2 ones2 twos2 ones2
           twos2 ones2 threes2 2 2
           ones2 twos2 threes2 ones2 twos2 ones2 ones2 twos2 ones2 twos2);
    try reflexivity.
  simpl. by repeat constructor.
Defined.

(** X5.  With [return_bb] true [get_pii] returns the [Nk] x [Nz] grid of
    the B-mode formula of lines 331-333,
    [cd1 cd2 a0b0b + cd1 c22 g4 ab2b2 + (cd1 c22 + cd1 c21) g4 d0bb2]; it
    does not use [Pd1d1], [c11] and [c12], whatever they are. *)
Theorem get_pii_bb_grid self Pd1d1 g4 c11 c21 cd1 c12 c22 cd2 Nk Nz
    a00e c00e a0e0e a0b0b ae2e2 ab2b2 a0e2 b0e2 d0ee2 d0bb2 :
  shape g4 = [Nz] → shape c21 = [Nz] → shape cd1 = [Nz] →
  shape c22 = [Nz] → shape cd2 = [Nz] →
  ia_ta self = Some [a00e; c00e; a0e0e; a0b0b] →
  ia_tt self = Some [ae2e2; ab2b2] →
  ia_mix self = Some [a0e2; b0e2; d0ee2; d0bb2] →
  shape a0b0b = [Nk] → shape ab2b2 = [Nk] → shape d0bb2 = [Nk] →
  ∀ tr, ∃ p,
    get_pii Pd1d1 g4 c11 c21 cd1 c12 c22 cd2 true self tr
    = (self, tr ++ ia_reads, Return p) ∧
    shape p = [Nk; Nz] ∧
    (∀ k z, k < Nk → z < Nz →
       entry p k z
       = Some (pii_bb_formula (get g4 0 z) (get c21 0 z) (get cd1 0 z)
                 (get c22 0 z) (get cd2 0 z)
                 (get a0b0b 0 k) (get ab2b2 0 k) (get d0bb2 0 k))) ∧
    ∀ Pd1d1' c11' c12',
      get_pii Pd1d1' g4 c11' c21 cd1 c12' c22 cd2 true self tr
      = (self, tr ++ ia_reads, Return p).
Proof.
  intros Hg H21 Hd1 H22 Hd2 Hta Htt Hmix S1 S2 S3 tr.
  destruct (get_pii_bb_run self Pd1d1 g4 c11 c21 cd1 c12 c22 cd2 Nk Nz
              a00e c00e a0e0e a0b0b ae2e2 ab2b2 a0e2 b0e2 d0ee2 d0bb2
              Hg H21 Hd1 H22 Hd2 Hta Htt Hmix tr S1 S2 S3)
    as (p & Rp & Dp).
  exists p. split; [exact Rp|].
  destruct (denotes_shape2 _ _ _ _ Dp) as [Sp Wp]. split; [exact Sp|].
  split; [by destruct Dp as (_ & _ & _ & Ep)|].
  intros P' c11' c12'.
  destruct (get_pii_bb_run self P' g4 c11' c21 cd1 c12' c22 cd2 Nk Nz
              a00e c00e a0e0e a0b0b ae2e2 ab2b2 a0e2 b0e2 d0ee2 d0bb2
              Hg H21 Hd1 H22 Hd2 Hta Htt Hmix tr S1 S2 S3)
    as (q & Rq & Dq).
  rewrite Rq. do 2 f_equal.
  destruct (denotes_shape2 _ _ _ _ Dq) as [Sq Wq].
  destruct Dp as (_ & _ & _ & Ep). destruct Dq as (_ & _ & _ & Eq).
  apply (grid_ext q p Nk Nz); try done.
  intros k z Hk Hz. by rewrite Ep, Eq.
Qed.

Lemma get_pii_bb_grid_witness :
  ∃ p,
    get_pii ones_grid ones2 ones2 twos2 ones2 twos2 ones2 threes2 true
      ia_full_ptc []
    = (ia_full_ptc, ia_reads, Return p) ∧
    shape p = [2; 2] ∧
    (∀ k z, k < 2 → z < 2 →
       entry p k z
       = Some (pii_bb_formula (get ones2 0 z) (get twos2 0 z) (get ones2 0 z)
                 (get ones2 0 z) (get threes2 0 z)
                 (get ones2 0 k) (get ones2 0 k) (get twos2 0 k))) ∧
    ∀ Pd1d1' c11' c12',
      get_pii Pd1d1' ones2 c11' twos2 ones2 c12' ones2 threes2 true ia_full_ptc []
      = (ia_full_ptc, ia_reads, Return p).
Proof.
  apply (get_pii_bb_grid ia_full_ptc ones_grid ones2 ones2 twos2 ones2
           twos2 ones2 threes2 2 2
           ones2 twos2 threes2 ones2 twos2 ones2 ones2 twos2 ones2 twos2);
    reflexivity.
Defined.

(** ** The combination methods only read the calculator *)

Section Observes.
Context {S : Type} (P : event → Prop).

Lemma observes_ret {A} (a : A) : observes (S:=S) P (ret a).
Proof. intros s. exists [], (Return a). split; [done|]. intros tr. by rewrite app_nil_r. Qed.

Lemma observes_raise {A} e : observes (S:=S) (A:=A) P (raise e).
Proof. intros s. exists [], (Raise e). split; [done|]. intros tr. by rewrite app_nil_r. Qed.

Lemma observes_lift {A} (r : result A) : observes (S:=S) P (lift r).
Proof. intros s. exists [], r. split; [done|]. intros tr. by rewrite app_nil_r. Qed.

Lemma observes_gets {A} (f : S → A) : observes P (gets f).
Proof. intros s. exists [], (Return (f s)). split; [done|]. intros tr. by rewrite app_nil_r. Qed.

Lemma observes_emit e : P e → observes (S:=S) P (emit e).
Proof. intros He s. exists [e], (Return tt). split; [by repeat constructor|done]. Qed.

Lemma observes_bind {A B} (m : M S A) (f : A → M S B) :
  observes P m → (∀ a, observes P (f a)) → observes P (bind m f).
Proof.
  intros Hm Hf s. destruct (Hm s) as (ev1 & r1 & P1 & E1).
  destruct r1 as [e|a].
  - exists ev1, (Raise e). split; [done|]. intros tr. unfold bind. by rewrite E1.
  - destruct (Hf a s) as (ev2 & r2 & P2 & E2).
    exists (ev1 ++ ev2), r2. split; [by apply Forall_app|].
    intros tr. unfold bind. by rewrite E1, E2, app_assoc.
Qed.

Lemma observes_arr_op f (ma mb : M S ndarray) :
  observes P ma → observes P mb → observes P (arr_op f ma mb).
Proof.
  intros Ha Hb. unfold arr_op. apply observes_bind; [done|]. intros a.
  apply observes_bind; [done|]. intros b. apply observes_lift.
Qed.

Lemma observes_row (ma : M S ndarray) : observes P ma → observes P (row ma).
Proof.
  intros Ha. unfold row. apply observes_bind; [done|]. intros a. apply observes_lift.
Qed.

Lemma observes_col (ma : M S ndarray) : observes P ma → observes P (col ma).
Proof.
  intros Ha. unfold col. apply observes_bind; [done|]. intros a. apply observes_lift.
Qed.
End Observes.

Lemma reads_here attr attrs : attr ∈ attrs → reads attrs (EvRead attr).
Proof. intros H. by exists attr. Qed.

Ltac ob_step :=
  lazymatch goal with
  | |- observes _ (ret _) => apply observes_ret
  | |- observes _ (raise _) => apply observes_raise
  | |- observes _ (lift _) => apply observes_lift
  | |- observes _ (lit _) => apply observes_ret
  | |- observes _ (gets _) => apply observes_gets
  | |- observes _ (emit _) =>
      apply observes_emit;
      first [ apply reads_here; solve [repeat constructor]
            | left; apply reads_here; solve [repeat constructor]
            | by right ]
  | |- observes _ (bind _ _) => apply observes_bind; [|intros ?]
  | |- observes _ (arr_op _ _ _) => apply observes_arr_op
  | |- observes _ (row _) => apply observes_row
  | |- observes _ (col _) => apply observes_col
  | |- observes _ (if ?b then _ else _) => destruct b
  | |- observes _ (let '(_, _) := ?x in _) => destruct x
  end.

Ltac ob :=
  repeat first [ob_step | match goal with u : (_ * _)%type |- _ => destruct u end].

(** X6.  The five combination methods only read the calculator: whatever
    their arguments and whether they return or raise, they leave the
    calculator as it was, and the only events are reads of [dd_bias] for
    [get_pgg] and [get_pgm], of [ia_ta] and [ia_mix] for [get_pim] and
    [get_pgi] (with its warning), and of the three intrinsic-alignment
    bundles for [get_pii]. *)
Theorem combination_methods_read_only :
  (∀ Pd1d1 g4 b11 b21 bs1 b12 b22 bs2 sub_lowk,
     observes (reads ["dd_bias"])
       (get_pgg Pd1d1 g4 b11 b21 bs1 b12 b22 bs2 sub_lowk)) ∧
  (∀ Pd1d1 g4 b1 b2 bs,
     observes (reads ["dd_bias"]) (get_pgm Pd1d1 g4 b1 b2 bs)) ∧
  (∀ Pd1d1 g4 c1 c2 cd,
     observes (reads ["ia_ta"; "ia_mix"]) (get_pim Pd1d1 g4 c1 c2 cd)) ∧
  (∀ Pd1d1 g4 b1 b2 bs c1 c2 cd,
     observes (reads_or_warns ["ia_ta"; "ia_mix"])
       (get_pgi Pd1d1 g4 b1 b2 bs c1 c2 cd)) ∧
  (∀ Pd1d1 g4 c11 c21 cd1 c12 c22 cd2 return_bb,
     observes (reads ["ia_ta"; "ia_tt"; "ia_mix"])
       (get_pii Pd1d1 g4 c11 c21 cd1 c12 c22 cd2 return_bb)).
Proof.
  repeat split; intros.
  - unfold get_pgg, self_dd_bias, read_bundle. ob.
  - unfold get_pgm, self_dd_bias, read_bundle. ob.
  - unfold get_pim, read_bundle. ob.
  - unfold get_pgi, read_bundle. ob.
  - unfold get_pii, read_bundle. ob.
Qed.

(** ** [__init__] *)

Lemma bind_lift_inv {S A B} (r : result A) (f : A → M S B) s tr s' tr' b :
  bind (lift r) f s tr = (s', tr', Return b) →
  ∃ a, r = Return a ∧ f a s tr = (s', tr', Return b).
Proof.
  unfold bind, lift. destruct r as [e|a]; [done|]. intros H. by exists a.
Qed.

Lemma init_inv {S} rt nc ia lmin lmax nk pad lo hi pw cw (s : S) tr s' tr' c :
  PTCalculator_init rt nc ia lmin lmax nk pad lo hi pw cw s tr = (s', tr', Return c) →
  HAVE_FASTPT rt = true ∧ s' = s ∧ tr' = tr ++ [EvEngine "FASTPT"] ∧
  ∃ points grid n engine,
    nk_total lmin lmax nk = Return points ∧
    np_logspace rt lmin lmax points = Return grid ∧
    len grid = Return n ∧
    fpt_FASTPT rt grid (to_do_list nc ia) lo hi (pad * Qc_of_Z (Z.of_nat n))%Qc
    = Return engine ∧
    c = {| with_NC := nc; with_IA := ia; P_window := pw; C_window := cw;
           ks := grid; pt := engine;
           dd_bias := None; ia_ta := None; ia_tt := None; ia_mix := None |}.
Proof.
  unfold PTCalculator_init. destruct (HAVE_FASTPT rt); simpl negb; cbv iota; [|done].
  intros H.
  apply bind_lift_inv in H as (points & Hp & H).
  apply bind_lift_inv in H as (grid & Hg & H).
  apply bind_lift_inv in H as (n & Hn & H).
  unfold bind at 1 in H. unfold emit in H.
  apply bind_lift_inv in H as (engine & He & H).
  injection H as <- <- <-.
  split; [done|]. split; [done|]. split; [done|].
  by exists points, grid, n, engine.
Qed.


Lemma nk_total_default : nk_total (Q2Qc (-4)) (Q2Qc 2) (Q2Qc 20) = Return 120%Z.
Proof. vm_compute. reflexivity. Qed.

(** The number of wavenumbers follows the float64 product, not the exact
    one: for [log10k_min = -4.1], [log10k_max = 2] and 20 per decade the
    difference is the float below 6.1 and its product with 20 rounds to
    122.0, where the exact product truncates to 121; for [0.1], [0.3] and
    10 per decade the float product is below 2 and truncates to 1. *)
Example nk_total_rounding :
  nk_total (f64 (-4.1)) (Q2Qc 2) (Q2Qc 20) = Return 122%Z ∧
  py_int ((Q2Qc 2 - f64 (-4.1)) * Q2Qc 20) = 121%Z ∧
  nk_total (f64 0.1) (f64 0.3) (Q2Qc 10) = Return 1%Z ∧
  py_int ((Q2Qc 0.3 - Q2Qc 0.1) * Q2Qc 10) = 2%Z.
Proof. repeat split; vm_compute; reflexivity. Qed.



(** X8.  On a calculator as [__init__] returns it, before any [update_pk],
    every combination method raises a [TypeError] at its first read of a
    bundle, which is still [None]: [get_pgg] and [get_pgm] (for a vector
    [g4]) at [self.dd_bias[2]], [get_pim], [get_pgi] (after its warning) and
    [get_pii] at the unpacking of [self.ia_ta].  The calculator is
    unchanged. *)
Theorem fresh_calculator_methods_raise {S} rt nc ia lmin lmax nk pad lo hi pw cw
    (s s' : S) tr0 tr0' c :
  PTCalculator_init rt nc ia lmin lmax nk pad lo hi pw cw s tr0 = (s', tr0', Return c) →
  (∀ Pd1d1 g4 b11 b21 bs1 b12 b22 bs2 sub_lowk n tr,
     shape g4 = [n] →
     get_pgg Pd1d1 g4 b11 b21 bs1 b12 b22 bs2 sub_lowk c tr
     = (c, tr ++ [EvRead "dd_bias"], Raise not_subscriptable)) ∧
  (∀ Pd1d1 g4 b1 b2 bs n tr,
     shape g4 = [n] →
     get_pgm Pd1d1 g4 b1 b2 bs c tr
     = (c, tr ++ [EvRead "dd_bias"], Raise not_subscriptable)) ∧
  (∀ Pd1d1 g4 c1 c2 cd tr,
     get_pim Pd1d1 g4 c1 c2 cd c tr
     = (c, tr ++ [EvRead "ia_ta"], Raise not_unpackable)) ∧
  (∀ Pd1d1 g4 b1 b2 bs c1 c2 cd tr,
     get_pgi Pd1d1 g4 b1 b2 bs c1 c2 cd c tr
     = (c, tr ++ [EvWarn pgi_warning; EvRead "ia_ta"], Raise not_unpackable)) ∧
  (∀ Pd1d1 g4 c11 c21 cd1 c12 c22 cd2 return_bb tr,
     get_pii Pd1d1 g4 c11 c21 cd1 c12 c22 cd2 return_bb c tr
     = (c, tr ++ [EvRead "ia_ta"], Raise not_unpackable)).
Proof.
  intros H.
  apply init_inv in H as (_ & _ & _ & points & grid & n0 & engine & _ & _ & _ & _ & ->).
  split; [|split; [|split; [|split]]]; intros.
  - destruct g4 as [|v|]; try discriminate. reflexivity.
  - destruct g4 as [|v|]; try discriminate. reflexivity.
  - reflexivity.
  - unfold get_pgi, bind, emit, read_bundle, gets, lift. simpl.
    by rewrite <- app_assoc.
  - reflexivity.
Qed.

Lemma fresh_calculator_methods_raise_witness :
  ∃ c,
    PTCalculator_init (S:=unit) sample_rt true true (Q2Qc (-4)) (Q2Qc 2) (Q2Qc 20)
      (Q2Qc 1) (Q2Qc (-5)) (Q2Qc 3) None (Q2Qc 0.75) tt []
    = (tt, [EvEngine "FASTPT"], Return c) ∧
    get_pgm unit_grid one1 two1 zero1 zero1 c []
    = (c, [EvRead "dd_bias"], Raise not_subscriptable) ∧
    get_pim unit_grid one1 two1 zero1 zero1 c []
    = (c, [EvRead "ia_ta"], Raise not_unpackable).
Proof.
  destruct (PTCalculator_init (S:=unit) sample_rt true true (Q2Qc (-4)) (Q2Qc 2)
              (Q2Qc 20) (Q2Qc 1) (Q2Qc (-5)) (Q2Qc 3) None (Q2Qc 0.75) tt [])
    as [[[] tr'] [e|c]] eqn:R; [vm_compute in R; discriminate R|].
  assert (tr' = [EvEngine "FASTPT"]) as ->.
  { by apply init_inv in R as (_ & _ & -> & _). }
  exists c. split; [reflexivity|].
  destruct (fresh_calculator_methods_raise _ _ _ _ _ _ _ _ _ _ _ _ _ _ _ _ R)
    as (_ & Hpgm & Hpim & _).
  split; [by apply (Hpgm unit_grid one1 two1 zero1 zero1 1 [])|].
  apply (Hpim unit_grid one1 two1 zero1 zero1 []).
Defined.

(** ** [update_pk], [_get_dd_bias] and [_get_ia_bias] *)

Lemma update_pk_run self pk tr dd ta tq mix :
  shape pk = shape (ks self) →
  (with_NC self = true →
   one_loop_dd_bias (pt self) pk (P_window self) (C_window self) = Return dd) →
  (with_IA self = true →
   IA_ta (pt self) pk (P_window self) (C_window self) = Return ta ∧
   IA_tt (pt self) pk (P_window self) (C_window self) = Return tq ∧
   IA_mix (pt self) pk (P_window self) (C_window self) = Return mix) →
  update_pk pk self tr
  = (refreshed self dd ta tq mix, tr ++ refresh_events self, Return tt).
Proof.
  intros Hs Hdd Hia. destruct self as [nc ia pw cw grid engine d0 a0 t0 m0].
  simpl in *.
  unfold update_pk, _get_dd_bias, _get_ia_bias, refreshed, refresh_events.
  unfold bind, gets, emit, modify, lift, ret. simpl.
  rewrite decide_False by (by intros ?).
  destruct nc, ia; simpl.
  - rewrite (Hdd eq_refl). simpl. destruct (Hia eq_refl) as (E1 & E2 & E3).
    rewrite E1. simpl. rewrite E2. simpl. rewrite E3. simpl.
    by rewrite <- !app_assoc.
  - rewrite (Hdd eq_refl). simpl. by rewrite ?app_nil_r.
  - destruct (Hia eq_refl) as (E1 & E2 & E3).
    rewrite E1. simpl. rewrite E2. simpl. rewrite E3. simpl.
    by rewrite <- !app_assoc.
  - by rewrite ?app_nil_r.
Qed.

(** X9.  When the spectrum has the shape of the grid and FAST-PT returns,
    [update_pk] returns with each bundle whose flag is set replaced by what
    FAST-PT returned for this spectrum ([dd_bias] from [one_loop_dd_bias]
    under [with_NC]; [ia_ta], [ia_tt] and [ia_mix] from [IA_ta], [IA_tt] and
    [IA_mix] under [with_IA]), the other bundles kept, and exactly these
    FAST-PT calls made, in this order, each with the calculator's
    [P_window] and [C_window]. *)
Theorem update_pk_refreshes self pk tr dd ta tq mix :
  shape pk = shape (ks self) →
  (with_NC self = true →
   one_loop_dd_bias (pt self) pk (P_window self) (C_window self) = Return dd) →
  (with_IA self = true →
   IA_ta (pt self) pk (P_window self) (C_window self) = Return ta ∧
   IA_tt (pt self) pk (P_window self) (C_window self) = Return tq ∧
   IA_mix (pt self) pk (P_window self) (C_window self) = Return mix) →
  ∃ self',
    update_pk pk self tr = (self', tr ++ refresh_events self, Return tt) ∧
    same_setup self' self ∧
    dd_bias self' = (if with_NC self then Some dd else dd_bias self) ∧
    ia_ta self' = (if with_IA self then Some ta else ia_ta self) ∧
    ia_tt self' = (if with_IA self then Some tq else ia_tt self) ∧
    ia_mix self' = (if with_IA self then Some mix else ia_mix self).
Proof.
  intros Hs Hdd Hia. exists (refreshed self dd ta tq mix).
  split; [by apply update_pk_run|]. by repeat split.
Qed.

Lemma update_pk_refreshes_witness :
  ∃ self',
    update_pk ones2 (sample_ptc true false) []
    = (self', [EvEngine "one_loop_dd_bias"], Return tt) ∧
    same_setup self' (sample_ptc true false) ∧
    dd_bias self'
    = Some [ones2; ones2; ones2; ones2; ones2; ones2; ones2; Scalar 1%Qc] ∧
    ia_ta self' = None ∧ ia_tt self' = None ∧ ia_mix self' = None.
Proof.
  apply (update_pk_refreshes (sample_ptc true false) ones2 []
           [ones2; ones2; ones2; ones2; ones2; ones2; ones2; Scalar 1%Qc]
           [] [] []).
  - reflexivity.
  - reflexivity.
  - discriminate.
Defined.

Lemma update_pk_inv self pk tr s' tr' :
  update_pk pk self tr = (s', tr', Return tt) →
  shape pk = shape (ks self) ∧
  ∃ dd ta tq mix,
    (with_NC self = true →
     one_loop_dd_bias (pt self) pk (P_window self) (C_window self) = Return dd) ∧
    (with_IA self = true →
     IA_ta (pt self) pk (P_window self) (C_window self) = Return ta ∧
     IA_tt (pt self) pk (P_window self) (C_window self) = Return tq ∧
     IA_mix (pt self) pk (P_window self) (C_window self) = Return mix) ∧
    s' = refreshed self dd ta tq mix.
Proof.
  destruct self as [nc ia pw cw grid engine d0 a0 t0 m0].
  unfold update_pk, _get_dd_bias, _get_ia_bias, refreshed.
  unfold bind, gets, emit, modify, lift, ret, raise. simpl.
  case_decide as Hs; [done|].
  intros H. split; [by destruct (decide (shape pk = shape grid)); [|exfalso; auto]|].
  destruct nc, ia; simpl in H.
  - destruct (one_loop_dd_bias engine pk pw cw) as [|dd] eqn:E0; [done|]. simpl in H.
    destruct (IA_ta engine pk pw cw) as [|ta] eqn:E1; [done|]. simpl in H.
    destruct (IA_tt engine pk pw cw) as [|tq] eqn:E2; [done|]. simpl in H.
    destruct (IA_mix engine pk pw cw) as [|mix] eqn:E3; [done|]. simpl in H.
    injection H as <- _. by exists dd, ta, tq, mix.
  - destruct (one_loop_dd_bias engine pk pw cw) as [|dd] eqn:E0; [done|]. simpl in H.
    injection H as <- _. by exists dd, [], [], [].
  - destruct (IA_ta engine pk pw cw) as [|ta] eqn:E1; [done|]. simpl in H.
    destruct (IA_tt engine pk pw cw) as [|tq] eqn:E2; [done|]. simpl in H.
    destruct (IA_mix engine pk pw cw) as [|mix] eqn:E3; [done|]. simpl in H.
    injection H as <- _. by exists [], ta, tq, mix.
  - injection H as <- _. by exists [], [], [], [].
Qed.

Lemma refreshed_twice self dd ta tq mix dd' ta' tq' mix' :
  refreshed (refreshed self dd ta tq mix) dd' ta' tq' mix'
  = refreshed self dd' ta' tq' mix'.
Proof.
  destruct self as [nc ia pw cw grid engine d0 a0 t0 m0].
  unfold refreshed. simpl. by destruct nc, ia.
Qed.

(** X10.  The bundles after a refresh depend on the last spectrum only: if
    [update_pk] returns for [pk1] and for [pk2] on a calculator, then on the
    calculator left by the refresh with [pk1] it returns for [pk2] and
    leaves the calculator that the refresh with [pk2] alone leaves. *)
Theorem update_pk_last_wins self pk1 pk2 tr1 tr2 tr3 s1 s2 t1 t2 :
  update_pk pk1 self tr1 = (s1, t1, Return tt) →
  update_pk pk2 self tr2 = (s2, t2, Return tt) →
  update_pk pk2 s1 tr3 = (s2, tr3 ++ refresh_events self, Return tt).
Proof.
  intros H1 H2.
  apply update_pk_inv in H1 as (S1 & dd1 & ta1 & tq1 & mix1 & _ & _ & ->).
  apply update_pk_inv in H2 as (S2 & dd2 & ta2 & tq2 & mix2 & N2 & I2 & ->).
  rewrite (update_pk_run _ pk2 tr3 dd2 ta2 tq2 mix2); try done.
  by rewrite refreshed_twice.
Qed.

Lemma update_pk_last_wins_witness :
  update_pk ones2 (refreshed (sample_ptc true true)
                     [twos2; twos2; twos2; twos2; twos2; twos2; twos2; Scalar 1%Qc]
                     [twos2; twos2; twos2; twos2] [twos2; twos2]
                     [twos2; twos2; twos2; twos2]) []
  = (refreshed (sample_ptc true true)
       [ones2; ones2; ones2; ones2; ones2; ones2; ones2; Scalar 1%Qc]
       [ones2; ones2; ones2; ones2] [ones2; ones2] [ones2; ones2; ones2; ones2],
     [] ++ refresh_events (sample_ptc true true), Return tt).
Proof.
  apply (update_pk_last_wins (sample_ptc true true) twos2 ones2 [] [] []
           _ _ (refresh_events (sample_ptc true true))
           (refresh_events (sample_ptc true true)));
    reflexivity.
Defined.

(** X11.  In every outcome, also when it raises, [update_pk] leaves the
    flags, the windows, the wavenumber grid and the FAST-PT object of the
    calculator as they were. *)
Theorem update_pk_keeps_setup self pk tr :
  same_setup (update_pk pk self tr).1.1 self.
Proof.
  destruct self as [nc ia pw cw grid engine d0 a0 t0 m0].
  unfold update_pk, _get_dd_bias, _get_ia_bias, same_setup.
  unfold bind, gets, emit, modify, lift, ret, raise. simpl.
  case_decide; [done|].
  destruct nc, ia; simpl;
    repeat match goal with
           | |- context [match ?r with Raise _ => _ | Return _ => _ end] =>
               destruct r; simpl
           end; done.
Qed.

(** X12.  A failure of FAST-PT in the middle of a refresh is not undone:
    when both flags are set and [IA_tt] raises after [one_loop_dd_bias] and
    [IA_ta] have returned, [update_pk] raises that exception with [dd_bias]
    and [ia_ta] already replaced, and [ia_tt] and [ia_mix] as before. *)
Theorem update_pk_engine_failure self pk tr dd ta e :
  shape pk = shape (ks self) → with_NC self = true → with_IA self = true →
  one_loop_dd_bias (pt self) pk (P_window self) (C_window self) = Return dd →
  IA_ta (pt self) pk (P_window self) (C_window self) = Return ta →
  IA_tt (pt self) pk (P_window self) (C_window self) = Raise e →
  ∃ self',
    update_pk pk self tr
    = (self', tr ++ [EvEngine "one_loop_dd_bias"; EvEngine "IA_ta"; EvEngine "IA_tt"],
       Raise e) ∧
    dd_bias self' = Some dd ∧ ia_ta self' = Some ta ∧
    ia_tt self' = ia_tt self ∧ ia_mix self' = ia_mix self.
Proof.
  intros Hs HNC HIA E0 E1 E2.
  destruct self as [nc ia pw cw grid engine d0 a0 t0 m0]. simpl in *. subst nc ia.
  unfold update_pk, _get_dd_bias, _get_ia_bias.
  unfold bind, gets, emit, modify, lift, ret, raise. simpl.
  rewrite decide_False by (by intros ?). simpl.
  rewrite E0. simpl. rewrite E1. simpl. rewrite E2. simpl.
  eexists. split; [by rewrite <- !app_assoc|]. done.
Qed.

Lemma update_pk_engine_failure_witness :
  ∃ self',
    update_pk ones2 failing_tt_ptc []
    = (self', [EvEngine "one_loop_dd_bias"; EvEngine "IA_ta"; EvEngine "IA_tt"],
       Raise (ValueError "IA_tt failed")) ∧
    dd_bias self'
    = Some [ones2; ones2; ones2; ones2; ones2; ones2; ones2; Scalar 1%Qc] ∧
    ia_ta self' = Some [ones2; ones2; ones2; ones2] ∧
    ia_tt self' = None ∧ ia_mix self' = None.
Proof.
  apply (update_pk_engine_failure failing_tt_ptc ones2 []
           [ones2; ones2; ones2; ones2; ones2; ones2; ones2; Scalar 1%Qc]
           [ones2; ones2; ones2; ones2] (ValueError "IA_tt failed"));
    reflexivity.
Defined.

(** ** [get_pt_pk2d]: the table of combinations *)

Lemma type_is_false t tag : type t ≠ tag → type_is t tag = false.
Proof. intros H. by apply bool_decide_eq_false_2. Qed.

Lemma unknown_type_tests t :
  type t ∉ known_types →
  type_is t "NC" = false ∧ type_is t "IA" = false ∧ type_is t "M" = false.
Proof.
  intros H. repeat split; apply type_is_false; intros E; apply H; rewrite E;
    unfold known_types; solve [repeat constructor].
Qed.

(** One step of [pt_setup] and of [get_pt_pk2d] at once: the two start
    with the same computations. *)
Ltac lockstep H :=
  lazymatch type of H with
  | bind ?m _ ?s ?tr = _ =>
      unfold bind at 1 in H; unfold bind at 1;
      destruct (m s tr) as [[? ?] [?|?]];
      cbv beta iota zeta in H |- *
  end.

Lemma pt_setup_raise rt cosmo tracer1 ptc tracer2
    sub_lowk use_nonlin a_arr lok hik bb tr s1 tr1 e :
  pt_setup rt cosmo tracer1 tracer2 use_nonlin a_arr ptc tr = (s1, tr1, Raise e) →
  get_pt_pk2d rt cosmo tracer1 ptc tracer2 sub_lowk use_nonlin a_arr lok hik bb tr
  = (s1, tr1, Raise e).
Proof.
  intros H. unfold pt_setup in H. unfold get_pt_pk2d.
  cbv zeta in H |- *.
  repeat (lockstep H; [by injection H as -> -> ->|]).
  discriminate H.
Qed.

Lemma pt_setup_unknown_type rt cosmo tracer1 ptc tracer2
    sub_lowk use_nonlin a_arr lok hik bb tr s1 tr1 v :
  type tracer1 ∉ known_types ∨ type (default tracer1 tracer2) ∉ known_types →
  plain_tracer tracer1 →
  pt_setup rt cosmo tracer1 tracer2 use_nonlin a_arr ptc tr = (s1, tr1, Return v) →
  get_pt_pk2d rt cosmo tracer1 ptc tracer2 sub_lowk use_nonlin a_arr lok hik bb tr
  = (s1, tr1 ++ first_bias_calls tracer1,
     Raise (combination_error tracer1 (default tracer1 tracer2))).
Proof.
  intros Hty Hplain H. unfold pt_setup in H. unfold get_pt_pk2d.
  cbv zeta in H |- *.
  set (t2 := default tracer1 tracer2) in *. clearbody t2.
  repeat (lockstep H; [discriminate H|]).
  injection H as <- <- _.
  assert (E1 : plain_tracer tracer1 → type tracer1 ∉ known_types →
               first_bias_calls tracer1 = []).
  { destruct tracer1; simpl; try done; intros _ Hn; exfalso; apply Hn;
      unfold known_types; solve [repeat constructor]. }
  destruct Hty as [Hty|Hty].
  - rewrite (E1 Hplain Hty), app_nil_r.
    apply unknown_type_tests in Hty as (-> & -> & ->). reflexivity.
  - apply unknown_type_tests in Hty as (T1 & T2 & T3).
    rewrite T1, T2, T3.
    destruct tracer1 as [|b1 b2 bs|c1 c2 cd|tag].
    + eval_type_tests. cbv iota. simpl. by rewrite app_nil_r.
    + eval_type_tests. cbv iota.
      unfold bind, call_bias, emit, ret. simpl. by rewrite <- !app_assoc.
    + eval_type_tests. cbv iota.
      unfold bind, call_bias, emit, ret. simpl. by rewrite <- !app_assoc.
    + simpl in Hplain.
      apply (unknown_type_tests (PTTracerOther tag)) in Hplain as (-> & -> & ->).
      simpl. by rewrite app_nil_r.
Qed.

(** X13.  With a tracer whose type is none of [NC], [IA] and [M], in
    either position, [get_pt_pk2d] never returns a [Pk2D]: every run ends in
    an exception.  When nothing fails before the dispatch, that is, when
    lines 401-451 return, the exception is [NotImplementedError] with the
    message "Combination <type1>-<type2> not implemented yet", raised with
    the calculator as those lines left it and after the three bias calls on
    the first tracer when its type is [NC] or [IA]; when those lines raise,
    the call raises their exception. *)
Theorem get_pt_pk2d_unknown_type rt cosmo tracer1 ptc tracer2
    sub_lowk use_nonlin a_arr lok hik bb tr :
  type tracer1 ∉ known_types ∨ type (default tracer1 tracer2) ∉ known_types →
  (∃ e,
     (get_pt_pk2d rt cosmo tracer1 ptc tracer2 sub_lowk use_nonlin a_arr
        lok hik bb tr).2 = Raise e) ∧
  (plain_tracer tracer1 →
   ∀ s1 tr1 v,
     pt_setup rt cosmo tracer1 tracer2 use_nonlin a_arr ptc tr
     = (s1, tr1, Return v) →
     get_pt_pk2d rt cosmo tracer1 ptc tracer2 sub_lowk use_nonlin a_arr
       lok hik bb tr
     = (s1, tr1 ++ first_bias_calls tracer1,
        Raise (combination_error tracer1 (default tracer1 tracer2)))) ∧
  (∀ s1 tr1 e,
     pt_setup rt cosmo tracer1 tracer2 use_nonlin a_arr ptc tr
     = (s1, tr1, Raise e) →
     get_pt_pk2d rt cosmo tracer1 ptc tracer2 sub_lowk use_nonlin a_arr
       lok hik bb tr
     = (s1, tr1, Raise e)).
Proof.
  intros Hty. split; [|split].
  - destruct (get_pt_pk2d rt cosmo tracer1 ptc tracer2 sub_lowk use_nonlin a_arr
                lok hik bb tr) as [[s' tr'] [e|out]] eqn:H; [by eexists|exfalso].
    unfold get_pt_pk2d in H. cbv zeta in H.
    set (t2 := default tracer1 tracer2) in *. clearbody t2.
    invert_binds H.
    match goal with D : (if type_is tracer1 "NC" then _ else _) _ _ = _ |- _ =>
      rename D into HD end.
    destruct Hty as [Hty|Hty]; apply unknown_type_tests in Hty as (E1 & E2 & E3).
    + by rewrite E1, E2, E3 in HD.
    + rewrite E1, E2, E3 in HD.
      destruct (type_is tracer1 "NC"); [invert_binds HD; done|].
      destruct (type_is tracer1 "IA"); [invert_binds HD; done|].
      by destruct (type_is tracer1 "M").
  - intros Hplain s1 tr1 v H. by eapply pt_setup_unknown_type.
  - intros s1 tr1 e H. by apply pt_setup_raise.
Qed.

Lemma get_pt_pk2d_unknown_type_witness :
  ∃ s1 tr1,
    get_pt_pk2d sample_rt sample_cosmo sample_nc (Some (sample_ptc true true))
      (Some other_tracer) false true None 1 2 false []
    = (s1, tr1 ++ [EvBias 1 "b1"; EvBias 1 "b2"; EvBias 1 "b2"],
       Raise (NotImplementedError "Combination NC-X not implemented yet")).
Proof.
  assert (Hty : type sample_nc ∉ known_types
                ∨ type (default sample_nc (Some other_tracer)) ∉ known_types).
  { right. vm_compute. intros H.
    by repeat (inversion H as [|? ? ? H']; clear H; rename H' into H). }
  assert (H : ∃ s1 tr1 v,
            pt_setup sample_rt sample_cosmo sample_nc (Some other_tracer) true None
              (Some (sample_ptc true true)) []
            = (s1, tr1, Return v)).
  { eexists _, _, _. vm_compute. reflexivity. }
  destruct H as (s1 & tr1 & v & H).
  exists s1, tr1.
  exact (proj1 (proj2 (get_pt_pk2d_unknown_type sample_rt sample_cosmo sample_nc
                         (Some (sample_ptc true true)) (Some other_tracer)
                         false true None 1 2 false [] Hty))
           I s1 tr1 v H).
Defined.

(** X14.  Cross-correlations with matter end in the same way in both
    orders of the tracers, for number counts and for intrinsic alignments:
    the same [Pk2D] or the same exception, and the same calculator.  Only
    the slot of the bias calls in the trace differs. *)
Theorem get_pt_pk2d_matter_swap rt cosmo ptc sub_lowk use_nonlin a_arr lok hik bb tr :
  (∀ b1 b2 bs,
     same_outcome
       (get_pt_pk2d rt cosmo (PTNumberCountsTracer b1 b2 bs) ptc
          (Some PTMatterTracer) sub_lowk use_nonlin a_arr lok hik bb tr)
       (get_pt_pk2d rt cosmo PTMatterTracer ptc
          (Some (PTNumberCountsTracer b1 b2 bs))
          sub_lowk use_nonlin a_arr lok hik bb tr)) ∧
  (∀ c1 c2 cd,
     same_outcome
       (get_pt_pk2d rt cosmo (PTIntrinsicAlignmentTracer c1 c2 cd) ptc
          (Some PTMatterTracer) sub_lowk use_nonlin a_arr lok hik bb tr)
       (get_pt_pk2d rt cosmo PTMatterTracer ptc
          (Some (PTIntrinsicAlignmentTracer c1 c2 cd))
          sub_lowk use_nonlin a_arr lok hik bb tr)).
Proof.
  split; intros f1 f2 f3.
  all: unfold get_pt_pk2d.
  all: cbv beta iota zeta delta [default from_option id].
  all: eval_type_tests.
  all: cbv beta iota delta [orb].
  all: repeat (apply bind_same_prefix; intros ? ? ?).
  all: repeat (rewrite bind_assoc_run;
               erewrite (run_bind (call_bias _ _ _ _))
                 by (apply call_bias_run; reflexivity);
               cbv beta).
  all: apply emits_same_outcome.
  all: apply emits_bind;
         [apply emits_on_ptc;
          first [by apply emits_get_pgm | by apply emits_get_pim]|].
  all: intros p; em.
Qed.

(** X15.  [sub_lowk] is used for two number-counts tracers only: when one
    of the tracers has another type, the run of [get_pt_pk2d] is the same
    for both values of the switch. *)
Theorem get_pt_pk2d_sub_lowk_unused rt cosmo tracer1 ptc tracer2
    sub_lowk sub_lowk' use_nonlin a_arr lok hik bb tr :
  type tracer1 ≠ "NC" ∨ type (default tracer1 tracer2) ≠ "NC" →
  get_pt_pk2d rt cosmo tracer1 ptc tracer2 sub_lowk use_nonlin a_arr lok hik bb tr
  = get_pt_pk2d rt cosmo tracer1 ptc tracer2 sub_lowk' use_nonlin a_arr lok hik bb tr.
Proof.
  intros Hty. unfold get_pt_pk2d. cbv zeta.
  set (t2 := default tracer1 tracer2) in *. clearbody t2.
  destruct Hty as [Hty|Hty]; by rewrite !(type_is_false _ _ Hty).
Qed.

Lemma get_pt_pk2d_sub_lowk_unused_witness :
  get_pt_pk2d sample_rt sample_cosmo sample_nc (Some (sample_ptc true true))
    (Some sample_ia) true true None 1 2 false []
  = get_pt_pk2d sample_rt sample_cosmo sample_nc (Some (sample_ptc true true))
      (Some sample_ia) false true None 1 2 false [].
Proof.
  apply (get_pt_pk2d_sub_lowk_unused sample_rt sample_cosmo sample_nc
           (Some (sample_ptc true true)) (Some sample_ia) true false true None
           1 2 false []).
  right. simpl. discriminate.
Defined.

(** X16.  [return_ia_bb] is used for two intrinsic-alignment tracers only:
    when one of the tracers has another type, the run of [get_pt_pk2d] is
    the same for both values of the switch. *)
Theorem get_pt_pk2d_ia_bb_unused rt cosmo tracer1 ptc tracer2
    sub_lowk use_nonlin a_arr lok hik bb bb' tr :
  type tracer1 ≠ "IA" ∨ type (default tracer1 tracer2) ≠ "IA" →
  get_pt_pk2d rt cosmo tracer1 ptc tracer2 sub_lowk use_nonlin a_arr lok hik bb tr
  = get_pt_pk2d rt cosmo tracer1 ptc tracer2 sub_lowk use_nonlin a_arr lok hik bb' tr.
Proof.
  intros Hty. unfold get_pt_pk2d. cbv zeta.
  set (t2 := default tracer1 tracer2) in *. clearbody t2.
  destruct Hty as [Hty|Hty]; by rewrite !(type_is_false _ _ Hty).
Qed.

Lemma get_pt_pk2d_ia_bb_unused_witness :
  get_pt_pk2d sample_rt sample_cosmo sample_ia (Some (sample_ptc true true))
    (Some sample_nc) false true None 1 2 true []
  = get_pt_pk2d sample_rt sample_cosmo sample_ia (Some (sample_ptc true true))
      (Some sample_nc) false true None 1 2 false [].
Proof.
  apply (get_pt_pk2d_ia_bb_unused sample_rt sample_cosmo sample_ia
           (Some (sample_ptc true true)) (Some sample_nc) false true None
           1 2 true false []).
  right. simpl. discriminate.
Defined.

(** ** [get_pt_pk2d]: the calls to the cosmology *)

Lemma emits_power_grid_fn P fn power a_arr :
  P (EvCosmo fn) → emits P (power_grid fn power a_arr).
Proof. intros HP. unfold power_grid. em. Qed.

(** X17.  With [use_nonlin] false, [get_pt_pk2d] never calls
    [nonlin_matter_power]: no event that it adds to the trace is such a
    call, whatever the tracers and whether it returns or raises. *)
Theorem get_pt_pk2d_linear_only rt cosmo tracer1 ptc tracer2
    sub_lowk a_arr lok hik bb tr :
  ∃ s' ev r,
    get_pt_pk2d rt cosmo tracer1 ptc tracer2 sub_lowk false a_arr lok hik bb tr
    = (s', tr ++ ev, r) ∧
    Forall not_nonlin ev.
Proof.
  unfold get_pt_pk2d. cbv zeta.
  set (t2 := default tracer1 tracer2). clearbody t2.
  match goal with |- ∃ _ _ _, ?m ?s ?t = _ ∧ _ =>
    assert (E : emits not_nonlin m);
      [|destruct (E s) as (s' & ev & r & HP & Hrun); by exists s', ev, r]
  end.
  cbv iota.
  repeat first
    [ apply emits_update_pk; by intros ?
    | apply emits_init; by intros ?
    | apply emits_power_grid_fn; done
    | apply emits_get_pgg; by intros ?
    | apply emits_get_pgm; by intros ?
    | apply emits_get_pim; by intros ?
    | apply emits_get_pgi; by intros ?
    | apply emits_get_pii; by intros ?
    | apply emits_call_bias; done
    | apply emits_emit; done
    | em_step ].
Qed.

(** X18.  When no scale factors are given and the cosmology reports a
    non-zero status with its own samples, [get_pt_pk2d] raises the error of
    that status before anything else: the calculator and the trace are as
    they were, whatever the tracers. *)
Theorem get_pt_pk2d_spline_status rt cosmo tracer1 ptc tracer2
    sub_lowk use_nonlin lok hik bb tr :
  (get_pk_spline_a cosmo).2 ≠ 0%Z →
  get_pt_pk2d rt cosmo tracer1 ptc tracer2 sub_lowk use_nonlin None lok hik bb tr
  = (ptc, tr, Raise (CCLError (get_pk_spline_a cosmo).2)).
Proof.
  intros Hst. unfold get_pt_pk2d.
  destruct (get_pk_spline_a cosmo) as [a st]. simpl in *.
  unfold bind at 1. unfold bind at 1. unfold check.
  by rewrite decide_False.
Qed.

Lemma get_pt_pk2d_spline_status_witness :
  get_pt_pk2d sample_rt bad_cosmo other_tracer None None false true None 1 2 false []
  = (None, [], Raise (CCLError 1)).
Proof.
  apply (get_pt_pk2d_spline_status sample_rt bad_cosmo other_tracer None None
           false true 1 2 false []).
  simpl. lia.
Defined.

(** ** [get_pt_pk2d]: what a call leaves behind *)

Lemma keeps_run {S A} (m : M S A) s tr s' tr' r :
  keeps m → m s tr = (s', tr', r) → s' = s.
Proof. intros K H. specialize (K s tr). by rewrite H in K. Qed.

Section Keeps.
Context {S : Type}.

Lemma keeps_ret {A} (a : A) : keeps (S:=S) (ret a).
Proof. done. Qed.

Lemma keeps_raise {A} e : keeps (S:=S) (A:=A) (raise e).
Proof. done. Qed.

Lemma keeps_lift {A} (r : result A) : keeps (S:=S) (lift r).
Proof. done. Qed.

Lemma keeps_gets {A} (f : S → A) : keeps (gets f).
Proof. done. Qed.

Lemma keeps_emit e : keeps (S:=S) (emit e).
Proof. done. Qed.

Lemma keeps_bind {A B} (m : M S A) (f : A → M S B) :
  keeps m → (∀ a, keeps (f a)) → keeps (bind m f).
Proof.
  intros Km Kf s tr. unfold bind.
  destruct (m s tr) as [[s1 tr1] [e|a]] eqn:E.
  - simpl. by eapply keeps_run.
  - rewrite (Kf a s1 tr1). by eapply keeps_run.
Qed.

Lemma keeps_mapM {A B} (f : A → M S B) l : (∀ a, keeps (f a)) → keeps (mapM f l).
Proof.
  intros Kf. induction l as [|x l IH]; simpl; [apply keeps_ret|].
  apply keeps_bind; [apply Kf|]. intros y.
  apply keeps_bind; [apply IH|]. intros ys. apply keeps_ret.
Qed.

Lemma keeps_arr_op f (ma mb : M S ndarray) :
  keeps ma → keeps mb → keeps (arr_op f ma mb).
Proof.
  intros Ka Kb. unfold arr_op.
  apply keeps_bind; [done|]. intros a.
  apply keeps_bind; [done|]. intros b. apply keeps_lift.
Qed.

Lemma keeps_check status : keeps (S:=S) (check status).
Proof. unfold check. by case_decide. Qed.

Lemma keeps_call_bias slot t name z : keeps (S:=S) (call_bias slot t name z).
Proof. unfold call_bias. by destruct (bias_fn t name). Qed.
End Keeps.

Lemma keeps_on_ptc {A} (m : M PTCalculator A) : keeps m → keeps (on_ptc m).
Proof.
  intros K [c|] tr; [|done]. unfold on_ptc.
  specialize (K c tr). destruct (m c tr) as [[c' tr'] r]. simpl in *. by subst.
Qed.

Lemma observes_keeps {S A} P (m : M S A) : observes P m → keeps m.
Proof. intros H s tr. destruct (H s) as (ev & r & _ & E). by rewrite E. Qed.

Lemma keeps_get_pgg Pd1d1 g4 b11 b21 bs1 b12 b22 bs2 sub_lowk :
  keeps (get_pgg Pd1d1 g4 b11 b21 bs1 b12 b22 bs2 sub_lowk).
Proof.
  apply (observes_keeps (reads ["dd_bias"])).
  unfold get_pgg, self_dd_bias, read_bundle. ob.
Qed.

Lemma keeps_get_pgm Pd1d1 g4 b1 b2 bs : keeps (get_pgm Pd1d1 g4 b1 b2 bs).
Proof.
  apply (observes_keeps (reads ["dd_bias"])).
  unfold get_pgm, self_dd_bias, read_bundle. ob.
Qed.

Lemma keeps_get_pim Pd1d1 g4 c1 c2 cd : keeps (get_pim Pd1d1 g4 c1 c2 cd).
Proof.
  apply (observes_keeps (reads ["ia_ta"; "ia_mix"])).
  unfold get_pim, read_bundle. ob.
Qed.

Lemma keeps_get_pgi Pd1d1 g4 b1 b2 bs c1 c2 cd :
  keeps (get_pgi Pd1d1 g4 b1 b2 bs c1 c2 cd).
Proof.
  apply (observes_keeps (reads_or_warns ["ia_ta"; "ia_mix"])).
  unfold get_pgi, read_bundle. ob.
Qed.

Lemma keeps_get_pii Pd1d1 g4 c11 c21 cd1 c12 c22 cd2 bb :
  keeps (get_pii Pd1d1 g4 c11 c21 cd1 c12 c22 cd2 bb).
Proof.
  apply (observes_keeps (reads ["ia_ta"; "ia_tt"; "ia_mix"])).
  unfold get_pii, read_bundle. ob.
Qed.

Ltac kp_step :=
  lazymatch goal with
  | |- keeps (ret _) => apply keeps_ret
  | |- keeps (raise _) => apply keeps_raise
  | |- keeps (not_implemented _ _) => apply keeps_raise
  | |- keeps (lift _) => apply keeps_lift
  | |- keeps (lit _) => apply keeps_ret
  | |- keeps (gets _) => apply keeps_gets
  | |- keeps (emit _) => apply keeps_emit
  | |- keeps (bind _ _) => apply keeps_bind; [|intros ?]
  | |- keeps (mapM _ _) => apply keeps_mapM; intros ?
  | |- keeps (arr_op _ _ _) => apply keeps_arr_op
  | |- keeps (check _) => apply keeps_check
  | |- keeps (call_bias _ _ _ _) => apply keeps_call_bias
  | |- keeps (power_grid _ _ _) => unfold power_grid
  | |- keeps (on_ptc _) => apply keeps_on_ptc
  | |- keeps (get_pgg _ _ _ _ _ _ _ _ _) => apply keeps_get_pgg
  | |- keeps (get_pgm _ _ _ _ _) => apply keeps_get_pgm
  | |- keeps (get_pim _ _ _ _ _) => apply keeps_get_pim
  | |- keeps (get_pgi _ _ _ _ _ _ _ _) => apply keeps_get_pgi
  | |- keeps (get_pii _ _ _ _ _ _ _ _ _) => apply keeps_get_pii
  | |- keeps (if ?b then _ else _) => destruct b
  | |- keeps (let '(_, _) := ?x in _) => destruct x
  | |- keeps (match ?x with None => _ | Some _ => _ end) => destruct x
  end.

Ltac kp := repeat kp_step.

(** Replaces the state after a state-preserving step by the state before. *)
Ltac same_state R :=
  lazymatch type of R with
  | ?m ?s ?tr = _ =>
      let K := fresh "K" in
      let E := fresh "E" in
      assert (K : keeps m) by kp;
      pose proof (keeps_run m s tr _ _ _ K R) as E; clear K; subst
  end.

(** X19.  A call of [get_pt_pk2d] that returns leaves the calculator it
    was given refreshed for the linear power spectrum at scale factor 1 on
    the calculator's own wavenumbers: the bundles of the set flags are the
    decompositions that FAST-PT returned for that spectrum, whatever the
    bundles held before, and nothing else of the calculator is changed. *)
Theorem get_pt_pk2d_refreshes rt cosmo tracer1 c tracer2
    sub_lowk use_nonlin a_arr lok hik bb tr s' tr' out :
  get_pt_pk2d rt cosmo tracer1 (Some c) tracer2 sub_lowk use_nonlin a_arr
    lok hik bb tr
  = (s', tr', Return out) →
  ∃ pk dd ta tq mix,
    linear_matter_power cosmo (ks c) (Scalar (Q2Qc 1.0)) = Return pk ∧
    shape pk = shape (ks c) ∧
    (with_NC c = true →
     one_loop_dd_bias (pt c) pk (P_window c) (C_window c) = Return dd) ∧
    (with_IA c = true →
     IA_ta (pt c) pk (P_window c) (C_window c) = Return ta ∧
     IA_tt (pt c) pk (P_window c) (C_window c) = Return tq ∧
     IA_mix (pt c) pk (P_window c) (C_window c) = Return mix) ∧
    s' = Some (refreshed c dd ta tq mix).
Proof.
  intros H. unfold get_pt_pk2d in H. cbv zeta in H.
  set (t2 := default tracer1 tracer2) in *. clearbody t2.
  invert_binds H.
  same_state R.
  unfold gets in R0. injection R0 as <- <- <-. cbv [id] in R1.
  same_state R1. same_state R2. same_state R3. same_state R4.
  apply on_ptc_gets_inv in R5 as (c0 & [= <-] & -> & -> & ->).
  same_state R6.
  unfold lift in R7. injection R7 as <- <- Hpk.
  unfold on_ptc in R8.
  destruct (update_pk x23 c x22) as [[c1 t1] r1] eqn:U.
  injection R8 as <- <- ->.
  same_state R9. same_state R10. same_state R11. same_state R12.
  same_state R13.
  injection H as <- _ _.
  destruct x26.
  apply update_pk_inv in U as (Hs & dd & ta & tq & mix & HN & HI & ->).
  by exists x23, dd, ta, tq, mix.
Qed.

Lemma get_pt_pk2d_refreshes_witness :
  ∃ s' tr' out,
    get_pt_pk2d sample_rt sample_cosmo sample_nc (Some vector_s4_ptc)
      (Some PTMatterTracer) false true None 1 2 false []
    = (s', tr', Return out) ∧
    ∃ pk dd ta tq mix,
      linear_matter_power sample_cosmo (ks vector_s4_ptc) (Scalar (Q2Qc 1.0))
      = Return pk ∧
      shape pk = shape (ks vector_s4_ptc) ∧
      (with_NC vector_s4_ptc = true →
       one_loop_dd_bias (pt vector_s4_ptc) pk (P_window vector_s4_ptc)
         (C_window vector_s4_ptc) = Return dd) ∧
      (with_IA vector_s4_ptc = true →
       IA_ta (pt vector_s4_ptc) pk (P_window vector_s4_ptc)
         (C_window vector_s4_ptc) = Return ta ∧
       IA_tt (pt vector_s4_ptc) pk (P_window vector_s4_ptc)
         (C_window vector_s4_ptc) = Return tq ∧
       IA_mix (pt vector_s4_ptc) pk (P_window vector_s4_ptc)
         (C_window vector_s4_ptc) = Return mix) ∧
      s' = Some (refreshed vector_s4_ptc dd ta tq mix).
Proof.
  assert (H : ∃ s' tr' out,
            get_pt_pk2d sample_rt sample_cosmo sample_nc (Some vector_s4_ptc)
              (Some PTMatterTracer) false true None 1 2 false []
            = (s', tr', Return out)).
  { eexists _, _, _. vm_compute. reflexivity. }
  destruct H as (s' & tr' & out & H).
  exists s', tr', out. split; [exact H|].
  exact (get_pt_pk2d_refreshes sample_rt sample_cosmo sample_nc vector_s4_ptc
           (Some PTMatterTracer) false true None 1 2 false [] s' tr' out H).
Defined.

(** ** [get_pt_pk2d]: the matter power grid *)

Lemma transpose_involutive a : wf a → transpose (transpose a) = a.
Proof.
  destruct a as [x|v|c rows]; [done|done|]. simpl. intros W.
  rewrite length_fmap, length_seq. f_equal.
  apply list_eq. intros i. rewrite list_lookup_fmap.
  destruct (rows !! i) as [r|] eqn:Hr.
  - assert (Hi : i < length rows) by (apply lookup_lt_is_Some; eauto).
    rewrite lookup_seq_lt by done. simpl. f_equal.
    assert (Hl : length r = c) by (by eapply (proj1 (Forall_lookup _ _) W)).
    apply list_eq. intros j. rewrite list_lookup_fmap.
    destruct (r !! j) as [y|] eqn:Hy.
    + assert (Hj : j < c) by (rewrite <- Hl; apply lookup_lt_is_Some; eauto).
      rewrite list_lookup_fmap, lookup_seq_lt by done. simpl.
      by rewrite list_lookup_fmap, Hr; simpl; rewrite Hy.
    + apply lookup_ge_None in Hy.
      rewrite list_lookup_fmap.
      rewrite (proj2 (lookup_ge_None (seq 0 c) j)); [done|].
      rewrite length_seq. lia.
  - apply lookup_ge_None in Hr.
    rewrite (proj2 (lookup_ge_None (seq 0 (length rows)) i)); [done|].
    by rewrite length_seq.
Qed.

Lemma vector_rows_wf c l rows :
  vector_rows c l = Some rows → Forall (λ r, length r = c) rows.
Proof.
  revert rows. induction l as [|a l IH]; intros rows; simpl.
  - by intros [= <-].
  - destruct a as [x|v|c' r']; try done.
    case_decide as Hv; [|done].
    destruct (vector_rows c l) as [rows'|]; [|done].
    intros [= <-]. constructor; [done|]. by apply IH.
Qed.

Lemma np_array_wf l g : np_array l = Return g → wf g.
Proof.
  unfold np_array. destruct l as [|[x|v|c r] l]; try done.
  - by intros [= <-].
  - by destruct (scalar_items _); [intros [= <-]|].
  - destruct (vector_rows _ _) as [rows|] eqn:E; [|done].
    intros [= <-]. by eapply vector_rows_wf.
Qed.

Lemma power_rows_inv fn (power : ndarray → ndarray → result ndarray) items c tr s' tr' rows :
  mapM (λ a, ptc_ks <- on_ptc (gets ks) ;;
             emit (EvCosmo fn) ;;;
             lift (power ptc_ks a)) items (Some c) tr
  = (s', tr', Return rows) →
  s' = Some c ∧ tr' = tr ++ replicate (length items) (EvCosmo fn) ∧
  Forall2 (λ a row, power (ks c) a = Return row) items rows.
Proof.
  revert tr rows. induction items as [|a items IH]; intros tr rows; simpl.
  - intros [= <- <- <-]. by rewrite app_nil_r.
  - intros H.
    apply bind_Return_inv in H as (row & s1 & tr1 & Hrow & H).
    apply bind_Return_inv in H as (rows' & s2 & tr2 & Hrows & H).
    injection H as <- <- <-.
    unfold bind, on_ptc, gets, emit, lift in Hrow. simpl in Hrow.
    destruct (power (ks c) a) as [e|row'] eqn:Hp; [done|].
    injection Hrow as <- <- <-.
    apply IH in Hrows as (-> & -> & HF).
    split; [done|]. split; [by rewrite <- app_assoc|]. by constructor.
Qed.

Lemma power_grid_inv fn power a_arr c tr s' tr' Pd1d1 :
  power_grid fn power a_arr (Some c) tr = (s', tr', Return Pd1d1) →
  ∃ items rows grid,
    np_iter a_arr = Return items ∧
    Forall2 (λ a row, power (ks c) a = Return row) items rows ∧
    np_array rows = Return grid ∧ Pd1d1 = transpose grid ∧
    s' = Some c ∧ tr' = tr ++ replicate (length items) (EvCosmo fn).
Proof.
  unfold power_grid. intros H.
  apply bind_lift_inv in H as (items & Hi & H).
  apply bind_Return_inv in H as (rows & s1 & tr1 & Hm & H).
  apply power_rows_inv in Hm as (-> & -> & HF).
  apply bind_lift_inv in H as (grid & Hg & H).
  injection H as <- <- <-.
  by exists items, rows, grid.
Qed.

(** X20.  For two tracers of type [M], the power grid of the [Pk2D] that
    [get_pt_pk2d] returns is the array of the rows that the chosen matter
    power returned, one row per scale factor of the [Pk2D]'s axis, on the
    wavenumbers of the calculator it leaves; the two transpositions on the
    way cancel. *)
Theorem get_pt_pk2d_matter_rows rt cosmo tracer1 ptc tracer2
    sub_lowk use_nonlin a_arr lok hik bb tr s' tr' out :
  type tracer1 = "M" → type (default tracer1 tracer2) = "M" →
  get_pt_pk2d rt cosmo tracer1 ptc tracer2 sub_lowk use_nonlin a_arr lok hik bb tr
  = (s', tr', Return out) →
  ∃ c items rows,
    s' = Some c ∧
    np_iter (pk2d_a_arr out) = Return items ∧
    Forall2 (λ a row, matter_power cosmo use_nonlin (ks c) a = Return row)
      items rows ∧
    np_array rows = Return (pk2d_pk_arr out).
Proof.
  intros H1 H2 H.
  unfold get_pt_pk2d in H. cbv zeta in H.
  set (t2 := default tracer1 tracer2) in *. clearbody t2.
  rewrite (type_is_true _ _ H1), (type_is_true _ _ H2) in H.
  rewrite !(type_is_false tracer1 "NC"), !(type_is_false tracer1 "IA") in H
    by (rewrite H1; discriminate).
  rewrite !(type_is_false t2 "NC"), !(type_is_false t2 "IA") in H
    by (rewrite H2; discriminate).
  cbv beta iota delta [orb] in H.
  invert_binds H.
  injection H as <- _ <-. simpl.
  apply on_ptc_gets_inv in R13 as (c & -> & -> & _ & _).
  unfold ret in R12. injection R12 as -> _ <-.
  assert (P : power_grid (if use_nonlin then "nonlin_matter_power"
                          else "linear_matter_power")
                (matter_power cosmo use_nonlin) x x33 x34
              = (Some c, x37, Return x35)).
  { unfold matter_power. by destruct use_nonlin. }
  assert (x33 = Some c) as ->.
  { symmetry. eapply keeps_run; [|exact P]. kp. }
  apply power_grid_inv in P as (items & rows & grid & Hi & HF & Hg & -> & _ & _).
  exists c, items, rows. split; [done|]. split; [done|]. split; [done|].
  rewrite transpose_involutive; [done|]. by eapply np_array_wf.
Qed.

Lemma get_pt_pk2d_matter_rows_witness :
  ∃ s' tr' out,
    get_pt_pk2d sample_rt sample_cosmo PTMatterTracer (Some (sample_ptc true false))
      None false true None 1 2 false []
    = (s', tr', Return out) ∧
    ∃ c items rows,
      s' = Some c ∧
      np_iter (pk2d_a_arr out) = Return items ∧
      Forall2 (λ a row, matter_power sample_cosmo true (ks c) a = Return row)
        items rows ∧
      np_array rows = Return (pk2d_pk_arr out).
Proof.
  assert (H : ∃ s' tr' out,
            get_pt_pk2d sample_rt sample_cosmo PTMatterTracer
              (Some (sample_ptc true false)) None false true None 1 2 false []
            = (s', tr', Return out)).
  { eexists _, _, _. vm_compute. reflexivity. }
  destruct H as (s' & tr' & out & H).
  exists s', tr', out. split; [exact H|].
  exact (get_pt_pk2d_matter_rows sample_rt sample_cosmo PTMatterTracer
           (Some (sample_ptc true false)) None false true None 1 2 false []
           s' tr' out eq_refl eq_refl H).
Defined.

(** ** [get_pt_pk2d]: the default calculator *)

Lemma quiet_run {S A} (m : M S A) s tr s' tr' r :
  emits no_event m → m s tr = (s', tr', r) → tr' = tr.
Proof.
  intros Hm H. destruct (emits_nothing m s tr Hm) as (s1 & r1 & E).
  rewrite E in H. by injection H as _ <- _.
Qed.

Lemma grows_run {S A} (m : M S A) s tr s' tr' r :
  emits (λ _, True) m → m s tr = (s', tr', r) → ∃ ev, tr' = tr ++ ev.
Proof.
  intros Hm H. destruct (Hm s) as (s1 & ev & r1 & _ & E).
  rewrite E in H. injection H as _ <- _. by exists ev.
Qed.

Ltac em_any :=
  repeat first
    [ apply emits_update_pk; intros ?; exact I
    | apply emits_init; intros ?; exact I
    | apply emits_power_grid; intros ?; exact I
    | apply emits_get_pgg; intros ?; exact I
    | apply emits_get_pgm; intros ?; exact I
    | apply emits_get_pim; intros ?; exact I
    | apply emits_get_pgi; intros ?; exact I
    | apply emits_get_pii; intros ?; exact I
    | em_step ].

(** The trace after a step that adds no event is the trace before. *)
Ltac quiet R :=
  lazymatch type of R with
  | ?m ?s ?tr = _ =>
      let K := fresh "K" in
      let E := fresh "E" in
      assert (K : emits no_event m) by em;
      pose proof (quiet_run m s tr _ _ _ K R) as E; clear K; subst
  end.

(** The trace after a step extends the trace before. *)
Ltac grows R :=
  lazymatch type of R with
  | ?m ?s ?tr = _ =>
      let K := fresh "K" in
      let ev := fresh "ev" in
      let E := fresh "E" in
      assert (K : emits (λ _, True) m) by em_any;
      destruct (grows_run m s tr _ _ _ K R) as [ev E]; clear K; subst
  end.

(** X21.  Called without a calculator, [get_pt_pk2d] builds one with the
    defaults of [__init__]: both flags set, no window, [C_window = 0.75],
    120 wavenumbers from [np.logspace(-4, 2, 120)].  So whatever the types
    of the tracers, also for two matter tracers, a call that returns has
    constructed a FAST-PT object and run all four decompositions, in this
    order after the linear power spectrum, and ends with all four bundles
    populated. *)
Theorem get_pt_pk2d_default_calculator rt cosmo tracer1 tracer2
    sub_lowk use_nonlin a_arr lok hik bb tr s' tr' out :
  get_pt_pk2d rt cosmo tracer1 None tracer2 sub_lowk use_nonlin a_arr lok hik bb tr
  = (s', tr', Return out) →
  ∃ c ev,
    s' = Some c ∧
    with_NC c = true ∧ with_IA c = true ∧
    P_window c = None ∧ C_window c = Q2Qc 0.75 ∧
    np_logspace rt (Q2Qc (-4)) (Q2Qc 2) 120 = Return (ks c) ∧
    is_Some (dd_bias c) ∧ is_Some (ia_ta c) ∧
    is_Some (ia_tt c) ∧ is_Some (ia_mix c) ∧
    tr' = tr ++ [EvEngine "FASTPT"; EvCosmo "linear_matter_power";
                 EvEngine "one_loop_dd_bias"; EvEngine "IA_ta";
                 EvEngine "IA_tt"; EvEngine "IA_mix"] ++ ev.
Proof.
  intros H. unfold get_pt_pk2d in H. cbv zeta in H.
  set (t2 := default tracer1 tracer2) in *. clearbody t2.
  invert_binds H.
  same_state R. quiet R.
  unfold gets in R0. injection R0 as <- <- <-. cbv [id] in R1.
  apply bind_Return_inv in R1 as (c0 & s1 & tr1 & Hinit & R1).
  apply init_inv in Hinit
    as (_ & -> & -> & points & grid & n & engine & Hp & Hg & Hn & He & ->).
  rewrite nk_total_default in Hp. injection Hp as <-.
  unfold modify in R1. injection R1 as <- <- _.
  same_state R2. quiet R2.
  same_state R3. quiet R3.
  same_state R4. quiet R4.
  apply on_ptc_gets_inv in R5 as (c0 & [= <-] & -> & -> & ->).
  rewrite emit_run in R6. injection R6 as <- <- _.
  unfold lift in R7. injection R7 as <- <- Hpk.
  unfold on_ptc in R8.
  match type of R8 with context [update_pk ?pk ?c ?t] =>
    destruct (update_pk pk c t) as [[c1 t1] r1] eqn:U
  end.
  injection R8 as <- <- ->. destruct x26.
  pose proof U as U'.
  apply update_pk_inv in U' as (Hs & dd & ta & tq & mix & HN & HI & ->).
  rewrite (update_pk_run _ _ _ dd ta tq mix Hs HN HI) in U.
  injection U as <-.
  same_state R9. grows R9.
  same_state R10. grows R10.
  same_state R11. grows R11.
  same_state R12. grows R12.
  same_state R13. grows R13.
  injection H as <- <- _.
  eexists _, (ev ++ ev0 ++ ev1 ++ ev2 ++ ev3).
  split; [reflexivity|]. simpl.
  repeat (split; [done || by eexists|]).
  by rewrite <- !app_assoc.
Qed.

Lemma get_pt_pk2d_default_calculator_witness :
  ∃ s' tr' out,
    get_pt_pk2d sample_rt sample_cosmo PTMatterTracer None None
      false true None 1 2 false []
    = (s', tr', Return out) ∧
    ∃ c ev,
      s' = Some c ∧
      with_NC c = true ∧ with_IA c = true ∧
      P_window c = None ∧ C_window c = Q2Qc 0.75 ∧
      np_logspace sample_rt (Q2Qc (-4)) (Q2Qc 2) 120 = Return (ks c) ∧
      is_Some (dd_bias c) ∧ is_Some (ia_ta c) ∧
      is_Some (ia_tt c) ∧ is_Some (ia_mix c) ∧
      tr' = [] ++ [EvEngine "FASTPT"; EvCosmo "linear_matter_power";
                   EvEngine "one_loop_dd_bias"; EvEngine "IA_ta";
                   EvEngine "IA_tt"; EvEngine "IA_mix"] ++ ev.
Proof.
  assert (H : ∃ s' tr' out,
            get_pt_pk2d sample_rt sample_cosmo PTMatterTracer None None
              false true None 1 2 false []
            = (s', tr', Return out)).
  { eexists _, _, _. vm_compute. reflexivity. }
  destruct H as (s' & tr' & out & H).
  exists s', tr', out. split; [exact H|].
  exact (get_pt_pk2d_default_calculator sample_rt sample_cosmo PTMatterTracer None
           false true None 1 2 false [] s' tr' out H).
Defined.
